(** * ST-MEM pre-training driver ([main_pretrain.py]): a shallow embedding

    The driver has two functions.  [parse] merges the command-line namespace
    into the configuration loaded from YAML; [main] runs the pre-training:
    it initialises the distributed context, builds the data pipeline and the
    model, derives the learning rate, restores a checkpoint, runs the epoch
    loop with periodic checkpoints and a JSON log, and finally saves the
    encoder.

    Embedding.
    - Python values are the inductive [pyval]; a [dict] with string keys is a
      [gmap string pyval].  A [float] is an IEEE 754 binary64 number
      ([spec_float] at precision 53), with the rounding, the infinities and
      the NaN of the machine; an [int] is unbounded.
    - Values are trees.  The one dictionary object [main] writes to is
      [config['train']]; the other places of the configuration at which
      [yaml.load] put that same object (a YAML anchor and its aliases) are
      part of the environment, and the write shows at each of them.
    - [main] is written in a monad [M] that threads the configuration
      dictionary (the only Python object [main] itself mutates), collects the
      calls to external collaborators in a trace of [event]s, and propagates
      Python exceptions.
    - The collaborators ([util.misc], [util.dataset], [util.optimizer],
      [engine_pretrain], [models], torch, numpy, os) are not part of the file:
      what [main] asks of them is an [event], what they answer is a field of
      [env].  They are assumed to return normally and to leave the
      configuration dictionary as it is.  [print] calls are not recorded,
      the expressions they evaluate are. *)

From Stdlib Require Import ZArith QArith Qpower Ascii String List Lia SpecFloat.
From stdpp Require Import gmap strings list fin_maps pretty.

#[local] Set Warnings "-register-all".

(** ** Floats

    A Python [float] is a binary64 number: precision 53, exponents up to
    1024, every operation rounded to nearest, ties to even. *)

Abbreviation float := spec_float.

Definition float_add : float -> float -> float := SFadd 53 1024.
Definition float_mul : float -> float -> float := SFmul 53 1024.
Definition float_div : float -> float -> float := SFdiv 53 1024.

Definition float_is_zero (f : float) : bool :=
  match f with S754_zero _ => true | _ => false end.

(** An int as the operand of a correctly rounded operation: mantissa and
    exponent 0, not rounded. *)
Definition float_exact (z : Z) : float :=
  match z with
  | Z0 => S754_zero false
  | Zpos p => S754_finite false p 0
  | Zneg p => S754_finite true p 0
  end.

(** The literal [n/d]: the double nearest to the quotient. *)
Definition float_lit (n d : Z) : float := float_div (float_exact n) (float_exact d).

(** [f == z] for a float and an int: Python compares the exact values. *)
Definition float_eq_int (f : float) (z : Z) : bool :=
  match f with
  | S754_zero _ => (z =? 0)%Z
  | S754_finite s m e =>
      let v := if s then Zneg m else Zpos m in
      if (0 <=? e)%Z then (z =? v * 2 ^ e)%Z
      else ((v `mod` 2 ^ (- e) =? 0) && (z =? v `div` 2 ^ (- e)))%Z
  | _ => false
  end.

(** ** Python values *)

Inductive pyval : Type :=
  | VNone
  | VBool (b : bool)
  | VInt (z : Z)
  | VFloat (f : float)
  | VStr (s : string)
  | VList (l : list pyval)
  | VDict (d : gmap string pyval).

Abbreviation config := (gmap string pyval).

(** [bool(v)]: the truth value Python gives to [v] in [if v:] and [a and b]. *)
Definition truthy (v : pyval) : bool :=
  match v with
  | VNone => false
  | VBool b => b
  | VInt z => negb (z =? 0)%Z
  | VFloat f => negb (float_is_zero f)
  | VStr s => negb (String.eqb s "")
  | VList l => negb (Nat.eqb (length l) 0)
  | VDict d => negb (Nat.eqb (size d) 0)
  end.

(** [v is None] *)
Definition is_none (v : pyval) : bool :=
  match v with VNone => true | _ => false end.

(** ** Exceptions and results *)

Inductive exn : Type :=
  | KeyError (key : string)
  | TypeError
  | ZeroDivisionError
  | OverflowError
  | MemoryError
  | ValueError_unsupported_model (model_name : pyval)
      (* ValueError(f'Unsupported model name: {model_name}') *)
  | UnboundLocalError (name : string).

Inductive result (A : Type) : Type :=
  | Ok (a : A)
  | Raise (e : exn).
Arguments Ok {A} a.
Arguments Raise {A} e.

(** ** The numeric tower: [int] (with [bool] as a subclass) and [float] *)

Inductive num : Type :=
  | NInt (z : Z)
  | NFloat (f : float).

Definition as_num (v : pyval) : option num :=
  match v with
  | VBool b => Some (NInt (Z.b2z b))
  | VInt z => Some (NInt z)
  | VFloat f => Some (NFloat f)
  | _ => None
  end.

Definition of_num (n : num) : pyval :=
  match n with NInt z => VInt z | NFloat f => VFloat f end.

(** [float(z)] for an int: rounded to nearest, OverflowError ("int too large
    to convert to float") when the rounded value is out of range. *)
Definition float_of_int (z : Z) : result float :=
  match SpecFloat.binary_normalize 53 1024 z 0 false with
  | S754_infinity _ => Raise OverflowError
  | f => Ok f
  end.

(** The conversion a float operation applies to an operand. *)
Definition num_float (n : num) : result float :=
  match n with NInt z => float_of_int z | NFloat f => Ok f end.

(** A float operation on two numbers one of which is a float: the operands
    are converted left to right, then [op] is applied. *)
Definition float_op (op : float -> float -> float) (a b : num) : result num :=
  match num_float a with
  | Ok x =>
      match num_float b with
      | Ok y => Ok (NFloat (op x y))
      | Raise e => Raise e
      end
  | Raise e => Raise e
  end.

Definition num_add (a b : num) : result num :=
  match a, b with
  | NInt x, NInt y => Ok (NInt (x + y))
  | _, _ => float_op float_add a b
  end.

Definition num_mul (a b : num) : result num :=
  match a, b with
  | NInt x, NInt y => Ok (NInt (x * y))
  | _, _ => float_op float_mul a b
  end.

(** [a / b]: two ints give the correctly rounded quotient, OverflowError
    when it is out of range; with a float among the operands, both are
    converted and divided as floats (a quotient out of range is an infinity).
    A zero divisor raises ZeroDivisionError, after the conversions. *)
Definition num_truediv (a b : num) : result float :=
  match a, b with
  | NInt x, NInt y =>
      if (y =? 0)%Z then Raise ZeroDivisionError
      else match float_div (float_exact x) (float_exact y) with
           | S754_infinity _ => Raise OverflowError
           | f => Ok f
           end
  | _, _ =>
      match num_float a with
      | Ok x =>
          match num_float b with
          | Ok y => if float_is_zero y then Raise ZeroDivisionError
                    else Ok (float_div x y)
          | Raise e => Raise e
          end
      | Raise e => Raise e
      end
  end.

Definition result_map {A B} (f : A -> B) (r : result A) : result B :=
  match r with Ok a => Ok (f a) | Raise e => Raise e end.

(** [a + b] where [b] is a number: every other left operand (also a string
    or a list) raises TypeError. *)
Definition py_add (a b : pyval) : result pyval :=
  match as_num a, as_num b with
  | Some x, Some y => result_map of_num (num_add x y)
  | _, _ => Raise TypeError
  end.

(** The largest [Py_ssize_t] (a 64-bit build). *)
Definition ssize_max : Z := 2 ^ 63 - 1.

Fixpoint string_repeat (k : nat) (s : string) : string :=
  match k with
  | O => ""
  | S k' => s +:+ string_repeat k' s
  end.

(** [seq * n] and [n * seq] for a [str] or a [list] and an int: the count
    must fit an index, a count below 1 gives the empty sequence, and the
    length of the result must fit an index too (OverflowError for a string,
    MemoryError for a list).  The memory of the machine is taken to hold
    every result that fits an index. *)
Definition py_repeat (a : pyval) (n : Z) : result pyval :=
  if ((n <? - ssize_max - 1) || (ssize_max <? n))%Z then Raise OverflowError
  else
    match a with
    | VStr s =>
        if (n <? 1)%Z then Ok (VStr "")
        else if (ssize_max `div` n <? Z.of_nat (String.length s))%Z then Raise OverflowError
        else Ok (VStr (string_repeat (Z.to_nat n) s))
    | VList l =>
        if (n <? 1)%Z then Ok (VList [])
        else if (ssize_max `div` n <? Z.of_nat (length l))%Z then Raise MemoryError
        else Ok (VList (concat (replicate (Z.to_nat n) l)))
    | _ => Raise TypeError
    end.

(** [a * b]: the product of two numbers, or a sequence repeated. *)
Definition py_mul (a b : pyval) : result pyval :=
  match as_num a, as_num b with
  | Some x, Some y => result_map of_num (num_mul x y)
  | None, Some (NInt n) => py_repeat a n
  | Some (NInt n), None => py_repeat b n
  | _, _ => Raise TypeError
  end.

(** [a / b]: true division, a float also for two ints. *)
Definition py_truediv (a b : pyval) : result pyval :=
  match as_num a, as_num b with
  | Some x, Some y => result_map VFloat (num_truediv x y)
  | _, _ => Raise TypeError
  end.

(** [z == v] for an int [z] *)
Definition py_eq_int (z : Z) (v : pyval) : bool :=
  match as_num v with
  | Some (NInt y) => (z =? y)%Z
  | Some (NFloat f) => float_eq_int f z
  | None => false
  end.

(** [operator.index(v)], as [range] applies it to its arguments. *)
Definition py_index (v : pyval) : result Z :=
  match v with
  | VInt z => Ok z
  | VBool b => Ok (Z.b2z b)
  | _ => Raise TypeError
  end.

(** [v[key]] for a string key: a dict looks the key up, nothing else in
    [pyval] accepts a string subscript. *)
Definition subscript (v : pyval) (key : string) : result pyval :=
  match v with
  | VDict d =>
      match d !! key with
      | Some x => Ok x
      | None => Raise (KeyError key)
      end
  | _ => Raise TypeError
  end.

(** [f(..., k1=..., **v)]: [v] must be a mapping and must not repeat a
    keyword already given. *)
Definition py_kwargs (given : list string) (v : pyval) : result (gmap string pyval) :=
  match v with
  | VDict d =>
      if existsb (fun k => bool_decide (is_Some (d !! k))) given
      then Raise TypeError
      else Ok d
  | _ => Raise TypeError
  end.

(** [str(z)] for an int, as an f-string formats it. *)
Definition py_str_int (z : Z) : string := pretty z.

(** ** [os.path.join] (posixpath), on two components *)

Fixpoint endswith_sep (s : string) : bool :=
  match s with
  | EmptyString => false
  | String c EmptyString => Ascii.eqb c "/"%char
  | String _ s' => endswith_sep s'
  end.

Definition os_path_join (a b : string) : string :=
  if String.prefix "/" b then b
  else if String.eqb a "" || endswith_sep a then a +:+ b
  else a +:+ "/" +:+ b.

(** [os.fspath] accepts [str] only among the values of [pyval]. *)
Definition py_path_join (a b : pyval) : result string :=
  match a, b with
  | VStr x, VStr y => Ok (os_path_join x y)
  | _, _ => Raise TypeError
  end.

(** ** Calls to the collaborators *)

Inductive event : Type :=
  | InitDistributedMode (ddp : pyval)
      (* misc.init_distributed_mode(config['ddp']) *)
  | TorchDevice (device : pyval)
  | ManualSeed (seed : pyval)
      (* torch.manual_seed(seed); np.random.seed(seed) *)
  | BuildDataset (dataset : pyval)
  | GetDataloader (is_distributed : pyval) (kwargs : gmap string pyval)
  | Makedirs (path : string)
  | NewSummaryWriter (log_dir : string)
  | BuildModel (model_name : string) (kwargs : gmap string pyval)
  | ModelToDevice
  | WrapDDP (gpu : pyval)
  | GetOptimizer (train : pyval)
  | NewScaler
  | LoadCheckpoint (resume : pyval)
  | SetEpoch (epoch : Z)
      (* data_loader_train.sampler.set_epoch(epoch) *)
  | TrainOneEpoch (epoch : Z) (log_writer : option string) (train : pyval)
  | SaveModel (path : string) (epoch : Z) (full : bool) (cfg : config)
      (* misc.save_model(config, path, epoch, model[, optimizer, loss_scaler]);
         [full] tells the six-argument call from the four-argument one *)
  | FlushWriter (log_dir : string)
      (* log_writer.flush() *)
  | AppendLine (path : string) (record : gmap string pyval)
      (* open(path, 'a').write(json.dumps(record) + '\n') *)
  | GetEncoder.
      (* model_without_ddp.encoder *)

(** ** Shared dictionaries

    A place of the configuration: [config[k]] followed by string keys
    (through dictionaries) and indices (through lists). *)
Inductive step : Type :=
  | Key (k : string)
  | Index (i : nat).

Definition place : Type := string * list step.

(** [alter_at f p v]: [v] with [f] applied to the dictionary at the end of
    the path [p]; [v] itself where the path does not lead to a dictionary. *)
Fixpoint alter_at (f : gmap string pyval -> gmap string pyval) (p : list step)
    (v : pyval) : pyval :=
  match p, v with
  | [], VDict d => VDict (f d)
  | Key k :: p', VDict d => VDict (alter (alter_at f p') k d)
  | Index i :: p', VList l => VList (alter (alter_at f p') i l)
  | _, _ => v
  end.

Definition alter_place (f : gmap string pyval -> gmap string pyval) (pl : place)
    (cfg : config) : config :=
  alter (alter_at f pl.2) pl.1 cfg.

(** What the collaborators answer. *)
Record env : Type := Env {
  get_rank : Z;                                  (* misc.get_rank() *)
  get_world_size : Z;                            (* misc.get_world_size() *)
  is_main_process : bool;                        (* misc.is_main_process() *)
  models : gset string;                          (* the names in models.__dict__ *)
  callable : string -> bool;                     (* callable(models.__dict__[name]) *)
  train_one_epoch : Z -> gmap string pyval;      (* the statistics of an epoch *)
  checkpoint_epoch : option Z;                   (* the epoch stored in the checkpoint
                                                    at config['resume'], if any *)
  train_aliases : list place;                    (* the places, other than config['train'],
                                                    where yaml.load put the dictionary
                                                    object that config['train'] is *)
}.

(** ** The monad of [main] *)

Record outcome (A : Type) : Type := Outcome {
  out_cfg : config;          (* the configuration dictionary afterwards *)
  out_trace : list event;    (* the calls made, oldest first *)
  out_res : result A;        (* the value returned or the exception raised *)
}.
Arguments Outcome {A} _ _ _.
Arguments out_cfg {A} _.
Arguments out_trace {A} _.
Arguments out_res {A} _.

Definition M (A : Type) : Type := config -> outcome A.

#[global] Instance M_ret : MRet M := fun A a cfg => Outcome cfg [] (Ok a).

#[global] Instance M_bind : MBind M := fun A B f m cfg =>
  let o := m cfg in
  match out_res o with
  | Ok a =>
      let o' := f a (out_cfg o) in
      Outcome (out_cfg o') (out_trace o ++ out_trace o') (out_res o')
  | Raise e => Outcome (out_cfg o) (out_trace o) (Raise e)
  end.

Definition raise {A} (e : exn) : M A := fun cfg => Outcome cfg [] (Raise e).

Definition lift {A} (r : result A) : M A := fun cfg => Outcome cfg [] r.

Definition emit (e : event) : M unit := fun cfg => Outcome cfg [e] (Ok tt).

(** the dictionary [config] itself, as an argument of a call *)
Definition get_config : M config := fun cfg => Outcome cfg [] (Ok cfg).

(** [config[key]] *)
Definition getitem (key : string) : M pyval :=
  fun cfg => Outcome cfg [] (subscript (VDict cfg) key).

(** [config[k1][k2]] *)
Definition getitem2 (k1 k2 : string) : M pyval :=
  v ← getitem k1; lift (subscript v k2).

(** [config[k1][k2] = x]: the dictionary object [config[k1]] is updated in
    place, so the new entry shows at [config[k1]] and at every other place
    [shared] where that object sits. *)
Definition setitem2 (shared : list place) (k1 k2 : string) (x : pyval) : M unit :=
  fun cfg =>
    match cfg !! k1 with
    | Some (VDict d) =>
        Outcome (foldr (alter_place (insert k2 x)) (<[k1 := VDict (<[k2 := x]> d)]> cfg) shared)
                [] (Ok tt)
    | Some _ => Outcome cfg [] (Raise TypeError)
    | None => Outcome cfg [] (Raise (KeyError k1))
    end.

(** [for e in es: body(e)], threading the binding of the loop variable:
    [None] while it is unbound. *)
Fixpoint for_each (es : list Z) (body : Z -> M unit) (bound : option Z) : M (option Z) :=
  match es with
  | [] => mret bound
  | e :: es' => body e;; for_each es' body (Some e)
  end.

(** [range(a, b)] *)
Definition py_range (a b : Z) : list Z := seqZ a (b - a).

(** [if output_dir:] on a local that is [None] or a string *)
Definition if_set (output_dir : option string) : option string :=
  match output_dir with
  | Some d => if String.eqb d "" then None else Some d
  | None => None
  end.

(** ** [parse] *)

(** The namespace [parser.parse_args()] returns: the five arguments the
    parser declares, in the order it declares them. *)
Module Args.
Record t : Type := Make {
  config_path : string;
  output_dir : string;
  exp_name : string;
  resume : string;
  start_epoch : Z;
}.
End Args.

(** [vars(args).items()] *)
Definition vars (args : Args.t) : list (string * pyval) :=
  [ ("config_path", VStr (Args.config_path args));
    ("output_dir", VStr (Args.output_dir args));
    ("exp_name", VStr (Args.exp_name args));
    ("resume", VStr (Args.resume args));
    ("start_epoch", VInt (Args.start_epoch args)) ].

(** [parse], from the parsed namespace and the dictionary [yaml.load]
    returned for the file at [args.config_path]. *)
Definition parse (args : Args.t) (loaded : config) : config :=
  foldl (fun (config : config) '(k, v) => if truthy v then <[k := v]> config else config)
        loaded (vars args).

(** ** [misc.load_model] *)

(** Modelled from the spec: [util/misc.py] is not part of the sources.  The
    spec (4.3) gives [load(config, model, optimizer, scaler) -> resumed epoch
    or none] as: if a resume path is configured and non-empty, restore the
    state from the snapshot, otherwise do nothing; the starting epoch is the
    explicit configuration value, so the configuration is left as it is. *)
Definition load_model (E : env) : M (option Z) :=
  config ← get_config;
  match config !! "resume" with
  | Some v =>
      if truthy v then emit (LoadCheckpoint v);; mret (checkpoint_epoch E)
      else mret None
  | None => mret None
  end.

(** ** [main] *)

Section Main.
Context (E : env).

(** [model_name in models.__dict__]: a list or a dict is unhashable, any
    other value that is not a string is not a key of a module namespace. *)
Definition py_in_models (model_name : pyval) : result (option string) :=
  match model_name with
  | VStr s => Ok (if decide (s ∈ models E) then Some s else None)
  | VList _ | VDict _ => Raise TypeError
  | _ => Ok None
  end.

(** lines 97-121: distributed mode, device, seed, dataset, data loader *)
Definition init_run : M unit :=
  ddp ← getitem "ddp";
  emit (InitDistributedMode ddp);;
  device ← getitem "device";
  emit (TorchDevice device);;
  s ← getitem "seed";
  seed ← lift (py_add s (VInt (get_rank E)));
  emit (ManualSeed seed);;
  dataset ← getitem "dataset";
  emit (BuildDataset dataset);;
  dist ← getitem2 "ddp" "distributed";
  dl ← getitem "dataloader";
  kwargs ← lift (py_kwargs ["is_distributed"; "mode"] dl);
  emit (GetDataloader dist kwargs).

(** lines 124-130: the locals [output_dir] and [log_writer] *)
Definition make_output_dir : M (option string * option string) :=
  cond ← (if is_main_process E
          then v ← getitem "output_dir"; mret (truthy v)
          else mret false);
  if (cond : bool) then
    a ← getitem "output_dir";
    b ← getitem "exp_name";
    output_dir ← lift (py_path_join a b);
    emit (Makedirs output_dir);;
    emit (NewSummaryWriter output_dir);;
    mret (Some output_dir, Some output_dir)
  else mret (None, None).

(** lines 133-144: the model.  Every name of the namespace passes the
    membership test, also one that is no model; calling an entry that is not
    callable (['__name__'], a submodule) raises TypeError. *)
Definition define_model : M unit :=
  model_name ← getitem "model_name";
  found ← lift (py_in_models model_name);
  match found with
  | Some name =>
      m ← getitem "model";
      kwargs ← lift (py_kwargs [] m);
      if callable E name then
        emit (BuildModel name kwargs);;
        emit ModelToDevice
      else raise TypeError
  | None => raise (ValueError_unsupported_model model_name)
  end.

(** lines 147-151: the effective batch size and the learning rate;
    returns [eff_batch_size] *)
Definition derive_lr : M pyval :=
  bs ← getitem2 "dataloader" "batch_size";
  accum ← getitem2 "train" "accum_iter";
  x ← lift (py_mul bs accum);
  eff_batch_size ← lift (py_mul x (VInt (get_world_size E)));
  lr ← getitem2 "train" "lr";
  (if is_none lr then
     blr ← getitem2 "train" "blr";
     y ← lift (py_mul blr eff_batch_size);
     z ← lift (py_truediv y (VInt 256));
     setitem2 (train_aliases E) "train" "lr" z
   else mret tt);;
  mret eff_batch_size.

(** lines 154-157: what the four [print]s evaluate *)
Definition report_lr (eff_batch_size : pyval) : M unit :=
  lr ← getitem2 "train" "lr";
  y ← lift (py_mul lr (VInt 256));
  _ ← lift (py_truediv y eff_batch_size);
  _ ← getitem2 "train" "lr";
  _ ← getitem2 "train" "accum_iter";
  mret tt.

(** lines 160-175: DDP wrapper, optimizer, loss scaler, checkpoint load *)
Definition prepare_training : M unit :=
  dist ← getitem2 "ddp" "distributed";
  (if truthy dist
   then gpu ← getitem2 "ddp" "gpu"; emit (WrapDDP gpu)
   else mret tt);;
  train ← getitem "train";
  emit (GetOptimizer train);;
  emit NewScaler;;
  _ ← load_model E;
  _ ← getitem2 "train" "epochs";
  mret tt.

(** lines 97-130, everything before the model is defined *)
Definition before_model : M (option string * option string) :=
  init_run;;
  make_output_dir.

(** lines 97-175, everything before the epoch loop *)
Definition setup : M (option string * option string) :=
  locals ← before_model;
  define_model;;
  eff_batch_size ← derive_lr;
  report_lr eff_batch_size;;
  prepare_training;;
  mret locals.

(** line 195: [output_dir and (epoch % 20 == 0 or epoch + 1 == epochs)];
    gives the directory when a checkpoint is due *)
Definition checkpoint_due (output_dir : option string) (epoch : Z) : M (option string) :=
  match if_set output_dir with
  | Some d =>
      if (epoch `mod` 20 =? 0)%Z then mret (Some d)
      else
        epochs ← getitem2 "train" "epochs";
        mret (if py_eq_int (epoch + 1) epochs then Some d else None)
  | None => mret None
  end.

(** lines 204-206 *)
Definition log_stats (train_stats : gmap string pyval) (epoch : Z) : gmap string pyval :=
  <["epoch" := VInt epoch]> (kmap (String.append "train_") train_stats).

(** lines 182-213: one turn of the epoch loop *)
Definition epoch_body (output_dir log_writer : option string) (epoch : Z) : M unit :=
  dist ← getitem2 "ddp" "distributed";
  (if truthy dist then emit (SetEpoch epoch) else mret tt);;
  train ← getitem "train";
  emit (TrainOneEpoch epoch log_writer train);;
  let train_stats := train_one_epoch E epoch in
  due ← checkpoint_due output_dir epoch;
  match due with
  | Some d =>
      config ← get_config;
      emit (SaveModel (os_path_join d ("checkpoint-" +:+ py_str_int epoch +:+ ".pth"))
                      epoch true config)
  | None => mret tt
  end;;
  match if_set output_dir with
  | Some d =>
      if is_main_process E then
        match log_writer with
        | Some w => emit (FlushWriter w)
        | None => mret tt
        end;;
        emit (AppendLine (os_path_join d "log.txt") (log_stats train_stats epoch))
      else mret tt
  | None => mret tt
  end.

(** lines 221-227: the encoder; [epoch] is the loop variable, unbound when
    the loop body never ran *)
Definition save_encoder (output_dir : option string) (epoch : option Z) : M unit :=
  emit GetEncoder;;
  match if_set output_dir with
  | Some d =>
      config ← get_config;
      match epoch with
      | Some e => emit (SaveModel (os_path_join d "encoder_fft.pth") e false config)
      | None => raise (UnboundLocalError "epoch")
      end
  | None => mret tt
  end.

(** lines 181-227: the epoch loop and the extraction *)
Definition run_epochs (locals : option string * option string) : M unit :=
  let '(output_dir, log_writer) := locals in
  a ← getitem "start_epoch";
  b ← getitem2 "train" "epochs";
  start ← lift (py_index a);
  stop ← lift (py_index b);
  epoch ← for_each (py_range start stop) (epoch_body output_dir log_writer) None;
  save_encoder output_dir epoch.

Definition main : M unit :=
  locals ← setup;
  run_epochs locals.

End Main.

(** ** Observations on a run *)

(** the full checkpoints saved: path and epoch *)
Definition checkpoints (tr : list event) : list (string * Z) :=
  omap (fun e => match e with
                 | SaveModel p ep true _ => Some (p, ep)
                 | _ => None
                 end) tr.

(** the records appended to a log file *)
Definition log_lines (tr : list event) : list (string * gmap string pyval) :=
  omap (fun e => match e with
                 | AppendLine p r => Some (p, r)
                 | _ => None
                 end) tr.

(** the epochs trained, in order *)
Definition trained_epochs (tr : list event) : list Z :=
  omap (fun e => match e with
                 | TrainOneEpoch ep _ _ => Some ep
                 | _ => None
                 end) tr.

(** a side effect reserved to the main process: a directory or a monitoring
    stream created, a checkpoint saved, the stream flushed, a log line
    appended, or an epoch run with a monitoring stream to write to *)
Definition main_only (e : event) : bool :=
  match e with
  | Makedirs _ | NewSummaryWriter _ | SaveModel _ _ _ _
  | FlushWriter _ | AppendLine _ _ => true
  | TrainOneEpoch _ (Some _) _ => true
  | _ => false
  end.

(** ** A test configuration *)

Definition cfg_train (lr : pyval) (epochs : Z) : pyval :=
  VDict (list_to_map [("accum_iter", VInt 2); ("lr", lr); ("blr", VFloat (float_lit 1 1000));
                      ("epochs", VInt epochs)]).

(** [0.001 * 384 / 256] in binary64: [0x1.89374bc6a7efap-10] *)
Definition lr_0015 : float := S754_finite false 6917529027641082 (-62).

Definition cfg_example (model_name output_dir : string) (lr : pyval) (start_epoch epochs : Z) : config :=
  list_to_map
    [ ("ddp", VDict (list_to_map [("distributed", VBool false)]));
      ("device", VStr "cpu");
      ("seed", VInt 0);
      ("dataset", VDict ∅);
      ("dataloader", VDict (list_to_map [("batch_size", VInt 64)]));
      ("output_dir", VStr output_dir);
      ("exp_name", VStr "run");
      ("model_name", VStr model_name);
      ("model", VDict ∅);
      ("train", cfg_train lr epochs);
      ("resume", VStr "");
      ("start_epoch", VInt start_epoch) ].

Definition env_example (rank : Z) : env :=
  {| get_rank := rank;
     get_world_size := 3;
     is_main_process := (rank =? 0)%Z;
     models := {[ "st_mem_vit_base" ]};
     callable := fun _ => true;
     train_one_epoch := fun e => {[ "loss" := VFloat (float_lit 1 2) ]};
     checkpoint_epoch := Some 7%Z;
     train_aliases := [] |}.

(** The [models] namespace as Python has it: beside the model constructors,
    [models.__dict__] holds the attributes of the module, which are not
    callable. *)
Definition env_namespace : env :=
  {| get_rank := 0;
     get_world_size := 1;
     is_main_process := true;
     models := {[ "st_mem_vit_base"; "__name__" ]};
     callable := fun name => String.eqb name "st_mem_vit_base";
     train_one_epoch := fun e => ∅;
     checkpoint_epoch := None;
     train_aliases := [] |}.

(** A configuration with the learning rate unset, for the derivation step. *)
Definition cfg_lr (blr : pyval) (batch_size accum_iter : Z) : config :=
  list_to_map
    [ ("dataloader", VDict (list_to_map [("batch_size", VInt batch_size)]));
      ("train", VDict (list_to_map [("accum_iter", VInt accum_iter); ("lr", VNone);
                                    ("blr", blr)])) ].

(** The same run on another topology. *)
Definition with_world_size (n : Z) (E : env) : env :=
  {| get_rank := get_rank E;
     get_world_size := n;
     is_main_process := is_main_process E;
     models := models E;
     callable := callable E;
     train_one_epoch := train_one_epoch E;
     checkpoint_epoch := checkpoint_epoch E;
     train_aliases := train_aliases E |}.

(** The same run resuming from a checkpoint that stores another epoch. *)
Definition with_checkpoint_epoch (ce : option Z) (E : env) : env :=
  {| get_rank := get_rank E;
     get_world_size := get_world_size E;
     is_main_process := is_main_process E;
     models := models E;
     callable := callable E;
     train_one_epoch := train_one_epoch E;
     checkpoint_epoch := ce;
     train_aliases := train_aliases E |}.

(** A configuration file that anchors the [train] section and aliases it
    under [backup]: both keys hold the same dictionary object. *)
Definition env_shared : env :=
  {| get_rank := 0;
     get_world_size := 3;
     is_main_process := true;
     models := {[ "st_mem_vit_base" ]};
     callable := fun _ => true;
     train_one_epoch := fun e => {[ "loss" := VFloat (float_lit 1 2) ]};
     checkpoint_epoch := None;
     train_aliases := [("backup", [])] |}.

Definition cfg_shared : config :=
  <["backup" := cfg_train VNone 2]> (cfg_example "st_mem_vit_base" "out" VNone 0 2).

(** ** Vocabulary of the statements *)

(** the encoder artifacts saved: path and epoch *)
Definition encoder_saves (tr : list event) : list (string * Z) :=
  omap (fun e => match e with
                 | SaveModel p ep false _ => Some (p, ep)
                 | _ => None
                 end) tr.

(** the flushes of the monitoring stream and the appends to the log *)
Definition log_writes (tr : list event) : list event :=
  omap (fun e => match e with
                 | FlushWriter _ | AppendLine _ _ => Some e
                 | _ => None
                 end) tr.

(** an event of the epoch loop or of the extraction after it *)
Definition in_loop (e : event) : bool :=
  match e with
  | SetEpoch _ | TrainOneEpoch _ _ _ | SaveModel _ _ _ _
  | FlushWriter _ | AppendLine _ _ | GetEncoder => true
  | _ => false
  end.

(** an event of the steps before the loop that every process runs alike *)
Definition common_event (e : event) : bool :=
  match e with
  | InitDistributedMode _ | TorchDevice _ | ManualSeed _ | BuildDataset _
  | GetDataloader _ _ | BuildModel _ _ | ModelToDevice | WrapDDP _
  | GetOptimizer _ | NewScaler | LoadCheckpoint _ => true
  | _ => false
  end.

(** the model, the optimizer, the loss scaler, and all that follows them *)
Definition from_model_on (e : event) : bool :=
  match e with
  | BuildModel _ _ | ModelToDevice | WrapDDP _ | GetOptimizer _ | NewScaler
  | LoadCheckpoint _ => true
  | _ => in_loop e
  end.

(** A supported model identifier: the name of a callable entry of the
    [models] namespace. *)
Definition supported (E : env) (model_name : pyval) : Prop :=
  exists s, model_name = VStr s /\ s ∈ models E /\ callable E s = true.

(** [flush_log_paired pending tr]: in [tr] every [log_writer.flush()] is
    immediately followed by the append of a log line and every append is
    immediately preceded by a flush; [pending] tells that a flush has just
    happened and its line is due. *)
Fixpoint flush_log_paired (pending : bool) (tr : list event) : bool :=
  match tr with
  | [] => negb pending
  | FlushWriter _ :: tr' => negb pending && flush_log_paired true tr'
  | AppendLine _ _ :: tr' => pending && flush_log_paired false tr'
  | _ :: tr' => negb pending && flush_log_paired false tr'
  end.

(** [config[k1][k2]] evaluates to [v] *)
Definition reads (cfg : config) (k1 k2 : string) (v : pyval) : Prop :=
  out_res (getitem2 k1 k2 cfg) = Ok v.

(** [config['train']['lr']] after the derivation step *)
Definition derived_lr (E : env) (cfg : config) : result pyval :=
  out_res (getitem2 "train" "lr" (out_cfg (derive_lr E cfg))).

(** A configuration whose learning rate is unset; [bs], [accum] and [blr]
    are its batch size, its accumulation factor and its base learning rate. *)
Definition lr_unset (cfg : config) (bs accum blr : pyval) : Prop :=
  reads cfg "dataloader" "batch_size" bs /\
  reads cfg "train" "accum_iter" accum /\
  reads cfg "train" "blr" blr /\
  reads cfg "train" "lr" VNone.

(** The configuration after [config['train']['lr'] = v], with the
    dictionary object of [config['train']] shared at the places [shared]. *)
Definition write_lr (shared : list place) (v : pyval) (tr : gmap string pyval)
    (cfg : config) : config :=
  foldr (alter_place (insert "lr" v)) (<["train" := VDict (<["lr" := v]> tr)]> cfg) shared.

(** The one write of [main]: nothing, or [config['train']['lr'] = v] on a
    configuration where it was [None]. *)
Definition lr_written (E : env) (cfg cfg' : config) : Prop :=
  cfg' = cfg \/
  exists tr v,
    cfg !! "train" = Some (VDict tr) /\ tr !! "lr" = Some VNone /\
    cfg' = write_lr (train_aliases E) v tr cfg.

(** [kept n v v']: down to depth [n], [v'] has the entries of [v] with the
    same values, up to the contents of nested dictionaries and lists and up
    to the key ['lr'] of a dictionary. *)
Definition scalar (v : pyval) : bool :=
  match v with VList _ | VDict _ => false | _ => true end.

Definition same_kind (v v' : pyval) : Prop :=
  match v, v' with
  | VDict _, VDict _ | VList _, VList _ => True
  | _, _ => v = v'
  end.

Fixpoint kept (n : nat) (v v' : pyval) : Prop :=
  same_kind v v' /\
  match n with
  | O => True
  | S n' =>
      forall d d', v = VDict d -> v' = VDict d' ->
        forall k, k <> "lr" -> option_Forall2 (kept n') (d !! k) (d' !! k)
  end.

(** The double of a float: the same mantissa at the next exponent, the
    infinity where that is out of range; zero, the infinities and NaN are
    their own doubles. *)
Definition float_twice (f : float) : float :=
  match f with
  | S754_finite s m e =>
      if (e + 1 <=? 1024 - 53)%Z then S754_finite s m (e + 1) else S754_infinity s
  | _ => f
  end.

(** The exact value of a float, where it is finite. *)
Definition float_Q (f : float) : option Q :=
  match f with
  | S754_zero _ => Some 0%Q
  | S754_finite s m e =>
      Some (inject_Z (if s then Zneg m else Zpos m) * Qpower 2 e)%Q
  | _ => None
  end.

(** The expression of line 147, [batch_size * accum_iter * world_size]. *)
Definition eff_batch (bs accum world_size : pyval) : result pyval :=
  match py_mul bs accum with
  | Ok x => py_mul x world_size
  | Raise e => Raise e
  end.

(** The expression of line 151, [blr * eff_batch_size / 256]. *)
Definition lr_of (blr eff_batch_size : pyval) : result pyval :=
  match py_mul blr eff_batch_size with
  | Ok y => py_truediv y (VInt 256)
  | Raise e => Raise e
  end.

(** The scaling rule as the specification words it:
    [blr * (batch_size * accum_iter * world_size) / 256]. *)
Definition scaled_lr (blr bs accum world_size : pyval) : result pyval :=
  match eff_batch bs accum world_size with
  | Ok eff => lr_of blr eff
  | Raise e => Raise e
  end.

(** the flushes of the monitoring stream and the lines appended to the log,
    counted *)
Fixpoint flushes (tr : list event) : nat :=
  match tr with
  | [] => 0
  | FlushWriter _ :: tr' => S (flushes tr')
  | _ :: tr' => flushes tr'
  end.

Fixpoint appends (tr : list event) : nat :=
  match tr with
  | [] => 0
  | AppendLine _ _ :: tr' => S (appends tr')
  | _ :: tr' => appends tr'
  end.

(** The calls of one turn of the epoch loop, on a configuration where
    [config['ddp']['distributed']], [config['train']] and
    [config['train']['epochs']] evaluate to [dist], [train] and [epochs]. *)
Definition epoch_events (E : env) (cfg : config) (dist train epochs : pyval)
    (output_dir log_writer : option string) (epoch : Z) : list event :=
  (if truthy dist then [SetEpoch epoch] else []) ++
  [TrainOneEpoch epoch log_writer train] ++
  match if_set output_dir with
  | Some d =>
      (if (epoch `mod` 20 =? 0)%Z || py_eq_int (epoch + 1) epochs
       then [SaveModel (os_path_join d ("checkpoint-" +:+ py_str_int epoch +:+ ".pth"))
                       epoch true cfg]
       else []) ++
      (if is_main_process E
       then match log_writer with Some w => [FlushWriter w] | None => [] end ++
            [AppendLine (os_path_join d "log.txt")
                        (log_stats (train_one_epoch E epoch) epoch)]
       else [])
  | None => []
  end.

(** the binding of the loop variable after [for e in es] *)
Definition loop_variable (es : list Z) (bound : option Z) : option Z :=
  match last es with
  | Some e => Some e
  | None => bound
  end.

(** ** A program logic for traces and results

    [holds P Q m]: whatever the configuration, the trace of [m] satisfies
    [P], and a value [m] returns satisfies [Q]. *)
Definition holds (P : list event -> Prop) {A} (Q : A -> Prop) (m : M A) : Prop :=
  forall cfg, P (out_trace (m cfg)) /\ forall a, out_res (m cfg) = Ok a -> Q a.

(** [changes R m]: [m] takes a configuration to one related to it by [R],
    also when it raises. *)
Definition changes (R : config -> config -> Prop) {A} (m : M A) : Prop :=
  forall cfg, R cfg (out_cfg (m cfg)).

(** [m] leaves the configuration as it is *)
Definition fixed {A} (m : M A) : Prop := changes eq m.

Definition silent (tr : list event) : Prop := Forall (fun e => main_only e = false) tr.

Definition paired (tr : list event) : Prop := flush_log_paired false tr = true.

Definition before_loop (tr : list event) : Prop := Forall (fun e => in_loop e = false) tr.

(** ** Further observations *)

(** the epochs announced to the sampler of the data loader *)
Definition set_epochs (tr : list event) : list Z :=
  omap (fun e => match e with
                 | SetEpoch ep => Some ep
                 | _ => None
                 end) tr.

(** the [config['train']] handed to [train_one_epoch], call by call *)
Definition epoch_configs (tr : list event) : list pyval :=
  omap (fun e => match e with
                 | TrainOneEpoch _ _ train => Some train
                 | _ => None
                 end) tr.

(** lines 235-237: [config = parse(); main(config)] *)
Definition program (E : env) (args : Args.t) (loaded : config) : outcome unit :=
  main E (parse args loaded).

(** the top-level keys [main] subscripts [config] with on every path that
    reaches its end *)
Definition required_keys : list string :=
  ["ddp"; "device"; "seed"; "dataset"; "dataloader"; "model_name"; "model";
   "train"; "start_epoch"].

(** the name of the checkpoint of an epoch (line 197) *)
Definition checkpoint_name (epoch : Z) : string :=
  "checkpoint-" +:+ py_str_int epoch +:+ ".pth".

(** * Verification *)

(** ** Running the monad *)

Lemma run_bind {A B} (m : M A) (f : A -> M B) cfg :
  (m ≫= f) cfg =
  match out_res (m cfg) with
  | Ok a =>
      Outcome (out_cfg (f a (out_cfg (m cfg))))
              (out_trace (m cfg) ++ out_trace (f a (out_cfg (m cfg))))
              (out_res (f a (out_cfg (m cfg))))
  | Raise e => Outcome (out_cfg (m cfg)) (out_trace (m cfg)) (Raise e)
  end.
Proof. reflexivity. Qed.

Lemma run_bind_Ok {A B} (m : M A) (f : A -> M B) cfg c1 t1 a :
  m cfg = Outcome c1 t1 (Ok a) ->
  (m ≫= f) cfg =
  Outcome (out_cfg (f a c1)) (t1 ++ out_trace (f a c1)) (out_res (f a c1)).
Proof. intros H. rewrite run_bind, H. reflexivity. Qed.

Lemma run_bind_Raise {A B} (m : M A) (f : A -> M B) cfg c1 t1 e :
  m cfg = Outcome c1 t1 (Raise e) ->
  (m ≫= f) cfg = Outcome c1 t1 (Raise e).
Proof. intros H. rewrite run_bind, H. reflexivity. Qed.

Lemma outcome_eta {A} (o : outcome A) :
  o = Outcome (out_cfg o) (out_trace o) (out_res o).
Proof. destruct o; reflexivity. Qed.

(** A bind that returns went through both of its halves. *)
Lemma bind_Ok_inv {A B} (m : M A) (f : A -> M B) cfg cfg' tr b :
  (m ≫= f) cfg = Outcome cfg' tr (Ok b) ->
  exists a c1 t1 t2,
    m cfg = Outcome c1 t1 (Ok a) /\ f a c1 = Outcome cfg' t2 (Ok b) /\ tr = t1 ++ t2.
Proof.
  rewrite run_bind. destruct (m cfg) as [c1 t1 [a|e]]; simpl; [|discriminate].
  intros H. exists a, c1, t1, (out_trace (f a c1)).
  rewrite (outcome_eta (f a c1)). inversion H; subst. auto.
Qed.

Lemma getitem_run k cfg : getitem k cfg = Outcome cfg [] (subscript (VDict cfg) k).
Proof. reflexivity. Qed.

Lemma getitem2_run k1 k2 cfg :
  getitem2 k1 k2 cfg =
  Outcome cfg [] (match cfg !! k1 with
                  | Some v => subscript v k2
                  | None => Raise (KeyError k1)
                  end).
Proof.
  unfold getitem2. rewrite run_bind, getitem_run. simpl.
  destruct (cfg !! k1); reflexivity.
Qed.

Lemma lift_run {A} (r : result A) cfg : lift r cfg = Outcome cfg [] r.
Proof. reflexivity. Qed.

Lemma getitem_Some k cfg v : cfg !! k = Some v -> getitem k cfg = Outcome cfg [] (Ok v).
Proof. intros H. rewrite getitem_run. simpl. rewrite H. reflexivity. Qed.

Lemma getitem_None k cfg :
  cfg !! k = None -> getitem k cfg = Outcome cfg [] (Raise (KeyError k)).
Proof. intros H. rewrite getitem_run. simpl. rewrite H. reflexivity. Qed.

Lemma reads_inv cfg k1 k2 v :
  reads cfg k1 k2 v <-> exists d, cfg !! k1 = Some (VDict d) /\ d !! k2 = Some v.
Proof.
  unfold reads. rewrite getitem2_run. simpl. split.
  - destruct (cfg !! k1) as [[]|]; simpl; try discriminate.
    destruct (d !! k2) eqn:Hd; [|discriminate].
    intros [= <-]. eauto.
  - intros (d & -> & Hd). simpl. rewrite Hd. reflexivity.
Qed.

Lemma reads_run cfg k1 k2 v :
  reads cfg k1 k2 v -> getitem2 k1 k2 cfg = Outcome cfg [] (Ok v).
Proof. unfold reads. rewrite getitem2_run. simpl. intros ->. reflexivity. Qed.

(** What the returning run of a primitive tells. *)
Lemma getitem_Ok_inv k cfg c t v :
  getitem k cfg = Outcome c t (Ok v) -> c = cfg /\ t = [] /\ cfg !! k = Some v.
Proof.
  rewrite getitem_run. simpl. destruct (cfg !! k); [|discriminate].
  intros [= <- <- <-]. auto.
Qed.

Lemma getitem2_Ok_inv k1 k2 cfg c t v :
  getitem2 k1 k2 cfg = Outcome c t (Ok v) -> c = cfg /\ t = [] /\ reads cfg k1 k2 v.
Proof.
  intros H. unfold reads. rewrite H. rewrite getitem2_run in H.
  injection H as <- <- _. auto.
Qed.

Lemma lift_Ok_inv {A} (r : result A) cfg c t a :
  lift r cfg = Outcome c t (Ok a) -> c = cfg /\ t = [] /\ r = Ok a.
Proof. intros [= <- <- ->]. auto. Qed.

Lemma emit_Ok_inv e cfg c t u :
  emit e cfg = Outcome c t (Ok u) -> c = cfg /\ t = [e].
Proof. intros [= <- <-]. auto. Qed.

Lemma ret_Ok_inv {A} (a : A) cfg c t b :
  (mret a : M A) cfg = Outcome c t (Ok b) -> c = cfg /\ t = [] /\ a = b.
Proof. intros [= <- <- <-]. auto. Qed.

(** Takes a returning run apart, bind by bind. *)
Ltac inv_run :=
  repeat match goal with
    | H : (_ ≫= _) _ = Outcome _ _ (Ok _) |- _ =>
        apply bind_Ok_inv in H as (? & ? & ? & ? & ? & H & ->)
    | H : getitem2 _ _ _ = Outcome _ _ (Ok _) |- _ =>
        apply getitem2_Ok_inv in H as (-> & -> & H)
    | H : getitem _ _ = Outcome _ _ (Ok _) |- _ =>
        apply getitem_Ok_inv in H as (-> & -> & H)
    | H : lift _ _ = Outcome _ _ (Ok _) |- _ =>
        apply lift_Ok_inv in H as (-> & -> & H)
    | H : emit _ _ = Outcome _ _ (Ok _) |- _ =>
        apply emit_Ok_inv in H as (-> & ->)
    | H : mret _ _ = Outcome _ _ (Ok _) |- _ =>
        apply ret_Ok_inv in H as (-> & -> & H)
    end.

(** ** Rules of the trace logic *)

Section Logic.
Context (P : list event -> Prop).
Hypothesis P_nil : P [].
Hypothesis P_app : forall t1 t2, P t1 -> P t2 -> P (t1 ++ t2).

Lemma holds_ret {A} (Q : A -> Prop) (a : A) : Q a -> holds P Q (mret a).
Proof. intros H cfg; split; [exact P_nil|]. simpl. intros a' [= <-]. exact H. Qed.

Lemma holds_bind {A B} (Q : A -> Prop) (R : B -> Prop) (m : M A) (f : A -> M B) :
  holds P Q m -> (forall a, Q a -> holds P R (f a)) -> holds P R (m ≫= f).
Proof.
  intros Hm Hf cfg. rewrite run_bind.
  destruct (Hm cfg) as [Ht Hq].
  destruct (out_res (m cfg)) as [a|e] eqn:Hr; simpl.
  - destruct (Hf a (Hq a eq_refl) (out_cfg (m cfg))) as [Ht' Hq'].
    split; [apply P_app; assumption | exact Hq'].
  - split; [exact Ht | discriminate].
Qed.

Lemma holds_trace {A} (m : M A) :
  (forall cfg, P (out_trace (m cfg))) -> holds P (fun _ => True) m.
Proof. intros H cfg. split; [apply H | trivial]. Qed.

Lemma holds_quiet {A} (m : M A) :
  (forall cfg, out_trace (m cfg) = []) -> holds P (fun _ => True) m.
Proof. intros H. apply holds_trace. intros cfg. rewrite H. exact P_nil. Qed.

Lemma holds_raise {A} (Q : A -> Prop) e : holds P Q (raise e).
Proof. intros cfg; split; [exact P_nil | discriminate]. Qed.

Lemma holds_lift {A} (r : result A) : holds P (fun _ => True) (lift r).
Proof. apply holds_quiet; reflexivity. Qed.

Lemma holds_getitem k : holds P (fun _ => True) (getitem k).
Proof. apply holds_quiet; reflexivity. Qed.

Lemma holds_get_config : holds P (fun _ => True) get_config.
Proof. apply holds_quiet; reflexivity. Qed.

Lemma holds_getitem2 k1 k2 : holds P (fun _ => True) (getitem2 k1 k2).
Proof. apply holds_quiet. intros cfg. rewrite getitem2_run. reflexivity. Qed.

Lemma holds_setitem2 sh k1 k2 x : holds P (fun _ => True) (setitem2 sh k1 k2 x).
Proof.
  apply holds_quiet. intros cfg. unfold setitem2.
  destruct (cfg !! k1) as [[]|]; reflexivity.
Qed.

Lemma holds_emit e : P [e] -> holds P (fun _ => True) (emit e).
Proof. intros H. apply holds_trace. intros cfg. exact H. Qed.

Lemma holds_for_each es body bound :
  (forall e, holds P (fun _ => True) (body e)) ->
  holds P (fun _ => True) (for_each es body bound).
Proof.
  intros Hb. revert bound.
  induction es as [|e es IH]; intros bound; simpl.
  - apply holds_ret; trivial.
  - eapply holds_bind; [apply Hb | intros; apply IH].
Qed.
End Logic.

(** Structural proof of a [holds] goal whose postcondition is trivial;
    [P_one] gives the events that may be emitted. *)
Ltac holds_auto P_nil P_app P_one :=
  repeat first
    [ apply (holds_getitem2 _ P_nil)
    | apply (holds_getitem _ P_nil)
    | apply (holds_lift _ P_nil)
    | apply (holds_get_config _ P_nil)
    | apply (holds_setitem2 _ P_nil)
    | apply (holds_raise _ P_nil)
    | apply (holds_ret _ P_nil); exact I
    | apply holds_emit; apply P_one; reflexivity
    | eapply (holds_bind _ P_app (fun _ => True)); [ | intros ? _ ]
    | match goal with
      | |- holds _ _ (if ?b then _ else _) => destruct b
      | |- holds _ _ (match ?x with _ => _ end) => destruct x
      end ].

(** ** The steps of [main] that every process runs alike *)

Section Phases.
Context (P : list event -> Prop).
Hypothesis P_nil : P [].
Hypothesis P_app : forall t1 t2, P t1 -> P t2 -> P (t1 ++ t2).
Hypothesis P_one : forall e, common_event e = true -> P [e].
Context (E : env).

Lemma holds_load_model : holds P (fun _ => True) (load_model E).
Proof. unfold load_model. holds_auto P_nil P_app P_one. Qed.

Lemma holds_init_run : holds P (fun _ => True) (init_run E).
Proof. unfold init_run. holds_auto P_nil P_app P_one. Qed.

Lemma holds_define_model : holds P (fun _ => True) (define_model E).
Proof. unfold define_model. holds_auto P_nil P_app P_one. Qed.

Lemma holds_derive_lr : holds P (fun _ => True) (derive_lr E).
Proof. unfold derive_lr. holds_auto P_nil P_app P_one. Qed.

Lemma holds_report_lr eff : holds P (fun _ => True) (report_lr eff).
Proof. unfold report_lr. holds_auto P_nil P_app P_one. Qed.

Lemma holds_prepare_training : holds P (fun _ => True) (prepare_training E).
Proof.
  unfold prepare_training.
  eapply (holds_bind _ P_app (fun _ => True)); [holds_auto P_nil P_app P_one | intros dist _].
  eapply (holds_bind _ P_app (fun _ => True)); [holds_auto P_nil P_app P_one | intros _ _].
  eapply (holds_bind _ P_app (fun _ => True)); [holds_auto P_nil P_app P_one | intros train _].
  eapply (holds_bind _ P_app (fun _ => True)); [holds_auto P_nil P_app P_one | intros _ _].
  eapply (holds_bind _ P_app (fun _ => True)); [holds_auto P_nil P_app P_one | intros _ _].
  eapply (holds_bind _ P_app (fun _ => True)); [apply holds_load_model | intros _ _].
  holds_auto P_nil P_app P_one.
Qed.

(** [setup], from what holds of the step that depends on the process. *)
Lemma holds_setup (I : option string * option string -> Prop) :
  holds P I (make_output_dir E) -> holds P I (setup E).
Proof.
  intros Hdir. unfold setup, before_model.
  eapply (holds_bind _ P_app I).
  { eapply (holds_bind _ P_app (fun _ => True)); [apply holds_init_run | intros _ _].
    exact Hdir. }
  intros L HL.
  eapply (holds_bind _ P_app (fun _ => True)); [apply holds_define_model | intros _ _].
  eapply (holds_bind _ P_app (fun _ => True)); [apply holds_derive_lr | intros eff _].
  eapply (holds_bind _ P_app (fun _ => True)); [apply holds_report_lr | intros _ _].
  eapply (holds_bind _ P_app (fun _ => True)); [apply holds_prepare_training | intros _ _].
  apply (holds_ret _ P_nil). exact HL.
Qed.

(** [main], from what holds of the three places where the process
    matters: the output directory, the turns of the loop, the encoder. *)
Lemma holds_main (I : option string * option string -> Prop) :
  holds P I (make_output_dir E) ->
  (forall od lw e, I (od, lw) -> holds P (fun _ => True) (epoch_body E od lw e)) ->
  (forall od lw ep, I (od, lw) -> holds P (fun _ => True) (save_encoder od ep)) ->
  holds P (fun _ => True) (main E).
Proof.
  intros Hdir Hbody Henc. unfold main.
  eapply (holds_bind _ P_app I); [apply holds_setup, Hdir|].
  intros [od lw] HL. unfold run_epochs.
  eapply (holds_bind _ P_app (fun _ => True)); [apply (holds_getitem _ P_nil) | intros a _].
  eapply (holds_bind _ P_app (fun _ => True)); [apply (holds_getitem2 _ P_nil) | intros b _].
  eapply (holds_bind _ P_app (fun _ => True)); [apply (holds_lift _ P_nil) | intros start _].
  eapply (holds_bind _ P_app (fun _ => True)); [apply (holds_lift _ P_nil) | intros stop _].
  eapply (holds_bind _ P_app (fun _ => True)).
  - apply (holds_for_each _ P_nil P_app). intros e. apply Hbody. exact HL.
  - intros ep _. apply Henc with (lw := lw). exact HL.
Qed.
End Phases.

(** ** Main-process gating *)

Lemma silent_nil : silent [].
Proof. constructor. Qed.

Lemma silent_app t1 t2 : silent t1 -> silent t2 -> silent (t1 ++ t2).
Proof. intros H1 H2. apply Forall_app. split; assumption. Qed.

Lemma silent_one e : main_only e = false -> silent [e].
Proof. intros H. constructor; [exact H | constructor]. Qed.

Lemma silent_common e : common_event e = true -> silent [e].
Proof. intros H. apply silent_one. destruct e; try discriminate H; reflexivity. Qed.

Lemma make_output_dir_not_main E cfg :
  is_main_process E = false ->
  make_output_dir E cfg = Outcome cfg [] (Ok (None, None)).
Proof. intros H. unfold make_output_dir. rewrite H. reflexivity. Qed.

(** C3. On a process where [misc.is_main_process()] is false the locals
    [output_dir] and [log_writer] are [None], and in the whole run, whatever
    the configuration and however the run ends, there is no side effect
    reserved to the main process: no directory and no monitoring stream is
    created, no checkpoint and no encoder is saved, the stream is not
    flushed, no line is appended to log.txt, and every epoch is run with
    [log_writer = None]. *)
Theorem non_main_process_is_silent (E : env) (cfg : config) :
  is_main_process E = false ->
  out_res (make_output_dir E cfg) = Ok (None, None) /\
  Forall (fun e => main_only e = false) (out_trace (main E cfg)).
Proof.
  intros Hmain. split.
  { rewrite make_output_dir_not_main by exact Hmain. reflexivity. }
  apply (holds_main silent silent_nil silent_app silent_common E
           (fun L => L = (None, None))).
  - intros c. rewrite make_output_dir_not_main by exact Hmain.
    split; [apply silent_nil | intros a [= <-]; reflexivity].
  - intros od lw e [= -> ->]. unfold epoch_body, checkpoint_due. simpl.
    holds_auto silent_nil silent_app silent_one.
  - intros od lw ep [= -> ->]. unfold save_encoder. simpl.
    holds_auto silent_nil silent_app silent_one.
Qed.

Lemma non_main_process_is_silent_witness :
  is_main_process (env_example 1) = false /\
  Forall (fun e => main_only e = false)
         (out_trace (main (env_example 1) (cfg_example "st_mem_vit_base" "out" VNone 0 3))).
Proof.
  split; [reflexivity|].
  apply (non_main_process_is_silent (env_example 1)). reflexivity.
Defined.

(** ** Flush before log *)

Lemma flush_log_paired_app p t1 t2 :
  flush_log_paired p t1 = true -> flush_log_paired false t2 = true ->
  flush_log_paired p (t1 ++ t2) = true.
Proof.
  revert p. induction t1 as [|e t1 IH]; intros p H1 H2; simpl in *.
  - destruct p; [discriminate | exact H2].
  - destruct e; apply andb_prop in H1 as [Hp H1]; rewrite Hp; simpl;
      apply IH; assumption.
Qed.

Lemma paired_nil : paired [].
Proof. reflexivity. Qed.

Lemma paired_app t1 t2 : paired t1 -> paired t2 -> paired (t1 ++ t2).
Proof. apply flush_log_paired_app. Qed.

(** any single call but a flush and an append *)
Lemma paired_one e :
  match e with FlushWriter _ | AppendLine _ _ => false | _ => true end = true ->
  paired [e].
Proof. destruct e; simpl; intros H; try discriminate; reflexivity. Qed.

Lemma paired_common e : common_event e = true -> paired [e].
Proof. intros H. apply paired_one. destruct e; try discriminate H; reflexivity. Qed.

Lemma paired_make_output_dir E :
  holds paired (fun L => fst L = snd L) (make_output_dir E).
Proof.
  unfold make_output_dir.
  eapply (holds_bind _ paired_app (fun _ => True)).
  { holds_auto paired_nil paired_app paired_one. }
  intros cond _. destruct cond; [|apply (holds_ret _ paired_nil); reflexivity].
  eapply (holds_bind _ paired_app (fun _ => True));
    [holds_auto paired_nil paired_app paired_one | intros a _].
  eapply (holds_bind _ paired_app (fun _ => True));
    [holds_auto paired_nil paired_app paired_one | intros b _].
  eapply (holds_bind _ paired_app (fun _ => True));
    [holds_auto paired_nil paired_app paired_one | intros d _].
  eapply (holds_bind _ paired_app (fun _ => True));
    [holds_auto paired_nil paired_app paired_one | intros _ _].
  eapply (holds_bind _ paired_app (fun _ => True));
    [holds_auto paired_nil paired_app paired_one | intros _ _].
  apply (holds_ret _ paired_nil); reflexivity.
Qed.

Lemma paired_epoch_body E od e :
  holds paired (fun _ => True) (epoch_body E od od e).
Proof.
  unfold epoch_body, checkpoint_due.
  eapply (holds_bind _ paired_app (fun _ => True));
    [holds_auto paired_nil paired_app paired_one | intros dist _].
  eapply (holds_bind _ paired_app (fun _ => True));
    [holds_auto paired_nil paired_app paired_one | intros _ _].
  eapply (holds_bind _ paired_app (fun _ => True));
    [holds_auto paired_nil paired_app paired_one | intros train _].
  eapply (holds_bind _ paired_app (fun _ => True));
    [holds_auto paired_nil paired_app paired_one | intros _ _].
  eapply (holds_bind _ paired_app (fun _ => True));
    [holds_auto paired_nil paired_app paired_one | intros due _].
  eapply (holds_bind _ paired_app (fun _ => True));
    [holds_auto paired_nil paired_app paired_one | intros _ _].
  destruct od as [d|]; simpl; [|apply (holds_ret _ paired_nil); exact I].
  destruct (String.eqb d ""); [apply (holds_ret _ paired_nil); exact I|].
  destruct (is_main_process E); [|apply (holds_ret _ paired_nil); exact I].
  apply holds_trace. intros cfg. reflexivity.
Qed.

Lemma paired_main (E : env) (cfg : config) : paired (out_trace (main E cfg)).
Proof.
  refine (proj1 (holds_main paired paired_nil paired_app paired_common E
                   (fun L => fst L = snd L) _ _ _ cfg)).
  - apply paired_make_output_dir.
  - intros od lw e HL. simpl in HL. subst lw. apply paired_epoch_body.
  - intros od lw ep _. unfold save_encoder.
    holds_auto paired_nil paired_app paired_one.
Qed.

(** ** What a computation does to the configuration *)

Section Frame.
Context (R : config -> config -> Prop).
Hypothesis R_refl : forall c, R c c.
Hypothesis R_trans : forall a b c, R a b -> R b c -> R a c.

Lemma changes_fixed {A} (m : M A) :
  (forall cfg, out_cfg (m cfg) = cfg) -> changes R m.
Proof. intros H cfg. rewrite H. apply R_refl. Qed.

Lemma changes_bind {A B} (m : M A) (f : A -> M B) :
  changes R m -> (forall a, changes R (f a)) -> changes R (m ≫= f).
Proof.
  intros Hm Hf cfg. rewrite run_bind.
  destruct (out_res (m cfg)) as [a|e]; simpl; [|apply Hm].
  eapply R_trans; [apply Hm | apply Hf].
Qed.

Lemma changes_ret {A} (a : A) : changes R (mret a).
Proof. apply changes_fixed; reflexivity. Qed.

Lemma changes_raise {A} e : changes R (raise (A := A) e).
Proof. apply changes_fixed; reflexivity. Qed.

Lemma changes_lift {A} (r : result A) : changes R (lift r).
Proof. apply changes_fixed; reflexivity. Qed.

Lemma changes_emit e : changes R (emit e).
Proof. apply changes_fixed; reflexivity. Qed.

Lemma changes_getitem k : changes R (getitem k).
Proof. apply changes_fixed; reflexivity. Qed.

Lemma changes_get_config : changes R get_config.
Proof. apply changes_fixed; reflexivity. Qed.

Lemma changes_getitem2 k1 k2 : changes R (getitem2 k1 k2).
Proof. apply changes_fixed. intros cfg. rewrite getitem2_run. reflexivity. Qed.

Lemma changes_for_each es body bound :
  (forall e, changes R (body e)) -> changes R (for_each es body bound).
Proof.
  intros Hb. revert bound.
  induction es as [|e es IH]; intros bound; simpl.
  - apply changes_ret.
  - apply changes_bind; [apply Hb | intros; apply IH].
Qed.
End Frame.

Ltac changes_auto R_refl R_trans :=
  repeat first
    [ apply (changes_getitem2 _ R_refl)
    | apply (changes_getitem _ R_refl)
    | apply (changes_lift _ R_refl)
    | apply (changes_get_config _ R_refl)
    | apply (changes_raise _ R_refl)
    | apply (changes_ret _ R_refl)
    | apply (changes_emit _ R_refl)
    | apply (changes_for_each _ R_refl R_trans); intros ?
    | apply (changes_bind _ R_trans); [ | intros ? ]
    | match goal with
      | |- changes _ (if ?b then _ else _) => destruct b
      | |- changes _ (match ?x with _ => _ end) => destruct x
      end ].

Ltac fixed_auto := changes_auto (@eq_refl config) (@eq_trans config).

Lemma fixed_Ok {A} (m : M A) cfg c t r :
  fixed m -> m cfg = Outcome c t r -> c = cfg.
Proof. intros H Hm. rewrite (H cfg), Hm. reflexivity. Qed.

Lemma changes_after_fixed (R : config -> config -> Prop) {A B} (m : M A) (f : A -> M B) :
  (forall c, R c c) -> fixed m -> (forall a, changes R (f a)) -> changes R (m ≫= f).
Proof.
  intros Hrefl Hm Hf cfg. rewrite run_bind.
  destruct (out_res (m cfg)) as [a|e]; simpl; rewrite <- (Hm cfg); [apply Hf | apply Hrefl].
Qed.

Lemma changes_before_fixed (R : config -> config -> Prop) {A B} (m : M A) (f : A -> M B) :
  changes R m -> (forall a, fixed (f a)) -> changes R (m ≫= f).
Proof.
  intros Hm Hf cfg. rewrite run_bind.
  destruct (out_res (m cfg)) as [a|e]; simpl; [|apply Hm].
  rewrite <- (Hf a (out_cfg (m cfg))). apply Hm.
Qed.

Lemma lr_written_refl E c : lr_written E c c.
Proof. left; reflexivity. Qed.

(** One step of a computation whose first half leaves the configuration
    as it is. *)
Lemma step_fixed {A B} (Q : config -> Prop) (m : M A) (f : A -> M B) cfg :
  out_cfg (m cfg) = cfg ->
  Q cfg ->
  (forall a, out_res (m cfg) = Ok a -> Q (out_cfg (f a cfg))) ->
  Q (out_cfg ((m ≫= f) cfg)).
Proof.
  intros Hfix Hq Hf. rewrite run_bind.
  destruct (out_res (m cfg)) as [a|e]; simpl; rewrite Hfix; auto.
Qed.

Lemma getitem2_fixed k1 k2 cfg : out_cfg (getitem2 k1 k2 cfg) = cfg.
Proof. rewrite getitem2_run. reflexivity. Qed.

Section Fixed.
Context (E : env).

Lemma derive_lr_changes : changes (lr_written E) (derive_lr E).
Proof.
  intros cfg. unfold derive_lr.
  apply step_fixed; [apply getitem2_fixed | apply lr_written_refl | intros bs _].
  apply step_fixed; [apply getitem2_fixed | apply lr_written_refl | intros accum _].
  apply step_fixed; [reflexivity | apply lr_written_refl | intros x _].
  apply step_fixed; [reflexivity | apply lr_written_refl | intros eff _].
  apply step_fixed; [apply getitem2_fixed | apply lr_written_refl | intros lr Hlr].
  destruct lr; try apply lr_written_refl.
  apply reads_inv in Hlr as (tr & Htr & Hnone).
  cbn [is_none]. rewrite run_bind.
  assert (H : lr_written E cfg
                (out_cfg ((blr ← getitem2 "train" "blr";
                           y ← lift (py_mul blr eff);
                           z ← lift (py_truediv y (VInt 256));
                           setitem2 (train_aliases E) "train" "lr" z) cfg))).
  { apply step_fixed; [apply getitem2_fixed | apply lr_written_refl | intros blr _].
    apply step_fixed; [reflexivity | apply lr_written_refl | intros y _].
    apply step_fixed; [reflexivity | apply lr_written_refl | intros z _].
    unfold setitem2. rewrite Htr. right. exists tr, z. auto. }
  match goal with
  | |- context [out_res ?o] => destruct (out_res o)
  end; exact H.
Qed.

Lemma fixed_load_model : fixed (load_model E).
Proof. unfold fixed, load_model. fixed_auto. Qed.

Lemma fixed_init_run : fixed (init_run E).
Proof. unfold fixed, init_run. fixed_auto. Qed.

Lemma fixed_make_output_dir : fixed (make_output_dir E).
Proof. unfold fixed, make_output_dir. fixed_auto. Qed.

Lemma fixed_before_model : fixed (before_model E).
Proof.
  unfold fixed, before_model.
  apply (changes_bind _ (@eq_trans config)); [apply fixed_init_run | intros _].
  apply fixed_make_output_dir.
Qed.

Lemma fixed_define_model : fixed (define_model E).
Proof. unfold fixed, define_model. fixed_auto. Qed.

Lemma fixed_report_lr eff : fixed (report_lr eff).
Proof. unfold fixed, report_lr. fixed_auto. Qed.

Lemma fixed_prepare_training : fixed (prepare_training E).
Proof.
  unfold fixed, prepare_training.
  apply (changes_bind _ (@eq_trans config)); [fixed_auto | intros dist].
  apply (changes_bind _ (@eq_trans config)); [fixed_auto | intros _].
  apply (changes_bind _ (@eq_trans config)); [fixed_auto | intros train].
  apply (changes_bind _ (@eq_trans config)); [fixed_auto | intros _].
  apply (changes_bind _ (@eq_trans config)); [fixed_auto | intros _].
  apply (changes_bind _ (@eq_trans config)); [apply fixed_load_model | intros _].
  fixed_auto.
Qed.

Lemma fixed_checkpoint_due od e : fixed (checkpoint_due od e).
Proof. unfold fixed, checkpoint_due. fixed_auto. Qed.

Lemma fixed_epoch_body od lw e : fixed (epoch_body E od lw e).
Proof.
  unfold fixed, epoch_body.
  apply (changes_bind _ (@eq_trans config)); [fixed_auto | intros dist].
  apply (changes_bind _ (@eq_trans config)); [fixed_auto | intros _].
  apply (changes_bind _ (@eq_trans config)); [fixed_auto | intros train].
  apply (changes_bind _ (@eq_trans config)); [fixed_auto | intros _].
  apply (changes_bind _ (@eq_trans config)); [apply fixed_checkpoint_due | intros due].
  fixed_auto.
Qed.

Lemma fixed_save_encoder od ep : fixed (save_encoder od ep).
Proof. unfold fixed, save_encoder. fixed_auto. Qed.

Lemma fixed_run_epochs L : fixed (run_epochs E L).
Proof.
  unfold fixed, run_epochs. destruct L as [od lw].
  apply (changes_bind _ (@eq_trans config)); [fixed_auto | intros a].
  apply (changes_bind _ (@eq_trans config)); [fixed_auto | intros b].
  apply (changes_bind _ (@eq_trans config)); [fixed_auto | intros start].
  apply (changes_bind _ (@eq_trans config)); [fixed_auto | intros stop].
  apply (changes_bind _ (@eq_trans config)).
  - apply (changes_for_each _ (@eq_refl config) (@eq_trans config)).
    intros e. apply fixed_epoch_body.
  - intros ep. apply fixed_save_encoder.
Qed.

Lemma setup_changes : changes (lr_written E) (setup E).
Proof.
  unfold setup.
  apply (changes_after_fixed _ _ _ (lr_written_refl E)); [apply fixed_before_model | intros L].
  apply (changes_after_fixed _ _ _ (lr_written_refl E)); [apply fixed_define_model | intros _].
  apply changes_before_fixed; [apply derive_lr_changes | intros eff].
  apply (changes_bind _ (@eq_trans config)); [apply fixed_report_lr | intros _].
  apply (changes_bind _ (@eq_trans config)); [apply fixed_prepare_training | intros _].
  apply (changes_ret _ (@eq_refl config)).
Qed.

Lemma main_changes : changes (lr_written E) (main E).
Proof.
  unfold main.
  apply changes_before_fixed; [apply setup_changes | intros L].
  apply fixed_run_epochs.
Qed.
End Fixed.

(** ** What the write leaves as it was *)

Lemma same_kind_refl v : same_kind v v.
Proof. destruct v; simpl; auto. Qed.

Lemma same_kind_trans a b c : same_kind a b -> same_kind b c -> same_kind a c.
Proof. destruct a, b; simpl; intros H; try discriminate H; try exact (fun H' => H'); destruct c; simpl; intros H'; congruence || exact I. Qed.

Lemma same_kind_scalar v v' :
  same_kind v v' -> scalar v = true \/ scalar v' = true -> v = v'.
Proof.
  destruct v, v'; simpl; intros H [Hs|Hs]; try discriminate Hs; exact H.
Qed.

Lemma kept_same_kind n v v' : kept n v v' -> same_kind v v'.
Proof. destruct n; intros [H _]; exact H. Qed.

Lemma kept_refl n v : kept n v v.
Proof.
  revert v. induction n as [|n IH]; intros v; (split; [apply same_kind_refl|]); [exact I|].
  intros d d' -> [= <-] k _. destruct (d !! k); constructor. apply IH.
Qed.

Lemma kept_trans n a b c : kept n a b -> kept n b c -> kept n a c.
Proof.
  revert a b c. induction n as [|n IH]; intros a b c [Hs H] [Hs' H'];
    (split; [exact (same_kind_trans _ _ _ Hs Hs')|]); [exact I|].
  intros d d'' -> ->.
  destruct b as [| | | | | |d']; simpl in Hs; try discriminate Hs.
  intros k Hk.
  specialize (H d d' eq_refl eq_refl k Hk). specialize (H' d' d'' eq_refl eq_refl k Hk).
  destruct H as [x y Hxy|]; inversion H' as [y' z Hyz|]; subst; constructor.
  exact (IH _ _ _ Hxy Hyz).
Qed.

Lemma alter_at_same_kind f p v : same_kind v (alter_at f p v).
Proof. destruct p as [|[k|i] p], v; simpl; auto. Qed.

Lemma alter_at_scalar f p v : scalar v = true -> alter_at f p v = v.
Proof. destruct p as [|[k|i] p], v; simpl; intros H; try discriminate H; reflexivity. Qed.

(** A write of ['lr'] into a dictionary somewhere inside [v] keeps [v]. *)
Lemma kept_alter_at n x p v : kept n v (alter_at (insert "lr" x) p v).
Proof.
  revert p v. induction n as [|n IH]; intros p v;
    (split; [apply alter_at_same_kind|]); [exact I|].
  intros d d' -> Hd' k Hk.
  destruct p as [|[k0|i] p]; simpl in Hd'; injection Hd' as <-.
  - rewrite lookup_insert_ne by congruence.
    destruct (d !! k); constructor. apply kept_refl.
  - destruct (decide (k0 = k)) as [->|Hne].
    + rewrite lookup_alter_eq. destruct (d !! k); constructor. apply IH.
    + rewrite lookup_alter_ne by exact Hne.
      destruct (d !! k); constructor. apply kept_refl.
  - destruct (d !! k); constructor. apply kept_refl.
Qed.

Lemma kept_alter_place n x pl cfg :
  kept n (VDict cfg) (VDict (alter_place (insert "lr" x) pl cfg)).
Proof. exact (kept_alter_at n x (Key pl.1 :: pl.2) (VDict cfg)). Qed.

Lemma insert_as_alter (cfg : config) k tr (f : gmap string pyval -> gmap string pyval) :
  cfg !! k = Some (VDict tr) ->
  <[k := VDict (f tr)]> cfg = alter_place f (k, []) cfg.
Proof.
  intros H. apply map_eq. intros j. unfold alter_place. cbn [fst snd].
  destruct (decide (k = j)) as [<-|Hne].
  - rewrite lookup_insert_eq, lookup_alter_eq, H. reflexivity.
  - rewrite lookup_insert_ne, lookup_alter_ne by exact Hne. reflexivity.
Qed.

Lemma kept_write_lr n sh v tr cfg :
  cfg !! "train" = Some (VDict tr) ->
  kept n (VDict cfg) (VDict (write_lr sh v tr cfg)).
Proof.
  intros Htr. unfold write_lr.
  induction sh as [|pl sh IH]; cbn [foldr].
  - rewrite (insert_as_alter cfg "train" tr (insert "lr" v) Htr). apply kept_alter_place.
  - eapply kept_trans; [exact IH | apply kept_alter_place].
Qed.

Lemma lr_written_kept E cfg cfg' :
  lr_written E cfg cfg' -> kept 2 (VDict cfg) (VDict cfg').
Proof.
  intros [->|(tr & v & Htr & _ & ->)]; [apply kept_refl | apply kept_write_lr, Htr].
Qed.

Lemma kept_lookup n (d d' : gmap string pyval) k :
  kept (S n) (VDict d) (VDict d') -> k <> "lr" ->
  option_Forall2 (kept n) (d !! k) (d' !! k).
Proof. intros [_ H] Hk. exact (H d d' eq_refl eq_refl k Hk). Qed.

(** An entry of the configuration that is no dictionary and no list reads
    the same before and after the write. *)
Lemma lr_written_other E cfg cfg' k v :
  lr_written E cfg cfg' -> k <> "lr" -> scalar v = true ->
  cfg' !! k = Some v <-> cfg !! k = Some v.
Proof.
  intros Hw Hk Hv.
  pose proof (kept_lookup _ _ _ k (lr_written_kept _ _ _ Hw) Hk) as H.
  destruct H as [x y Hxy|]; [|split; discriminate].
  apply kept_same_kind in Hxy.
  split; intros [= ->]; f_equal.
  - apply same_kind_scalar; auto.
  - symmetry. apply same_kind_scalar; auto.
Qed.

Lemma lr_written_is_Some E cfg cfg' k :
  lr_written E cfg cfg' -> k <> "lr" -> is_Some (cfg' !! k) <-> is_Some (cfg !! k).
Proof.
  intros Hw Hk.
  pose proof (kept_lookup _ _ _ k (lr_written_kept _ _ _ Hw) Hk) as H.
  destruct H; split; intros [? [=]]; eauto.
Qed.

Lemma lr_written_None E cfg cfg' k :
  lr_written E cfg cfg' -> k <> "lr" -> cfg !! k = None -> cfg' !! k = None.
Proof.
  intros Hw Hk H.
  pose proof (kept_lookup _ _ _ k (lr_written_kept _ _ _ Hw) Hk) as H'.
  rewrite H in H'. inversion H'. reflexivity.
Qed.

Lemma kept_dict n (d : gmap string pyval) v :
  kept n (VDict d) v -> exists d', v = VDict d'.
Proof. intros H. apply kept_same_kind in H. destruct v; simpl in H; try discriminate H. eauto. Qed.

Lemma kept_dict_r n (d : gmap string pyval) v :
  kept n v (VDict d) -> exists d', v = VDict d'.
Proof. intros H. apply kept_same_kind in H. destruct v; simpl in H; try discriminate H. eauto. Qed.

Lemma kept_scalar n v v' : kept n v v' -> scalar v = true \/ scalar v' = true -> v = v'.
Proof. intros H. apply same_kind_scalar. exact (kept_same_kind _ _ _ H). Qed.

(** What [config[k1][k2]] reads is kept, where it is no dictionary and no list. *)
Lemma kept_reads (cfg cfg' : config) k1 k2 :
  kept 2 (VDict cfg) (VDict cfg') -> k1 <> "lr" -> k2 <> "lr" ->
  forall v, reads cfg k1 k2 v -> exists v', reads cfg' k1 k2 v' /\ kept 0 v v'.
Proof.
  intros H Hk1 Hk2 v Hv. apply reads_inv in Hv as (d & Hd & Hv).
  pose proof (kept_lookup _ _ _ k1 H Hk1) as H1. rewrite Hd in H1.
  inversion H1 as [x y Hxy Hx Hy|]; subst.
  destruct (kept_dict _ _ _ Hxy) as [d' ->].
  pose proof (kept_lookup _ _ _ k2 Hxy Hk2) as H2. rewrite Hv in H2.
  inversion H2 as [x' y' Hxy' Hx' Hy'|]; subst.
  exists y'. split; [|exact Hxy']. apply reads_inv. eauto.
Qed.

Lemma kept_reads_back (cfg cfg' : config) k1 k2 :
  kept 2 (VDict cfg) (VDict cfg') -> k1 <> "lr" -> k2 <> "lr" ->
  forall v', reads cfg' k1 k2 v' -> exists v, reads cfg k1 k2 v /\ kept 0 v v'.
Proof.
  intros H Hk1 Hk2 v Hv. apply reads_inv in Hv as (d & Hd & Hv).
  pose proof (kept_lookup _ _ _ k1 H Hk1) as H1. rewrite Hd in H1.
  inversion H1 as [x y Hxy Hx Hy|]; subst.
  destruct (kept_dict_r _ _ _ Hxy) as [d' ->].
  pose proof (kept_lookup _ _ _ k2 Hxy Hk2) as H2. rewrite Hv in H2.
  inversion H2 as [x' y' Hxy' Hx' Hy'|]; subst.
  exists x'. split; [|exact Hxy']. apply reads_inv. eauto.
Qed.

Lemma lr_written_train_keys E cfg cfg' k :
  lr_written E cfg cfg' -> k <> "lr" ->
  (exists v, reads cfg' "train" k v) <-> (exists v, reads cfg "train" k v).
Proof.
  intros Hw Hk. apply lr_written_kept in Hw. split; intros [v Hv].
  - destruct (kept_reads_back cfg cfg' "train" k Hw ltac:(discriminate) Hk v Hv) as (v' & H & _). eauto.
  - destruct (kept_reads cfg cfg' "train" k Hw ltac:(discriminate) Hk v Hv) as (v' & H & _). eauto.
Qed.

Lemma lr_written_train E cfg cfg' k v :
  lr_written E cfg cfg' -> k <> "lr" -> scalar v = true ->
  reads cfg' "train" k v <-> reads cfg "train" k v.
Proof.
  intros Hw Hk Hs. apply lr_written_kept in Hw. split; intros Hv.
  - destruct (kept_reads_back cfg cfg' "train" k Hw ltac:(discriminate) Hk v Hv) as (v' & H & Hkept).
    rewrite <- (kept_scalar _ _ _ Hkept (or_intror Hs)). exact H.
  - destruct (kept_reads cfg cfg' "train" k Hw ltac:(discriminate) Hk v Hv) as (v' & H & Hkept).
    rewrite (kept_scalar _ _ _ Hkept (or_introl Hs)). exact H.
Qed.

Lemma lr_written_set E cfg cfg' v :
  lr_written E cfg cfg' -> reads cfg "train" "lr" v -> v <> VNone -> cfg' = cfg.
Proof.
  intros [->|(tr & w & Htr & Hnone & ->)] Hv Hne; [reflexivity|].
  apply reads_inv in Hv as (d & Hd & Hv). rewrite Htr in Hd. injection Hd as <-.
  rewrite Hnone in Hv. congruence.
Qed.

(** The entry under a key, after the dictionaries at the places [sh] have
    been altered: the alterations of the places under that key, applied to
    the entry. *)
Lemma lookup_alter_places f sh (cfg : config) k :
  foldr (alter_place f) cfg sh !! k =
  foldr (fun pl o => if decide (pl.1 = k) then alter_at f pl.2 <$> o else o) (cfg !! k) sh.
Proof.
  induction sh as [|pl sh IH]; cbn [foldr]; [reflexivity|].
  unfold alter_place at 1. destruct (decide (pl.1 = k)) as [<-|Hne].
  - rewrite lookup_alter_eq, IH. reflexivity.
  - rewrite lookup_alter_ne by exact Hne. exact IH.
Qed.

Lemma lookup_alter_places_ne f sh (cfg : config) k :
  (forall pl, pl ∈ sh -> pl.1 <> k) ->
  foldr (alter_place f) cfg sh !! k = cfg !! k.
Proof.
  intros H. rewrite lookup_alter_places.
  induction sh as [|pl sh IH]; cbn [foldr]; [reflexivity|].
  destruct (decide (pl.1 = k)) as [Heq|_].
  - exfalso. apply (H pl); [apply list_elem_of_here | exact Heq].
  - apply IH. intros pl' Hin. apply H. apply list_elem_of_further, Hin.
Qed.

(** The new learning rate is what [config['train']['lr']] reads after the
    write, wherever else the dictionary is shared. *)
Lemma write_lr_reads sh v tr cfg :
  scalar v = true -> reads (write_lr sh v tr cfg) "train" "lr" v.
Proof.
  intros Hv. apply reads_inv. unfold write_lr.
  induction sh as [|pl sh IH]; cbn [foldr].
  - exists (<["lr" := v]> tr). rewrite !lookup_insert_eq. auto.
  - destruct IH as (d & Hd & Hlr). unfold alter_place at 1.
    destruct (decide (pl.1 = "train")) as [->|Hne].
    + rewrite lookup_alter_eq, Hd. cbn [fmap option_fmap option_map].
      destruct pl.2 as [|[k|i] p]; cbn [alter_at].
      * exists (<["lr" := v]> d). rewrite lookup_insert_eq. auto.
      * eexists. split; [reflexivity|].
        destruct (decide (k = "lr")) as [->|Hk].
        -- rewrite lookup_alter_eq, Hlr. cbn. rewrite alter_at_scalar by exact Hv. reflexivity.
        -- rewrite lookup_alter_ne by exact Hk. exact Hlr.
      * eauto.
    + rewrite lookup_alter_ne by exact Hne. eauto.
Qed.

(** A key that is one of the places where the dictionary of
    [config['train']] is shared, and holds that dictionary, holds the written
    dictionary afterwards. *)
Lemma write_lr_alias sh v tr (cfg : config) k :
  (k, []) ∈ sh -> k <> "train" ->
  (forall pl, pl ∈ sh -> pl.1 = k -> pl.2 = []) ->
  cfg !! k = Some (VDict tr) ->
  write_lr sh v tr cfg !! k = Some (VDict (<["lr" := v]> tr)).
Proof.
  intros Hin Hk Htop Hcfg. unfold write_lr. rewrite lookup_alter_places.
  rewrite lookup_insert_ne by congruence. rewrite Hcfg.
  assert (H : foldr (fun (pl : place) (o : option pyval) =>
                       if decide (pl.1 = k) then alter_at (insert "lr" v) pl.2 <$> o else o)
                    (Some (VDict tr)) sh = Some (VDict (<["lr" := v]> tr)) \/
              (((k, []) ∉ sh) /\
               foldr (fun (pl : place) (o : option pyval) =>
                        if decide (pl.1 = k) then alter_at (insert "lr" v) pl.2 <$> o else o)
                     (Some (VDict tr)) sh = Some (VDict tr))).
  { clear Hin. induction sh as [|pl sh IH]; cbn [foldr].
    - right. split; [apply not_elem_of_nil | reflexivity].
    - assert (Htop' : forall pl', pl' ∈ sh -> pl'.1 = k -> pl'.2 = [])
        by (intros pl' Hpl'; apply Htop, list_elem_of_further, Hpl').
      specialize (IH Htop').
      destruct (decide (pl.1 = k)) as [Heq|Hne].
      + left. rewrite (Htop pl (list_elem_of_here _ _) Heq).
        destruct IH as [IH|[_ IH]]; rewrite IH; cbn [fmap option_fmap option_map alter_at];
          [rewrite insert_insert_eq|]; reflexivity.
      + destruct IH as [IH|[Hnot IH]]; [left; exact IH|].
        right. split; [|exact IH].
        intros Hc. apply elem_of_cons in Hc as [Hc|Hc]; [|exact (Hnot Hc)].
        apply Hne. rewrite <- Hc. reflexivity. }
  destruct H as [H|[Hnot _]]; [exact H | exact (False_ind _ (Hnot Hin))].
Qed.

Lemma write_lr_train sh v tr (cfg : config) :
  (forall pl, pl ∈ sh -> pl.1 <> "train") ->
  write_lr sh v tr cfg !! "train" = Some (VDict (<["lr" := v]> tr)).
Proof.
  intros H. unfold write_lr. rewrite lookup_alter_places_ne by exact H.
  apply lookup_insert_eq.
Qed.

(** C10 does not hold of every configuration: a configuration file that
    anchors its [train] section and aliases it under [backup] gives one
    dictionary object under two keys, and the write of the learning rate
    then shows under [backup] too, an entry other than
    [config['train']['lr']]. *)
Lemma shared_train_counterexample :
  reads cfg_shared "backup" "lr" VNone /\
  reads (out_cfg (main env_shared cfg_shared)) "backup" "lr" (VFloat lr_0015) /\
  out_cfg (main env_shared cfg_shared) !! "backup" <> cfg_shared !! "backup".
Proof.
  split; [vm_compute; reflexivity|]. split; [vm_compute; reflexivity|].
  intros H.
  assert (Hr : reads cfg_shared "backup" "lr" (VFloat lr_0015)).
  { apply reads_inv.
    assert (H' : reads (out_cfg (main env_shared cfg_shared)) "backup" "lr" (VFloat lr_0015))
      by (vm_compute; reflexivity).
    apply reads_inv in H' as (d & Hd & Hv). rewrite H in Hd. eauto. }
  vm_compute in Hr. discriminate Hr.
Qed.

(** C10, with the sharing of dictionaries.  [main] writes to the
    configuration in one place only, the entry ['lr'] of the dictionary
    object [config['train']], and only where that entry was [None].  In
    every run, however it ends, the configuration afterwards is the one
    passed in, or the one passed in after that one write.  Every top-level
    entry other than [train] and other than the keys under which the same
    dictionary object is shared is as before, and so is every other entry of
    [config['train']] (when no alias lies inside it); an entry of the
    configuration that is a number, a string or [None] is as before wherever
    it is, the key ['lr'] apart; a learning rate that was set leaves the
    whole configuration as it was; and a key under which the dictionary of
    [config['train']] is shared reads the same as [config['train']]
    afterwards too. *)
Theorem config_written_once (E : env) (cfg : config) :
  (out_cfg (main E cfg) = cfg \/
   exists tr v,
     cfg !! "train" = Some (VDict tr) /\ tr !! "lr" = Some VNone /\
     out_cfg (main E cfg) = write_lr (train_aliases E) v tr cfg) /\
  (forall k, k <> "train" -> (forall pl, pl ∈ train_aliases E -> pl.1 <> k) ->
     out_cfg (main E cfg) !! k = cfg !! k) /\
  (forall k v, k <> "lr" -> (forall pl, pl ∈ train_aliases E -> pl.1 <> "train") ->
     reads (out_cfg (main E cfg)) "train" k v <-> reads cfg "train" k v) /\
  (forall k v, k <> "lr" -> scalar v = true ->
     (out_cfg (main E cfg) !! k = Some v <-> cfg !! k = Some v) /\
     (reads (out_cfg (main E cfg)) "train" k v <-> reads cfg "train" k v)) /\
  (forall v, reads cfg "train" "lr" v -> v <> VNone -> out_cfg (main E cfg) = cfg) /\
  (forall k, (k, []) ∈ train_aliases E -> k <> "train" ->
     (forall pl, pl ∈ train_aliases E -> pl.1 = k -> pl.2 = []) ->
     (forall pl, pl ∈ train_aliases E -> pl.1 <> "train") ->
     cfg !! k = cfg !! "train" ->
     out_cfg (main E cfg) !! k = out_cfg (main E cfg) !! "train").
Proof.
  pose proof (main_changes E cfg) as H.
  split; [exact H|]. split; [|split; [|split; [|split]]].
  - intros k Hk Hsh. destruct H as [->|(tr & v & Htr & _ & ->)]; [reflexivity|].
    unfold write_lr. rewrite lookup_alter_places_ne by exact Hsh.
    apply lookup_insert_ne. congruence.
  - intros k v Hk Hsh. destruct H as [->|(tr & w & Htr & _ & ->)]; [reflexivity|].
    rewrite !reads_inv. unfold write_lr. rewrite lookup_alter_places_ne by exact Hsh.
    rewrite lookup_insert_eq, Htr. split.
    + intros (d & [= <-] & Hv). rewrite lookup_insert_ne in Hv by congruence. eauto.
    + intros (d & [= <-] & Hv). eexists. split; [reflexivity|].
      rewrite lookup_insert_ne by congruence. exact Hv.
  - intros k v Hk Hs. split.
    + apply (lr_written_other E); assumption.
    + apply (lr_written_train E); assumption.
  - intros v. apply (lr_written_set E). exact H.
  - intros k Hin Hk Htop Hno Hsame.
    destruct H as [->|(tr & v & Htr & _ & ->)]; [exact Hsame|].
    rewrite Htr in Hsame.
    rewrite (write_lr_alias _ v tr cfg k Hin Hk Htop Hsame).
    rewrite (write_lr_train _ v tr cfg Hno). reflexivity.
Qed.

Lemma config_written_once_witness :
  (forall k, k <> "train" -> k <> "backup" ->
     out_cfg (main env_shared cfg_shared) !! k = cfg_shared !! k) /\
  (reads (out_cfg (main env_shared cfg_shared)) "train" "epochs" (VInt 2)) /\
  out_cfg (main env_shared cfg_shared) !! "backup"
  = out_cfg (main env_shared cfg_shared) !! "train" /\
  out_cfg (main (env_example 0) (cfg_example "st_mem_vit_base" "out" (VFloat lr_0015) 0 2))
  = cfg_example "st_mem_vit_base" "out" (VFloat lr_0015) 0 2.
Proof.
  destruct (config_written_once env_shared cfg_shared) as (_ & H2 & H3 & _ & _ & H6).
  split; [|split; [|split]].
  - intros k Hk Hb. apply H2; [exact Hk|].
    intros pl Hin. apply list_elem_of_singleton in Hin. subst pl. cbn. congruence.
  - apply H3; [discriminate| |vm_compute; reflexivity].
    intros pl Hin. apply list_elem_of_singleton in Hin. subst pl. discriminate.
  - apply H6.
    + apply list_elem_of_here.
    + discriminate.
    + intros pl Hin _. apply list_elem_of_singleton in Hin. subst pl. reflexivity.
    + intros pl Hin. apply list_elem_of_singleton in Hin. subst pl. discriminate.
    + vm_compute. reflexivity.
  - apply (proj1 (proj2 (proj2 (proj2 (proj2 (config_written_once (env_example 0)
             (cfg_example "st_mem_vit_base" "out" (VFloat lr_0015) 0 2))))))
             (VFloat lr_0015)).
    + vm_compute. reflexivity.
    + discriminate.
Defined.


(** ** Binary64 arithmetic: doubling *)

Section Binary64.
Local Open Scope Z_scope.

Lemma Zdigits2_nonneg m : 0 <= Zdigits2 m.
Proof. destruct m; simpl; lia. Qed.

Lemma fexp_succ x : -1021 <= x -> fexp 53 1024 (x + 1) = fexp 53 1024 x + 1.
Proof. unfold fexp, emin. lia. Qed.

Lemma shr_fexp_succ m e l :
  -1021 <= Zdigits2 m + e ->
  shr_fexp 53 1024 m (e + 1) l =
  (fst (shr_fexp 53 1024 m e l), snd (shr_fexp 53 1024 m e l) + 1).
Proof.
  intros H. unfold shr_fexp.
  replace (Zdigits2 m + (e + 1)) with (Zdigits2 m + e + 1) by lia.
  rewrite fexp_succ by exact H.
  replace (fexp 53 1024 (Zdigits2 m + e) + 1 - (e + 1))
    with (fexp 53 1024 (Zdigits2 m + e) - e) by lia.
  unfold shr. destruct (fexp 53 1024 (Zdigits2 m + e) - e); cbn [fst snd]; f_equal; lia.
Qed.

Lemma shr_exp_le mrs e n : e <= snd (shr mrs e n).
Proof. unfold shr. destruct n; cbn [snd]; lia. Qed.

Lemma shr_fexp_exp_le m e l : e <= snd (shr_fexp 53 1024 m e l).
Proof. unfold shr_fexp. apply shr_exp_le. Qed.

Lemma binary_round_aux_succ s m e l :
  -1021 <= e -> 0 <= m ->
  binary_round_aux 53 1024 s m (e + 1) l = float_twice (binary_round_aux 53 1024 s m e l).
Proof.
  intros He Hm. unfold binary_round_aux.
  rewrite shr_fexp_succ by (pose proof (Zdigits2_nonneg m); lia).
  pose proof (shr_fexp_exp_le m e l) as H1.
  destruct (shr_fexp 53 1024 m e l) as [mrs' e']. cbn [fst snd] in *.
  set (m2 := round_nearest_even (shr_m mrs') (loc_of_shr_record mrs')).
  rewrite shr_fexp_succ by (pose proof (Zdigits2_nonneg m2); lia).
  destruct (shr_fexp 53 1024 m2 e' loc_Exact) as [mrs'' e'']. cbn [fst snd].
  destruct (shr_m mrs''); cbn [float_twice]; try reflexivity.
  destruct (e'' <=? (1024 - 53)) eqn:H2; cbn [float_twice].
  - reflexivity.
  - assert ((e'' + 1 <=? 1024 - 53) = false) as -> by lia. reflexivity.
Qed.

Lemma iter_pos_comm {A} (f : A -> A) n x : SpecFloat.iter_pos f n (f x) = f (SpecFloat.iter_pos f n x).
Proof.
  revert x. induction n as [n IH|n IH|]; intros x; cbn [SpecFloat.iter_pos].
  - rewrite !IH. reflexivity.
  - rewrite !IH. reflexivity.
  - reflexivity.
Qed.

Lemma iter_pos_succ {A} (f : A -> A) n x : SpecFloat.iter_pos f (Pos.succ n) x = SpecFloat.iter_pos f n (f x).
Proof.
  revert x. induction n as [n IH|n IH|]; intros x.
  - change (SpecFloat.iter_pos f (Pos.succ n) (SpecFloat.iter_pos f (Pos.succ n) x)
            = SpecFloat.iter_pos f n (SpecFloat.iter_pos f n (f (f x)))).
    rewrite !IH. rewrite !iter_pos_comm. reflexivity.
  - change (SpecFloat.iter_pos f n (SpecFloat.iter_pos f n (f x))
            = SpecFloat.iter_pos f n (SpecFloat.iter_pos f n (f x))).
    reflexivity.
  - reflexivity.
Qed.

Lemma SFdiv_core_succ m1 e1 m2 e2 :
  0 < m1 -> 0 < m2 ->
  -1021 <= Zdigits2 m1 + e1 - (Zdigits2 m2 + e2) ->
  SFdiv_core_binary 53 1024 m1 (e1 + 1) m2 e2 =
  let '(q, e', l) := SFdiv_core_binary 53 1024 m1 e1 m2 e2 in (q, e' + 1, l).
Proof.
  intros H1 H2 H. unfold SFdiv_core_binary.
  replace (Zdigits2 m1 + (e1 + 1) - (Zdigits2 m2 + e2))
    with (Zdigits2 m1 + e1 - (Zdigits2 m2 + e2) + 1) by lia.
  rewrite fexp_succ by exact H.
  set (F := fexp 53 1024 (Zdigits2 m1 + e1 - (Zdigits2 m2 + e2))).
  replace (Z.min (F + 1) (e1 + 1 - e2)) with (Z.min F (e1 - e2) + 1) by lia.
  replace (e1 + 1 - e2 - (Z.min F (e1 - e2) + 1)) with (e1 - e2 - Z.min F (e1 - e2)) by lia.
  destruct (Z.div_eucl _ m2). reflexivity.
Qed.

Lemma SFdiv_core_nonneg m1 e1 m2 e2 :
  0 < m1 -> 0 < m2 ->
  0 <= fst (fst (SFdiv_core_binary 53 1024 m1 e1 m2 e2)) /\
  Z.min (fexp 53 1024 (Zdigits2 m1 + e1 - (Zdigits2 m2 + e2))) (e1 - e2)
  = snd (fst (SFdiv_core_binary 53 1024 m1 e1 m2 e2)).
Proof.
  intros H1 H2. unfold SFdiv_core_binary.
  set (e' := Z.min _ _). set (m' := match e1 - e2 - e' with Z0 => _ | _ => _ end).
  assert (Hm : 0 <= m').
  { unfold m'. destruct (e1 - e2 - e'); try lia. apply Z.shiftl_nonneg. lia. }
  pose proof (Z.div_pos m' m2 Hm H2) as Hq. unfold Z.div in Hq.
  destruct (Z.div_eucl m' m2) as [q r]. cbn [fst snd] in *. auto.
Qed.

Lemma SFdiv_succ s m e sc mc ec :
  -968 <= e - (Zdigits2 (Zpos mc) + ec) -> -1021 <= e - ec ->
  SFdiv 53 1024 (S754_finite s m (e + 1)) (S754_finite sc mc ec)
  = float_twice (SFdiv 53 1024 (S754_finite s m e) (S754_finite sc mc ec)).
Proof.
  intros H1 H2. cbn [SFdiv].
  assert (Hd : 1 <= Zdigits2 (Zpos m)) by (cbn; lia).
  rewrite SFdiv_core_succ by lia.
  destruct (SFdiv_core_nonneg (Zpos m) e (Zpos mc) ec) as [Hq He]; try lia.
  destruct (SFdiv_core_binary 53 1024 (Zpos m) e (Zpos mc) ec) as [[q e'] l].
  cbn [fst snd] in *.
  apply binary_round_aux_succ; [|exact Hq].
  rewrite <- He. unfold fexp, emin in *. lia.
Qed.

Lemma shr_1_double p : shr_1 (Build_shr_record (Zpos p~0) false false)
                       = Build_shr_record (Zpos p) false false.
Proof. reflexivity. Qed.

Lemma digits2_pos_double p : Zpos (digits2_pos p~0) = Zpos (digits2_pos p) + 1.
Proof. cbn [digits2_pos]. lia. Qed.

(** mantissa doubled, at a shift of at least one *)
Lemma binary_round_aux_double s p e :
  -1021 <= e -> 53 <= Zpos (digits2_pos p) + e + 1074 -> e < fexp 53 1024 (Zpos (digits2_pos p) + e + 1) ->
  binary_round_aux 53 1024 s (Zpos p~0) e loc_Exact
  = float_twice (binary_round_aux 53 1024 s (Zpos p) e loc_Exact).
Proof.
  intros He Hd Hs. unfold binary_round_aux.
  assert (H1 : shr_fexp 53 1024 (Zpos p~0) e loc_Exact =
               (fst (shr_fexp 53 1024 (Zpos p) e loc_Exact),
                snd (shr_fexp 53 1024 (Zpos p) e loc_Exact) + 1)).
  { unfold shr_fexp. cbn [Zdigits2]. rewrite digits2_pos_double.
    replace (Zpos (digits2_pos p) + 1 + e) with (Zpos (digits2_pos p) + e + 1) by lia.
    rewrite fexp_succ by lia. rewrite fexp_succ in Hs by lia.
    set (F := fexp 53 1024 (Zpos (digits2_pos p) + e)) in *.
    cbn [shr_record_of_loc]. unfold shr.
    destruct (F - e) as [|n|n] eqn:Hn; try lia.
    - replace (F + 1 - e) with 1 by lia. cbn [SpecFloat.iter_pos fst snd].
      rewrite shr_1_double. f_equal; lia.
    - replace (F + 1 - e) with (Zpos (Pos.succ n)) by lia.
      rewrite iter_pos_succ, shr_1_double. cbn [fst snd]. f_equal; lia. }
  rewrite H1.
  pose proof (shr_fexp_exp_le (Zpos p) e loc_Exact) as Hle.
  destruct (shr_fexp 53 1024 (Zpos p) e loc_Exact) as [mrs' e']. cbn [fst snd] in *.
  set (m2 := round_nearest_even (shr_m mrs') (loc_of_shr_record mrs')).
  rewrite shr_fexp_succ by (pose proof (Zdigits2_nonneg m2); lia).
  destruct (shr_fexp 53 1024 m2 e' loc_Exact) as [mrs'' e'']. cbn [fst snd].
  destruct (shr_m mrs''); cbn [float_twice]; try reflexivity.
  destruct (e'' <=? (1024 - 53)) eqn:H2; cbn [float_twice].
  - reflexivity.
  - assert ((e'' + 1 <=? 1024 - 53) = false) as -> by lia. reflexivity.
Qed.

Lemma binary_round_double s p :
  binary_round 53 1024 s p~0 0 = float_twice (binary_round 53 1024 s p 0).
Proof.
  unfold binary_round. rewrite digits2_pos_double.
  replace (Zpos (digits2_pos p) + 1 + 0) with (Zpos (digits2_pos p) + 0 + 1) by lia.
  rewrite fexp_succ by lia.
  assert (HF : -52 <= fexp 53 1024 (Zpos (digits2_pos p) + 0)).
  { unfold fexp, emin. lia. }
  set (F := fexp 53 1024 (Zpos (digits2_pos p) + 0)) in *.
  unfold shl_align. rewrite !Z.sub_0_r.
  destruct F as [|k|k] eqn:HFk.
  - cbn [Z.add]. apply binary_round_aux_double; try lia.
    fold F. unfold fexp, emin in *. lia.
  - replace (Zpos k + 1) with (Zpos (k + 1)%positive) by lia.
    apply binary_round_aux_double; try lia.
    unfold fexp, emin in *. lia.
  - destruct (Pos.eq_dec k 1%positive) as [->|Hk].
    + cbn [Z.add Z.pos_sub Pos.iter]. apply (binary_round_aux_succ s (Zpos (xO p)) (-1)); lia.
    + replace (Z.neg k + 1) with (Z.neg (Pos.pred k)) by lia.
      replace (Pos.iter xO p k) with (Pos.iter xO (xO p) (Pos.pred k)).
      * replace (Z.neg (Pos.pred k)) with (Z.neg k + 1) by lia.
        apply binary_round_aux_succ; lia.
      * rewrite <- Pos.iter_succ_r. f_equal. lia.
Qed.

Lemma binary_normalize_double z :
  binary_normalize 53 1024 (2 * z) 0 false = float_twice (binary_normalize 53 1024 z 0 false).
Proof.
  destruct z as [|p|p]; cbn [Z.mul Pos.mul binary_normalize].
  - reflexivity.
  - apply binary_round_double.
  - apply binary_round_double.
Qed.

(** the exponent of a rounded number is not below the one it was given *)
Lemma binary_round_aux_exp s m e l s' m' e' :
  binary_round_aux 53 1024 s m e l = S754_finite s' m' e' -> e <= e'.
Proof.
  unfold binary_round_aux.
  pose proof (shr_fexp_exp_le m e l) as H1.
  destruct (shr_fexp 53 1024 m e l) as [mrs1 e1]. cbn [snd] in H1.
  set (m2 := round_nearest_even _ _).
  pose proof (shr_fexp_exp_le m2 e1 loc_Exact) as H2.
  destruct (shr_fexp 53 1024 m2 e1 loc_Exact) as [mrs2 e2]. cbn [snd] in H2.
  destruct (shr_m mrs2); try discriminate.
  destruct (e2 <=? 1024 - 53); [|discriminate]. intros [= _ _ <-]. lia.
Qed.

Lemma binary_normalize_exp z s m e :
  binary_normalize 53 1024 z 0 false = S754_finite s m e -> -52 <= e.
Proof.
  assert (H : forall sx p, binary_round 53 1024 sx p 0 = S754_finite s m e -> -52 <= e).
  { intros sx p. unfold binary_round, shl_align.
    assert (HF : -52 <= fexp 53 1024 (Zpos (digits2_pos p) + 0)).
    { unfold fexp, emin. lia. }
    destruct (fexp 53 1024 (Zpos (digits2_pos p) + 0) - 0) eqn:Hd;
      intros Hr; apply binary_round_aux_exp in Hr; lia. }
  destruct z; cbn [binary_normalize]; [discriminate | apply H | apply H].
Qed.

End Binary64.

(** ** Doubling the effective batch size *)

Lemma float_of_int_256_value : float_of_int 256 = Ok (S754_finite false 4503599627370496 (-44)).
Proof. vm_compute. reflexivity. Qed.

(** [blr * n / 256] for a float [blr] and an int [n] *)
Lemma lr_of_float f n :
  lr_of (VFloat f) (VInt n) =
  match float_of_int n with
  | Ok y => Ok (VFloat (float_div (float_mul f y) (S754_finite false 4503599627370496 (-44))))
  | Raise e => Raise e
  end.
Proof.
  unfold lr_of, py_mul. cbn [as_num num_mul float_op num_float].
  destruct (float_of_int n) as [y|e]; cbn [result_map of_num]; [|reflexivity].
  unfold py_truediv. cbn [as_num num_truediv num_float].
  rewrite float_of_int_256_value. reflexivity.
Qed.

Lemma float_of_int_double n y y' :
  float_of_int n = Ok y -> float_of_int (2 * n) = Ok y' -> y' = float_twice y.
Proof.
  unfold float_of_int. rewrite binary_normalize_double.
  destruct (SpecFloat.binary_normalize 53 1024 n 0 false) as [| | |s m e] eqn:Hn;
    try discriminate; intros [= <-]; cbn [float_twice];
    try (intros [= <-]; reflexivity).
  destruct (e + 1 <=? 1024 - 53)%Z; [intros [= <-]; reflexivity | discriminate].
Qed.

Lemma float_of_int_exp n s m e : float_of_int n = Ok (S754_finite s m e) -> (-52 <= e)%Z.
Proof.
  unfold float_of_int.
  destruct (SpecFloat.binary_normalize 53 1024 n 0 false) eqn:Hn; try discriminate.
  intros [= -> -> ->]. exact (binary_normalize_exp _ _ _ _ Hn).
Qed.

Lemma float_of_int_finite n y s : float_of_int n = Ok y -> y <> S754_infinity s.
Proof.
  unfold float_of_int.
  destruct (SpecFloat.binary_normalize 53 1024 n 0 false); try discriminate;
    intros [= <-]; discriminate.
Qed.

(** Doubling the effective batch size doubles the derived rate, unless the
    doubled product is out of range. *)
Lemma lr_of_double s m e n x x' :
  (-900 <= e)%Z ->
  lr_of (VFloat (S754_finite s m e)) (VInt n) = Ok (VFloat x) ->
  lr_of (VFloat (S754_finite s m e)) (VInt (2 * n)) = Ok (VFloat x') ->
  x' = float_twice x \/ exists s', x' = S754_infinity s'.
Proof.
  intros He. rewrite !lr_of_float.
  destruct (float_of_int n) as [y|] eqn:Hy; [|discriminate].
  destruct (float_of_int (2 * n)) as [y'|] eqn:Hy'; [|discriminate].
  intros [= <-] [= <-].
  pose proof (float_of_int_double n y y' Hy Hy') as Hd.
  destruct y as [sy|sy| |sy my ey]; cbn [float_twice] in Hd; subst y';
    try (left; reflexivity).
  apply float_of_int_exp in Hy.
  destruct (ey + 1 <=? 1024 - 53)%Z;
    [|exfalso; exact (float_of_int_finite _ _ _ Hy' eq_refl)].
  replace (e + (ey + 1))%Z with (e + ey + 1)%Z by lia.
  rewrite binary_round_aux_succ by lia.
  pose proof (binary_round_aux_exp (xorb s sy) (Z.pos (m * my)) (e + ey) loc_Exact) as Hz.
  destruct (binary_round_aux 53 1024 (xorb s sy) (Z.pos (m * my)) (e + ey) loc_Exact)
    as [sz|sz| |sz mz ez]; try (left; reflexivity).
  specialize (Hz _ _ _ eq_refl).
  cbn [float_twice].
  destruct (ez + 1 <=? 1024 - 53)%Z; [|right; eexists; reflexivity].
  left. unfold float_div. apply SFdiv_succ; cbn; lia.
Qed.

Lemma float_twice_Q x q :
  float_Q x = Some q ->
  float_Q (float_twice x) = None \/
  exists q', float_Q (float_twice x) = Some q' /\ (q' == 2 * q)%Q.
Proof.
  destruct x as [sx|sx| |sx mx ex]; try discriminate; cbn [float_twice float_Q].
  - intros [= <-]. right. exists 0%Q. split; reflexivity.
  - intros [= <-]. destruct (ex + 1 <=? 1024 - 53)%Z; [|left; reflexivity].
    right. eexists. split; [reflexivity|].
    rewrite Qpower_plus by discriminate. change (2 ^ 1)%Q with 2%Q. ring.
Qed.

(** ** The learning rate: the linear scaling rule *)

Lemma py_truediv_float a b v : py_truediv a b = Ok v -> exists f, v = VFloat f.
Proof.
  unfold py_truediv. destruct (as_num a), (as_num b); try discriminate.
  destruct (num_truediv _ _); [|discriminate]. intros [= <-]. eauto.
Qed.

(** The derivation step on a configuration whose learning rate is unset,
    when every operation of lines 147-151 returns. *)
Lemma derive_lr_unset E cfg tr bs accum blr x eff y z :
  reads cfg "dataloader" "batch_size" bs ->
  cfg !! "train" = Some (VDict tr) ->
  tr !! "accum_iter" = Some accum ->
  tr !! "lr" = Some VNone ->
  tr !! "blr" = Some blr ->
  py_mul bs accum = Ok x ->
  py_mul x (VInt (get_world_size E)) = Ok eff ->
  py_mul blr eff = Ok y ->
  py_truediv y (VInt 256) = Ok z ->
  derive_lr E cfg = Outcome (write_lr (train_aliases E) z tr cfg) [] (Ok eff).
Proof.
  intros Hbs Htr Hacc Hlr Hblr Hx Heff Hy Hz.
  assert (Racc : reads cfg "train" "accum_iter" accum) by (apply reads_inv; eauto).
  assert (Rlr : reads cfg "train" "lr" VNone) by (apply reads_inv; eauto).
  assert (Rblr : reads cfg "train" "blr" blr) by (apply reads_inv; eauto).
  unfold derive_lr.
  rewrite (run_bind_Ok _ _ _ _ _ _ (reads_run _ _ _ _ Hbs)).
  rewrite (run_bind_Ok _ _ _ _ _ _ (reads_run _ _ _ _ Racc)).
  rewrite Hx, (run_bind_Ok _ _ _ _ _ _ (lift_run _ _)).
  rewrite Heff, (run_bind_Ok _ _ _ _ _ _ (lift_run _ _)).
  rewrite (run_bind_Ok _ _ _ _ _ _ (reads_run _ _ _ _ Rlr)).
  cbn [is_none].
  rewrite (run_bind_Ok (_ ≫= _) _ cfg (write_lr (train_aliases E) z tr cfg) [] tt).
  - reflexivity.
  - rewrite (run_bind_Ok _ _ _ _ _ _ (reads_run _ _ _ _ Rblr)).
    rewrite Hy, (run_bind_Ok _ _ _ _ _ _ (lift_run _ _)).
    rewrite Hz, (run_bind_Ok _ _ _ _ _ _ (lift_run _ _)).
    unfold setitem2. rewrite Htr. reflexivity.
Qed.

(** The same step when one of the operations raises: the exception leaves
    [main] and nothing has been written. *)
Lemma derive_lr_unset_raises E cfg bs accum blr e :
  lr_unset cfg bs accum blr ->
  scaled_lr blr bs accum (VInt (get_world_size E)) = Raise e ->
  derive_lr E cfg = Outcome cfg [] (Raise e).
Proof.
  intros (Hbs & Racc & Rblr & Rlr) H. unfold scaled_lr, lr_of, eff_batch in H. unfold derive_lr.
  rewrite (run_bind_Ok _ _ _ _ _ _ (reads_run _ _ _ _ Hbs)).
  rewrite (run_bind_Ok _ _ _ _ _ _ (reads_run _ _ _ _ Racc)).
  destruct (py_mul bs accum) as [x|e0].
  2: { rewrite (run_bind_Raise _ _ _ _ _ _ (lift_run _ _)). cbn. congruence. }
  rewrite (run_bind_Ok _ _ _ _ _ _ (lift_run _ _)).
  destruct (py_mul x _) as [eff|e0].
  2: { rewrite (run_bind_Raise _ _ _ _ _ _ (lift_run _ _)). cbn. congruence. }
  rewrite (run_bind_Ok _ _ _ _ _ _ (lift_run _ _)).
  rewrite (run_bind_Ok _ _ _ _ _ _ (reads_run _ _ _ _ Rlr)).
  cbn [is_none].
  rewrite (run_bind_Raise (_ ≫= _) _ cfg cfg [] e); [reflexivity|].
  rewrite (run_bind_Ok _ _ _ _ _ _ (reads_run _ _ _ _ Rblr)).
  destruct (py_mul blr eff) as [y|e0].
  2: { rewrite (run_bind_Raise _ _ _ _ _ _ (lift_run _ _)). cbn. congruence. }
  rewrite (run_bind_Ok _ _ _ _ _ _ (lift_run _ _)).
  rewrite H. rewrite (run_bind_Raise _ _ _ _ _ _ (lift_run _ _)). reflexivity.
Qed.

Lemma derive_lr_unset_returns E cfg bs accum blr v :
  lr_unset cfg bs accum blr ->
  scaled_lr blr bs accum (VInt (get_world_size E)) = Ok v ->
  exists tr eff,
    cfg !! "train" = Some (VDict tr) /\
    eff_batch bs accum (VInt (get_world_size E)) = Ok eff /\
    derive_lr E cfg = Outcome (write_lr (train_aliases E) v tr cfg) [] (Ok eff).
Proof.
  intros (Hbs & Hacc & Hblr & Hlr) H. unfold scaled_lr, lr_of, eff_batch in *.
  apply reads_inv in Hacc as (tr & Htr & Hacc).
  apply reads_inv in Hblr as (tr' & Htr' & Hblr).
  rewrite Htr in Htr'. injection Htr' as <-.
  apply reads_inv in Hlr as (tr' & Htr' & Hlr).
  rewrite Htr in Htr'. injection Htr' as <-.
  destruct (py_mul bs accum) as [x|] eqn:Hx; [|discriminate H].
  destruct (py_mul x _) as [eff|] eqn:Heff; [|discriminate H].
  destruct (py_mul blr eff) as [y|] eqn:Hy; [|discriminate H].
  exists tr, eff. split; [exact Htr|]. split; [reflexivity|].
  exact (derive_lr_unset E cfg tr bs accum blr x eff y v Hbs Htr Hacc Hlr Hblr Hx Heff Hy H).
Qed.

Lemma derive_lr_set E cfg lr :
  reads cfg "train" "lr" lr -> lr <> VNone ->
  out_cfg (derive_lr E cfg) = cfg /\ derived_lr E cfg = Ok lr.
Proof.
  intros Hlr Hne.
  assert (H : out_cfg (derive_lr E cfg) = cfg).
  { eapply lr_written_set; [apply derive_lr_changes | exact Hlr | exact Hne]. }
  split; [exact H|]. unfold derived_lr. rewrite H. exact Hlr.
Qed.

Lemma eff_batch_int bs accum ws :
  eff_batch (VInt bs) (VInt accum) (VInt ws) = Ok (VInt (bs * accum * ws)).
Proof. reflexivity. Qed.

Lemma derived_lr_value E cfg bs accum blr v :
  lr_unset cfg bs accum blr ->
  scaled_lr blr bs accum (VInt (get_world_size E)) = Ok v ->
  derived_lr E cfg = Ok v /\
  out_res (derive_lr E cfg) = eff_batch bs accum (VInt (get_world_size E)).
Proof.
  intros Hu Hv.
  destruct (derive_lr_unset_returns E cfg bs accum blr v Hu Hv) as (tr & eff & Htr & Heff & Hrun).
  unfold derived_lr. rewrite Hrun. cbn [out_cfg out_res]. split; [|symmetry; exact Heff].
  apply write_lr_reads.
  unfold scaled_lr, lr_of in Hv.
  destruct (eff_batch _ _ _); [|discriminate Hv].
  destruct (py_mul _ _); [|discriminate Hv].
  apply py_truediv_float in Hv as [f ->]. reflexivity.
Qed.

(** A learning rate that was derived is the value of the scaling rule. *)
Lemma derived_lr_scaled E cfg bs accum blr x :
  lr_unset cfg bs accum blr ->
  derived_lr E cfg = Ok (VFloat x) ->
  scaled_lr blr bs accum (VInt (get_world_size E)) = Ok (VFloat x).
Proof.
  intros Hu Hx.
  destruct (scaled_lr blr bs accum (VInt (get_world_size E))) as [v|e] eqn:Hs.
  - destruct (derived_lr_value E cfg bs accum blr v Hu Hs) as [Hv _].
    rewrite Hx in Hv. symmetry. exact Hv.
  - exfalso. unfold derived_lr in Hx.
    rewrite (derive_lr_unset_raises E cfg bs accum blr e Hu Hs) in Hx. cbn [out_cfg] in Hx.
    destruct Hu as (_ & _ & _ & Hlr). unfold reads in Hlr. rewrite Hlr in Hx. discriminate Hx.
Qed.

(** C1 does not hold in floating point.  The learning rate is a binary64
    float.  With [blr = 1e308] an effective batch size of 1 derives
    [3.90625e+305] and an effective batch size of 2 derives [inf], which is
    not its double; and with [blr = 0.001] and an effective batch size of
    300 the derived rate, [0.0011718750000000002], is not the exact
    quotient. *)
Lemma doubling_overflow_counterexample :
  let E := with_world_size 1 (env_example 0) in
  let blr := VFloat (float_lit (10 ^ 308) 1) in
  derived_lr E (cfg_lr blr 1 1) = Ok (VFloat (S754_finite false 5010420900022432 963)) /\
  derived_lr E (cfg_lr blr 2 1) = Ok (VFloat (S754_infinity false)) /\
  exists f q qb,
    derived_lr E (cfg_lr (VFloat (float_lit 1 1000)) 300 1) = Ok (VFloat f) /\
    float_Q f = Some q /\ float_Q (float_lit 1 1000) = Some qb /\
    Qeq_bool q (qb * 300 / 256) = false.
Proof.
  split; [vm_compute; reflexivity|]. split; [vm_compute; reflexivity|].
  eexists _, _, _. split; [vm_compute; reflexivity|].
  split; [reflexivity|]. split; [reflexivity|]. vm_compute. reflexivity.
Qed.

(** C1, in Python's arithmetic.  The derivation step (lines 147-151).
    (1) On a configuration whose learning rate is [None], when the
    expression [blr * (batch_size * accum_iter * world_size) / 256]
    evaluates to a value, the step leaves [config['train']['lr']] equal to
    that value and returns the effective batch size; (2) when the expression
    raises (a TypeError, an OverflowError), the step raises the same and
    writes nothing.  (3) On a configuration whose learning rate is anything
    else, the step leaves the configuration, and so the learning rate, as it
    was, whatever the batch size, the accumulation factor and the world size
    are.  (4) For integer factors the effective batch size is their exact
    product, so doubling one of them doubles it.  (5) With the learning rate
    unset, integer factors and a base learning rate that is a finite float
    of exponent at least -900, doubling the effective batch size takes the
    derived learning rate to its double (the same mantissa at the next
    exponent), unless the doubled product is out of range and the derived
    rate is an infinity.  (6) The double of a float has twice its value
    where it is finite. *)
Theorem learning_rate_derivation :
  (forall E cfg bs accum blr v,
      lr_unset cfg bs accum blr ->
      scaled_lr blr bs accum (VInt (get_world_size E)) = Ok v ->
      derived_lr E cfg = Ok v /\
      out_res (derive_lr E cfg) = eff_batch bs accum (VInt (get_world_size E))) /\
  (forall E cfg bs accum blr e,
      lr_unset cfg bs accum blr ->
      scaled_lr blr bs accum (VInt (get_world_size E)) = Raise e ->
      derive_lr E cfg = Outcome cfg [] (Raise e)) /\
  (forall E cfg lr,
      reads cfg "train" "lr" lr -> lr <> VNone ->
      out_cfg (derive_lr E cfg) = cfg /\ derived_lr E cfg = Ok lr) /\
  (forall bs accum ws : Z,
      eff_batch (VInt bs) (VInt accum) (VInt ws) = Ok (VInt (bs * accum * ws)) /\
      eff_batch (VInt (2 * bs)) (VInt accum) (VInt ws) = Ok (VInt (2 * (bs * accum * ws))) /\
      eff_batch (VInt bs) (VInt (2 * accum)) (VInt ws) = Ok (VInt (2 * (bs * accum * ws))) /\
      eff_batch (VInt bs) (VInt accum) (VInt (2 * ws)) = Ok (VInt (2 * (bs * accum * ws)))) /\
  (forall E E' cfg cfg' bs accum bs' accum' s m e x x',
      lr_unset cfg (VInt bs) (VInt accum) (VFloat (S754_finite s m e)) ->
      lr_unset cfg' (VInt bs') (VInt accum') (VFloat (S754_finite s m e)) ->
      (-900 <= e)%Z ->
      (bs' * accum' * get_world_size E' = 2 * (bs * accum * get_world_size E))%Z ->
      derived_lr E cfg = Ok (VFloat x) ->
      derived_lr E' cfg' = Ok (VFloat x') ->
      x' = float_twice x \/ exists s', x' = S754_infinity s') /\
  (forall x q,
      float_Q x = Some q ->
      float_Q (float_twice x) = None \/
      exists q', float_Q (float_twice x) = Some q' /\ (q' == 2 * q)%Q).
Proof.
  split; [exact derived_lr_value|].
  split; [exact derive_lr_unset_raises|]. split; [exact derive_lr_set|].
  split; [|split; [|exact float_twice_Q]].
  - intros bs accum ws. rewrite !eff_batch_int. repeat split; do 2 f_equal; ring.
  - intros E E' cfg cfg' bs accum bs' accum' s m e x x' Hu Hu' He Hd Hx Hx'.
    apply (derived_lr_scaled E cfg _ _ _ x Hu) in Hx.
    apply (derived_lr_scaled E' cfg' _ _ _ x' Hu') in Hx'.
    unfold scaled_lr in Hx, Hx'. rewrite eff_batch_int in Hx, Hx'. rewrite Hd in Hx'.
    exact (lr_of_double s m e _ x x' He Hx Hx').
Qed.

Lemma learning_rate_derivation_witness :
  derived_lr (env_example 0) (cfg_lr (VFloat (float_lit 1 1000)) 64 2) = Ok (VFloat lr_0015) /\
  (S754_finite false 6917529027641082 (-61) = float_twice lr_0015 \/
   exists s', S754_finite false 6917529027641082 (-61) = S754_infinity s').
Proof.
  split.
  - apply (proj1 learning_rate_derivation (env_example 0) _ (VInt 64) (VInt 2)
             (VFloat (float_lit 1 1000)) (VFloat lr_0015)).
    + repeat split; vm_compute; reflexivity.
    + vm_compute. reflexivity.
  - apply (proj1 (proj2 (proj2 (proj2 (proj2 learning_rate_derivation))))
             (env_example 0) (with_world_size 6 (env_example 0))
             (cfg_lr (VFloat (float_lit 1 1000)) 64 2)
             (cfg_lr (VFloat (float_lit 1 1000)) 64 2)
             64%Z 2%Z 64%Z 2%Z false 4611686018427388%positive (-62)%Z).
    + repeat split; vm_compute; reflexivity.
    + repeat split; vm_compute; reflexivity.
    + lia.
    + reflexivity.
    + vm_compute. reflexivity.
    + vm_compute. reflexivity.
Defined.

(** ** The run up to the epoch loop *)

Lemma os_path_join_nonempty a b : a <> "" -> os_path_join a b <> "".
Proof.
  intros Ha. unfold os_path_join.
  destruct (String.prefix "/" b) eqn:Hp.
  - destruct b; [discriminate Hp | discriminate].
  - destruct a as [|c a]; [congruence|].
    destruct (String.eqb (String c a) "" || endswith_sep (String c a)); discriminate.
Qed.

Lemma if_set_nonempty d : d <> "" -> if_set (Some d) = Some d.
Proof.
  intros Hd. simpl. destruct (String.eqb_spec d ""); [congruence | reflexivity].
Qed.

Lemma init_run_Ok_inv E cfg c t u :
  init_run E cfg = Outcome c t (Ok u) ->
  c = cfg /\
  exists ddp device seed dataset dist kwargs,
    t = [InitDistributedMode ddp; TorchDevice device; ManualSeed seed;
         BuildDataset dataset; GetDataloader dist kwargs].
Proof.
  unfold init_run. intros H. inv_run. split; [reflexivity|].
  repeat eexists.
Qed.

Lemma make_output_dir_Ok_inv E cfg c t L :
  make_output_dir E cfg = Outcome c t (Ok L) ->
  c = cfg /\
  ((L = (None, None) /\ t = []) \/
   exists d, L = (Some d, Some d) /\ t = [Makedirs d; NewSummaryWriter d] /\
             is_main_process E = true /\ if_set (Some d) = Some d).
Proof.
  unfold make_output_dir. intros H.
  apply bind_Ok_inv in H as (cond & c1 & t1 & t2 & Hcond & H & ->).
  assert (Hc1 : c1 = cfg /\ t1 = [] /\
                (cond = true -> is_main_process E = true /\
                                exists v, cfg !! "output_dir" = Some v /\ truthy v = true)).
  { destruct (is_main_process E).
    - inv_run. subst cond. eauto 10.
    - inv_run. subst cond. split; [reflexivity|]. split; [reflexivity|]. discriminate. }
  destruct Hc1 as (-> & -> & Hc). destruct cond.
  - destruct (Hc eq_refl) as (Hmain & v & Hv & Htruthy).
    inv_run. split; [reflexivity|]. right.
    match goal with Ha : cfg !! "output_dir" = Some ?a |- _ =>
      rewrite Hv in Ha; injection Ha as <- end.
    match goal with Hj : py_path_join v ?b = Ok ?d |- _ =>
      destruct v as [| | | |x| |]; try discriminate Hj;
      destruct b as [| | | |y| |]; try discriminate Hj;
      injection Hj as <- end.
    subst L.
    eexists. split; [reflexivity|]. split; [reflexivity|]. split; [exact Hmain|].
    apply if_set_nonempty, os_path_join_nonempty.
    simpl in Htruthy. destruct (String.eqb_spec x ""); [discriminate | assumption].
  - inv_run. subst L. auto.
Qed.

Lemma prepare_training_Ok_inv E cfg c t u :
  prepare_training E cfg = Outcome c t (Ok u) ->
  c = cfg /\
  exists dist train epochs,
    reads cfg "ddp" "distributed" dist /\ cfg !! "train" = Some train /\
    reads cfg "train" "epochs" epochs.
Proof.
  intros H. split.
  { eapply fixed_Ok; [apply fixed_prepare_training | exact H]. }
  unfold prepare_training in H.
  apply bind_Ok_inv in H as (dist & c1 & t1 & t2 & Hdist & H & ->).
  apply getitem2_Ok_inv in Hdist as (-> & -> & Hdist).
  apply bind_Ok_inv in H as (u1 & c1 & t1 & t2' & Hddp & H & ->).
  assert (c1 = cfg) as ->.
  { eapply fixed_Ok; [|exact Hddp]. unfold fixed. fixed_auto. }
  apply bind_Ok_inv in H as (train & c1 & t3 & t4 & Htrain & H & ->).
  apply getitem_Ok_inv in Htrain as (-> & -> & Htrain).
  apply bind_Ok_inv in H as (u2 & c1 & t3 & t4' & Hopt & H & ->).
  apply emit_Ok_inv in Hopt as (-> & ->).
  apply bind_Ok_inv in H as (u3 & c1 & t3 & t4 & Hsc & H & ->).
  apply emit_Ok_inv in Hsc as (-> & ->).
  apply bind_Ok_inv in H as (u4 & c1 & t3 & t4'' & Hload & H & ->).
  assert (c1 = cfg) as ->.
  { eapply fixed_Ok; [apply fixed_load_model | exact Hload]. }
  apply bind_Ok_inv in H as (epochs & c1 & t5 & t6 & Hep & H & ->).
  apply getitem2_Ok_inv in Hep as (-> & -> & Hep).
  exists dist, train, epochs. auto.
Qed.

Lemma before_loop_nil : before_loop [].
Proof. constructor. Qed.

Lemma before_loop_app t1 t2 : before_loop t1 -> before_loop t2 -> before_loop (t1 ++ t2).
Proof. intros H1 H2. apply Forall_app. split; assumption. Qed.

Lemma before_loop_one e : in_loop e = false -> before_loop [e].
Proof. intros H. constructor; [exact H | constructor]. Qed.

Lemma before_loop_common e : common_event e = true -> before_loop [e].
Proof. intros H. apply before_loop_one. destruct e; try discriminate H; reflexivity. Qed.

Lemma before_loop_setup E cfg : before_loop (out_trace (setup E cfg)).
Proof.
  refine (proj1 (holds_setup before_loop before_loop_nil before_loop_app
                   before_loop_common E (fun _ => True) _ cfg)).
  unfold make_output_dir.
  eapply (holds_bind _ before_loop_app (fun _ => True)).
  { holds_auto before_loop_nil before_loop_app before_loop_one. }
  intros cond _. destruct cond; [|apply (holds_ret _ before_loop_nil); exact I].
  repeat (eapply (holds_bind _ before_loop_app (fun _ => True));
          [holds_auto before_loop_nil before_loop_app before_loop_one | intros ? _]).
  apply (holds_ret _ before_loop_nil); exact I.
Qed.

Lemma before_loop_observations tr :
  before_loop tr ->
  checkpoints tr = [] /\ encoder_saves tr = [] /\ log_lines tr = [] /\
  trained_epochs tr = [].
Proof.
  induction 1 as [|e tr He _ (IH1 & IH2 & IH3 & IH4)]; [auto|].
  unfold checkpoints, encoder_saves, log_lines, trained_epochs in *.
  cbn [omap list_omap]. rewrite IH1, IH2, IH3, IH4.
  destruct e; try discriminate He; auto.
Qed.

(** What a returning [setup] tells about the configuration it leaves, the
    locals and the trace. *)
Lemma setup_Ok_inv E cfg cfg1 tr1 L :
  setup E cfg = Outcome cfg1 tr1 (Ok L) ->
  lr_written E cfg cfg1 /\
  (exists dist train epochs,
     reads cfg1 "ddp" "distributed" dist /\ cfg1 !! "train" = Some train /\
     reads cfg1 "train" "epochs" epochs) /\
  (L = (None, None) \/
   exists d, L = (Some d, Some d) /\ is_main_process E = true /\
             if_set (Some d) = Some d) /\
  before_loop tr1.
Proof.
  intros H. split; [|split; [|split]].
  - pose proof (setup_changes E cfg) as Hc. rewrite H in Hc. exact Hc.
  - unfold setup in H.
    apply bind_Ok_inv in H as (L0 & c1 & t1 & t2 & _ & H & _).
    apply bind_Ok_inv in H as (u1 & c2 & t3 & t4 & _ & H & _).
    apply bind_Ok_inv in H as (eff & c3 & t5 & t6 & _ & H & _).
    apply bind_Ok_inv in H as (u2 & c4 & t7 & t8 & _ & H & _).
    apply bind_Ok_inv in H as (u3 & c5 & t9 & t10 & Hprep & H & _).
    apply ret_Ok_inv in H as (-> & _ & _).
    apply prepare_training_Ok_inv in Hprep as (-> & Hready). exact Hready.
  - unfold setup, before_model in H.
    apply bind_Ok_inv in H as (L0 & c1 & t1 & t2 & Hbefore & H & _).
    apply bind_Ok_inv in Hbefore as (u0 & c0 & t0 & t0' & _ & Hdir & _).
    apply make_output_dir_Ok_inv in Hdir as (_ & Hdir).
    assert (L0 = L) as ->.
    { apply bind_Ok_inv in H as (u1 & c2 & t3 & t4 & _ & H & _).
      apply bind_Ok_inv in H as (eff & c3 & t5 & t6 & _ & H & _).
      apply bind_Ok_inv in H as (u2 & c4 & t7 & t8 & _ & H & _).
      apply bind_Ok_inv in H as (u3 & c5 & t9 & t10 & _ & H & _).
      apply ret_Ok_inv in H as (_ & _ & H). exact H. }
    destruct Hdir as [[-> _]|(d & -> & _ & Hmain & Hd)]; [left; reflexivity|].
    right. eauto.
  - pose proof (before_loop_setup E cfg) as Hb. rewrite H in Hb. exact Hb.
Qed.

(** ** The epoch loop *)

Lemma emit_run e cfg : emit e cfg = Outcome cfg [e] (Ok tt).
Proof. reflexivity. Qed.

Lemma checkpoint_due_run cfg od e epochs :
  reads cfg "train" "epochs" epochs ->
  checkpoint_due od e cfg =
  Outcome cfg []
    (Ok match if_set od with
        | Some d => if (e `mod` 20 =? 0)%Z || py_eq_int (e + 1) epochs
                    then Some d else None
        | None => None
        end).
Proof.
  intros Hep. unfold checkpoint_due.
  destruct (if_set od) as [d|]; [|reflexivity].
  destruct (e `mod` 20 =? 0)%Z; [reflexivity|].
  rewrite (run_bind_Ok _ _ _ _ _ _ (reads_run _ _ _ _ Hep)). reflexivity.
Qed.

(** One turn of the loop returns, leaves the configuration as it is and
    makes the calls of [epoch_events]. *)
Lemma epoch_body_run E cfg od lw e dist train epochs :
  reads cfg "ddp" "distributed" dist ->
  cfg !! "train" = Some train ->
  reads cfg "train" "epochs" epochs ->
  epoch_body E od lw e cfg =
  Outcome cfg (epoch_events E cfg dist train epochs od lw e) (Ok tt).
Proof.
  intros Hdist Htrain Hep. unfold epoch_body, epoch_events.
  rewrite (run_bind_Ok _ _ _ _ _ _ (reads_run _ _ _ _ Hdist)).
  rewrite (run_bind_Ok _ _ cfg cfg (if truthy dist then [SetEpoch e] else []) tt)
    by (destruct (truthy dist); reflexivity).
  rewrite (run_bind_Ok _ _ _ _ _ _ (getitem_Some _ _ _ Htrain)).
  rewrite (run_bind_Ok _ _ _ _ _ _ (emit_run _ _)).
  rewrite (run_bind_Ok _ _ _ _ _ _ (checkpoint_due_run _ od e _ Hep)).
  destruct (if_set od) as [d|]; [|reflexivity].
  destruct ((e `mod` 20 =? 0)%Z || py_eq_int (e + 1) epochs);
    destruct (is_main_process E); destruct lw; reflexivity.
Qed.

Lemma loop_variable_cons e es bound :
  loop_variable (e :: es) bound = loop_variable es (Some e).
Proof.
  unfold loop_variable. destruct es as [|e' es]; [reflexivity|].
  rewrite last_cons_cons.
  destruct (last (e' :: es)) eqn:Hl; [reflexivity|].
  apply last_None in Hl. discriminate.
Qed.

Lemma for_each_run es body bound cfg (events : Z -> list event) :
  (forall e, body e cfg = Outcome cfg (events e) (Ok tt)) ->
  for_each es body bound cfg =
  Outcome cfg (concat (map events es)) (Ok (loop_variable es bound)).
Proof.
  intros Hbody. revert bound.
  induction es as [|e es IH]; intros bound; [reflexivity|].
  cbn [for_each]. rewrite (run_bind_Ok _ _ _ _ _ _ (Hbody e)).
  rewrite IH, loop_variable_cons. reflexivity.
Qed.

Lemma run_epochs_run E cfg od lw a b dist train :
  cfg !! "start_epoch" = Some (VInt a) ->
  reads cfg "train" "epochs" (VInt b) ->
  reads cfg "ddp" "distributed" dist ->
  cfg !! "train" = Some train ->
  let last_epoch := loop_variable (py_range a b) None in
  run_epochs E (od, lw) cfg =
  Outcome cfg
    (concat (map (epoch_events E cfg dist train (VInt b) od lw) (py_range a b)) ++
     out_trace (save_encoder od last_epoch cfg))
    (out_res (save_encoder od last_epoch cfg)).
Proof.
  intros Ha Hb Hdist Htrain last_epoch. unfold run_epochs.
  rewrite (run_bind_Ok _ _ _ _ _ _ (getitem_Some _ _ _ Ha)).
  rewrite (run_bind_Ok _ _ _ _ _ _ (reads_run _ _ _ _ Hb)).
  cbn [py_index].
  rewrite (run_bind_Ok _ _ _ _ _ _ (lift_run _ _)).
  rewrite (run_bind_Ok _ _ _ _ _ _ (lift_run _ _)).
  rewrite (run_bind_Ok _ _ _ _ _ _
             (for_each_run (py_range a b) _ None cfg _
                (fun e => epoch_body_run E cfg od lw e dist train (VInt b)
                            Hdist Htrain Hb))).
  cbn [out_cfg out_trace out_res app]. subst last_epoch.
  rewrite <- (fixed_save_encoder od _ cfg). reflexivity.
Qed.

(** The whole run, once [setup] has returned. *)
Lemma main_run E cfg cfg1 tr1 od lw a b :
  setup E cfg = Outcome cfg1 tr1 (Ok (od, lw)) ->
  cfg !! "start_epoch" = Some (VInt a) ->
  reads cfg "train" "epochs" (VInt b) ->
  exists dist train,
    let last_epoch := loop_variable (py_range a b) None in
    main E cfg =
    Outcome cfg1
      (tr1 ++
       concat (map (epoch_events E cfg1 dist train (VInt b) od lw) (py_range a b)) ++
       out_trace (save_encoder od last_epoch cfg1))
      (out_res (save_encoder od last_epoch cfg1)).
Proof.
  intros Hsetup Ha Hb.
  destruct (setup_Ok_inv _ _ _ _ _ Hsetup)
    as (Hw & (dist & train & epochs & Hdist & Htrain & Hep) & _ & _).
  exists dist, train. intros last_epoch.
  assert (Ha1 : cfg1 !! "start_epoch" = Some (VInt a)).
  { apply (lr_written_other E cfg cfg1 "start_epoch" (VInt a) Hw);
      [discriminate | reflexivity | exact Ha]. }
  assert (Hb1 : reads cfg1 "train" "epochs" (VInt b)).
  { apply (lr_written_train E cfg cfg1 "epochs" (VInt b) Hw);
      [discriminate | reflexivity | exact Hb]. }
  unfold main. rewrite (run_bind_Ok _ _ _ _ _ _ Hsetup).
  rewrite (run_epochs_run E cfg1 od lw a b dist train Ha1 Hb1 Hdist Htrain).
  reflexivity.
Qed.

Lemma save_encoder_bound od e cfg :
  save_encoder od (Some e) cfg =
  Outcome cfg
    (GetEncoder ::
     match if_set od with
     | Some d => [SaveModel (os_path_join d "encoder_fft.pth") e false cfg]
     | None => []
     end)
    (Ok tt).
Proof. unfold save_encoder. destruct (if_set od); reflexivity. Qed.

Lemma save_encoder_unbound od d cfg :
  if_set od = Some d ->
  save_encoder od None cfg = Outcome cfg [GetEncoder] (Raise (UnboundLocalError "epoch")).
Proof. intros H. unfold save_encoder. rewrite H. reflexivity. Qed.

Lemma py_range_empty a b : (b <= a)%Z -> py_range a b = [].
Proof. intros H. unfold py_range. apply seqZ_nil. lia. Qed.

Lemma loop_variable_range a b :
  (a < b)%Z -> loop_variable (py_range a b) None = Some (b - 1)%Z.
Proof.
  intros H. unfold loop_variable, py_range.
  replace (b - a)%Z with (Z.of_nat (S (Z.to_nat (b - a - 1)))) by lia.
  rewrite seqZ_S, last_snoc. f_equal. lia.
Qed.

(** ** Observations on the loop *)

Lemma omap_concat_map {A} (obs : event -> option A) (events : Z -> list event) es :
  omap obs (concat (map events es)) = concat (map (fun e => omap obs (events e)) es).
Proof.
  induction es as [|e es IH]; [reflexivity|].
  cbn [map concat]. rewrite omap_app, IH. reflexivity.
Qed.

Lemma concat_map_singleton {A} (g : Z -> A) es :
  concat (map (fun e => [g e]) es) = map g es.
Proof. induction es as [|e es IH]; [reflexivity|]. cbn. rewrite IH. reflexivity. Qed.

Lemma concat_map_if {A} (c : Z -> bool) (P : Z -> Prop) `{!forall e, Decision (P e)}
    (g : Z -> A) es :
  (forall e, c e = true <-> P e) ->
  concat (map (fun e => if c e then [g e] else []) es) = map g (filter P es).
Proof.
  intros Hc. induction es as [|e es IH]; [reflexivity|].
  cbn [map concat]. rewrite IH, filter_cons.
  destruct (c e) eqn:He; destruct (decide (P e)) as [Hp|Hp]; try reflexivity.
  - apply Hc in He. contradiction.
  - apply Hc in Hp. congruence.
Qed.

Section Turn.
Context (E : env) (cfg : config) (dist train epochs : pyval).
Context (d : string) (lw : option string) (e : Z).
Hypothesis Hd : if_set (Some d) = Some d.

Lemma checkpoints_epoch_events :
  checkpoints (epoch_events E cfg dist train epochs (Some d) lw e) =
  if (e `mod` 20 =? 0)%Z || py_eq_int (e + 1) epochs
  then [(os_path_join d ("checkpoint-" +:+ py_str_int e +:+ ".pth"), e)]
  else [].
Proof.
  unfold epoch_events. rewrite Hd.
  destruct (truthy dist), ((e `mod` 20 =? 0)%Z || py_eq_int (e + 1) epochs),
    (is_main_process E), lw; reflexivity.
Qed.

Lemma log_lines_epoch_events :
  is_main_process E = true ->
  log_lines (epoch_events E cfg dist train epochs (Some d) lw e) =
  [(os_path_join d "log.txt", log_stats (train_one_epoch E e) e)].
Proof.
  intros Hmain. unfold epoch_events. rewrite Hd, Hmain.
  destruct (truthy dist), ((e `mod` 20 =? 0)%Z || py_eq_int (e + 1) epochs), lw;
    reflexivity.
Qed.
End Turn.

Lemma trained_epochs_epoch_events E cfg dist train epochs od lw e :
  trained_epochs (epoch_events E cfg dist train epochs od lw e) = [e].
Proof.
  unfold epoch_events.
  destruct (truthy dist), (if_set od),
    ((e `mod` 20 =? 0)%Z || py_eq_int (e + 1) epochs), (is_main_process E), lw;
    reflexivity.
Qed.

Lemma save_encoder_observations od ep cfg :
  checkpoints (out_trace (save_encoder od ep cfg)) = [] /\
  log_lines (out_trace (save_encoder od ep cfg)) = [] /\
  trained_epochs (out_trace (save_encoder od ep cfg)) = [].
Proof.
  unfold save_encoder. destruct (if_set od), ep; auto.
Qed.

(** C2. On the main process with an output directory [d], start epoch 0 and
    [N] epochs in all, once the steps before the loop have returned: the full
    checkpoints saved in the whole run are, in this order, those of the
    epochs [e] of [0, N) with [e mod 20 = 0] or [e = N - 1], each under the
    name checkpoint-<e>.pth in [d]; and the run returns when [N] is
    positive. *)
Theorem checkpoint_cadence (E : env) (cfg cfg1 : config) (tr1 : list event)
    (d : string) (lw : option string) (N : Z) :
  setup E cfg = Outcome cfg1 tr1 (Ok (Some d, lw)) ->
  cfg !! "start_epoch" = Some (VInt 0) ->
  reads cfg "train" "epochs" (VInt N) ->
  checkpoints (out_trace (main E cfg)) =
    map (fun e => (os_path_join d ("checkpoint-" +:+ py_str_int e +:+ ".pth"), e))
        (filter (fun e => e `mod` 20 = 0 \/ e = N - 1)%Z (seqZ 0 N)) /\
  ((0 < N)%Z -> out_res (main E cfg) = Ok tt).
Proof.
  intros Hsetup Ha Hb.
  destruct (main_run E cfg cfg1 tr1 (Some d) lw 0 N Hsetup Ha Hb)
    as (dist & train & Hmain).
  destruct (setup_Ok_inv _ _ _ _ _ Hsetup) as (_ & _ & HL & Hbefore).
  destruct HL as [[=]|(d' & [= -> ->] & _ & Hd)].
  apply before_loop_observations in Hbefore as (Hck & _).
  cbv zeta in Hmain. rewrite Hmain. cbn [out_trace out_res]. split.
  - unfold checkpoints in *. rewrite !omap_app, Hck, omap_concat_map.
    rewrite (proj1 (save_encoder_observations _ _ _)), app_nil_r. cbn [app].
    unfold py_range. rewrite Z.sub_0_r.
    erewrite map_ext by (intros e; apply (checkpoints_epoch_events E cfg1 dist train); exact Hd).
    apply concat_map_if. intros e. cbn [py_eq_int as_num].
    rewrite orb_true_iff, !Z.eqb_eq. lia.
  - intros HN. rewrite loop_variable_range by lia.
    rewrite save_encoder_bound. reflexivity.
Qed.

Lemma checkpoint_cadence_witness :
  checkpoints (out_trace (main (env_example 0)
                               (cfg_example "st_mem_vit_base" "out" VNone 0 45))) =
  [("out/run/checkpoint-0.pth", 0%Z); ("out/run/checkpoint-20.pth", 20%Z);
   ("out/run/checkpoint-40.pth", 40%Z); ("out/run/checkpoint-44.pth", 44%Z)].
Proof.
  pose (o := setup (env_example 0) (cfg_example "st_mem_vit_base" "out" VNone 0 45)).
  destruct (checkpoint_cadence (env_example 0)
              (cfg_example "st_mem_vit_base" "out" VNone 0 45)
              (out_cfg o) (out_trace o) "out/run" (Some "out/run") 45) as [H _].
  - vm_compute. reflexivity.
  - vm_compute. reflexivity.
  - vm_compute. reflexivity.
  - rewrite H. vm_compute. reflexivity.
Defined.

(** ** Resumption *)

Lemma load_model_fixed_start E cfg :
  out_cfg (load_model E cfg) = cfg.
Proof. symmetry. apply fixed_load_model. Qed.

Lemma load_model_run E cfg r :
  cfg !! "resume" = Some r -> truthy r = true ->
  load_model E cfg = Outcome cfg [LoadCheckpoint r] (Ok (checkpoint_epoch E)).
Proof.
  intros Hr Ht. unfold load_model.
  rewrite (run_bind_Ok _ _ cfg cfg [] cfg eq_refl). rewrite Hr, Ht. reflexivity.
Qed.

Lemma prepare_training_loads E cfg c t u r :
  prepare_training E cfg = Outcome c t (Ok u) ->
  cfg !! "resume" = Some r -> truthy r = true ->
  exists t', t = t' ++ [LoadCheckpoint r].
Proof.
  intros H Hr Ht. unfold prepare_training in H.
  apply bind_Ok_inv in H as (dist & c1 & t1 & t2 & Hdist & H & ->).
  apply getitem2_Ok_inv in Hdist as (-> & -> & Hdist).
  apply bind_Ok_inv in H as (u1 & c1 & tA & t2' & Hddp & H & ->).
  assert (c1 = cfg) as ->.
  { eapply fixed_Ok; [|exact Hddp]. unfold fixed. fixed_auto. }
  apply bind_Ok_inv in H as (train & c1 & t3 & t4 & Htrain & H & ->).
  apply getitem_Ok_inv in Htrain as (-> & -> & Htrain).
  apply bind_Ok_inv in H as (u2 & c1 & t3 & t4' & Hopt & H & ->).
  apply emit_Ok_inv in Hopt as (-> & ->).
  apply bind_Ok_inv in H as (u3 & c1 & t3 & t4 & Hsc & H & ->).
  apply emit_Ok_inv in Hsc as (-> & ->).
  apply bind_Ok_inv in H as (u4 & c1 & tB & t4'' & Hload & H & ->).
  rewrite (load_model_run E cfg r Hr Ht) in Hload. injection Hload as <- <- _.
  apply bind_Ok_inv in H as (epochs & c1 & t5 & t6 & Hep & H & ->).
  apply getitem2_Ok_inv in Hep as (-> & -> & Hep).
  apply ret_Ok_inv in H as (_ & -> & _).
  exists ([] ++ tA ++ [] ++ [GetOptimizer train] ++ [NewScaler]).
  rewrite !app_nil_r. rewrite <- !app_assoc. reflexivity.
Qed.

(** With a checkpoint to resume from, the load is the last call before the
    loop. *)
Lemma setup_loads E cfg cfg1 tr1 L r :
  setup E cfg = Outcome cfg1 tr1 (Ok L) ->
  cfg1 !! "resume" = Some r -> truthy r = true ->
  exists t, tr1 = t ++ [LoadCheckpoint r].
Proof.
  intros H Hr Ht. unfold setup in H.
  apply bind_Ok_inv in H as (L0 & c1 & t1 & t2 & _ & H & ->).
  apply bind_Ok_inv in H as (u1 & c2 & t3 & t4 & _ & H & ->).
  apply bind_Ok_inv in H as (eff & c3 & t5 & t6 & _ & H & ->).
  apply bind_Ok_inv in H as (u2 & c4 & t7 & t8 & _ & H & ->).
  apply bind_Ok_inv in H as (u3 & c5 & t9 & t10 & Hprep & H & ->).
  apply ret_Ok_inv in H as (Hc & -> & _).
  assert (c5 = c4) by (eapply fixed_Ok; [apply fixed_prepare_training | exact Hprep]).
  subst c5 c4.
  destruct (prepare_training_loads _ _ _ _ _ r Hprep Hr Ht) as (t' & ->).
  exists (t1 ++ t3 ++ t5 ++ t7 ++ t'). rewrite app_nil_r, <- !app_assoc. reflexivity.
Qed.

Lemma bind_ext {A B} (m m' : M A) (f f' : A -> M B) cfg :
  m cfg = m' cfg -> (forall a c, f a c = f' a c) -> (m ≫= f) cfg = (m' ≫= f') cfg.
Proof.
  intros Hm Hf. rewrite !run_bind, Hm.
  destruct (out_res (m' cfg)); [rewrite Hf|]; reflexivity.
Qed.

(** [main] drops what [load_model] returns. *)
Lemma load_model_discarded E ce {B} (k : M B) cfg :
  (load_model (with_checkpoint_epoch ce E) ≫= fun _ => k) cfg =
  (load_model E ≫= fun _ => k) cfg.
Proof.
  rewrite !run_bind. unfold load_model. rewrite !run_bind. cbn [get_config out_res out_cfg out_trace].
  destruct (cfg !! "resume") as [v|]; [destruct (truthy v)|]; reflexivity.
Qed.

Lemma prepare_training_any_checkpoint E ce cfg :
  prepare_training (with_checkpoint_epoch ce E) cfg = prepare_training E cfg.
Proof.
  unfold prepare_training.
  apply bind_ext; [reflexivity | intros dist c].
  apply bind_ext; [reflexivity | intros _ c'].
  apply bind_ext; [reflexivity | intros train c''].
  apply bind_ext; [reflexivity | intros _ c3].
  apply bind_ext; [reflexivity | intros _ c4].
  apply load_model_discarded.
Qed.

Lemma main_any_checkpoint E ce cfg :
  main (with_checkpoint_epoch ce E) cfg = main E cfg.
Proof.
  unfold main. apply bind_ext; [|reflexivity].
  unfold setup.
  apply bind_ext; [reflexivity | intros L c].
  apply bind_ext; [reflexivity | intros _ c'].
  apply bind_ext; [reflexivity | intros eff c''].
  apply bind_ext; [reflexivity | intros _ c3].
  apply bind_ext; [apply prepare_training_any_checkpoint | reflexivity].
Qed.

(** C6. The load step leaves the configuration, and so
    [config['start_epoch']], as it is, whatever the checkpoint holds; with a
    checkpoint to resume from, the load is the last call before the loop,
    and what it returns is dropped: the run is the same whatever epoch the
    checkpoint stores.  Once the steps before the loop have returned, the
    epochs trained are those of
    [range(config['start_epoch'], config['train']['epochs'])] in order: the
    first one, when there is one, is [config['start_epoch']]. *)
Theorem epochs_start_at_start_epoch (E : env) (cfg cfg1 : config) (tr1 : list event)
    (L : option string * option string) (a b : Z) :
  setup E cfg = Outcome cfg1 tr1 (Ok L) ->
  cfg !! "start_epoch" = Some (VInt a) ->
  reads cfg "train" "epochs" (VInt b) ->
  out_cfg (load_model E cfg) = cfg /\
  cfg1 !! "start_epoch" = Some (VInt a) /\
  trained_epochs (out_trace (main E cfg)) = seqZ a (b - a) /\
  ((a < b)%Z -> head (trained_epochs (out_trace (main E cfg))) = Some a) /\
  (forall r, cfg1 !! "resume" = Some r -> truthy r = true ->
     exists t, tr1 = t ++ [LoadCheckpoint r]) /\
  (forall ce, main (with_checkpoint_epoch ce E) cfg = main E cfg).
Proof.
  intros Hsetup Ha Hb. destruct L as [od lw].
  destruct (main_run E cfg cfg1 tr1 od lw a b Hsetup Ha Hb) as (dist & train & Hmain).
  destruct (setup_Ok_inv _ _ _ _ _ Hsetup) as (Hw & _ & _ & Hbefore).
  apply before_loop_observations in Hbefore as (_ & _ & _ & Htr).
  assert (Hepochs : trained_epochs (out_trace (main E cfg)) = seqZ a (b - a)).
  { cbv zeta in Hmain. rewrite Hmain. cbn [out_trace].
    unfold trained_epochs in *. rewrite !omap_app, Htr, omap_concat_map.
    rewrite (proj2 (proj2 (save_encoder_observations _ _ _))), app_nil_r. cbn [app].
    erewrite map_ext by (intros e; apply trained_epochs_epoch_events).
    rewrite (concat_map_singleton (fun e => e)), map_id. reflexivity. }
  split; [apply load_model_fixed_start|]. split; [|split; [|split; [|split]]].
  - apply (lr_written_other E cfg cfg1 "start_epoch" (VInt a) Hw);
      [discriminate | reflexivity | exact Ha].
  - exact Hepochs.
  - intros Hlt. rewrite Hepochs, seqZ_cons by lia. reflexivity.
  - intros r. apply (setup_loads E cfg cfg1 tr1 (od, lw) r Hsetup).
  - intros ce. apply main_any_checkpoint.
Qed.

Lemma epochs_start_at_start_epoch_witness :
  let cfg := <["resume" := VStr "ckpt.pth"]> (cfg_example "st_mem_vit_base" "out" VNone 5 8) in
  checkpoint_epoch (env_example 0) = Some 7%Z /\
  trained_epochs (out_trace (main (env_example 0) cfg)) = [5; 6; 7]%Z /\
  LoadCheckpoint (VStr "ckpt.pth") ∈ out_trace (setup (env_example 0) cfg) /\
  main (with_checkpoint_epoch (Some 2%Z) (env_example 0)) cfg = main (env_example 0) cfg.
Proof.
  intros cfg.
  pose (o := setup (env_example 0) cfg).
  destruct (epochs_start_at_start_epoch (env_example 0) cfg
              (out_cfg o) (out_trace o) (Some "out/run", Some "out/run") 5 8)
    as (_ & _ & H & _ & Hload & Hce).
  - vm_compute. reflexivity.
  - vm_compute. reflexivity.
  - vm_compute. reflexivity.
  - split; [reflexivity|]. split; [rewrite H; vm_compute; reflexivity|]. split.
    + destruct (Hload (VStr "ckpt.pth")) as (t & Ht); [vm_compute; reflexivity | reflexivity |].
      fold o. rewrite Ht. apply elem_of_app. right. apply list_elem_of_here.
    + apply Hce.
Defined.

(** ** The loop that never runs *)

(** C7. On the main process with an output directory, once the steps
    before the loop have returned: when [config['start_epoch']] is not below
    [config['train']['epochs']] the loop body never runs, and [main] raises
    UnboundLocalError for [epoch] where it saves the encoder, after fetching
    the encoder and before [misc.save_model] is called.  No encoder
    artifact is saved. *)
Theorem empty_loop_unbound_epoch (E : env) (cfg cfg1 : config) (tr1 : list event)
    (d : string) (lw : option string) (a b : Z) :
  setup E cfg = Outcome cfg1 tr1 (Ok (Some d, lw)) ->
  cfg !! "start_epoch" = Some (VInt a) ->
  reads cfg "train" "epochs" (VInt b) ->
  (b <= a)%Z ->
  main E cfg = Outcome cfg1 (tr1 ++ [GetEncoder]) (Raise (UnboundLocalError "epoch")) /\
  trained_epochs (out_trace (main E cfg)) = [] /\
  encoder_saves (out_trace (main E cfg)) = [].
Proof.
  intros Hsetup Ha Hb Hle.
  destruct (main_run E cfg cfg1 tr1 (Some d) lw a b Hsetup Ha Hb)
    as (dist & train & Hmain).
  destruct (setup_Ok_inv _ _ _ _ _ Hsetup) as (_ & _ & HL & Hbefore).
  destruct HL as [[=]|(d' & [= -> ->] & _ & Hd)].
  apply before_loop_observations in Hbefore as (_ & Henc & _ & Htr).
  cbv zeta in Hmain. rewrite py_range_empty in Hmain by exact Hle.
  change (loop_variable [] None) with (@None Z) in Hmain.
  rewrite (save_encoder_unbound _ d' cfg1 Hd) in Hmain.
  cbn [map concat app out_trace out_res] in Hmain.
  rewrite Hmain. cbn [out_trace]. split; [reflexivity|].
  unfold trained_epochs, encoder_saves in *.
  rewrite !omap_app, Htr, Henc. split; reflexivity.
Qed.

Lemma empty_loop_unbound_epoch_witness :
  out_res (main (env_example 0) (cfg_example "st_mem_vit_base" "out" VNone 3 3)) =
  Raise (UnboundLocalError "epoch").
Proof.
  pose (o := setup (env_example 0) (cfg_example "st_mem_vit_base" "out" VNone 3 3)).
  destruct (empty_loop_unbound_epoch (env_example 0)
              (cfg_example "st_mem_vit_base" "out" VNone 3 3)
              (out_cfg o) (out_trace o) "out/run" (Some "out/run") 3 3)
    as (H & _).
  - vm_compute. reflexivity.
  - vm_compute. reflexivity.
  - vm_compute. reflexivity.
  - lia.
  - rewrite H. reflexivity.
Defined.

(** ** The log *)

Lemma log_stats_epoch stats e : log_stats stats e !! "epoch" = Some (VInt e).
Proof. unfold log_stats. apply lookup_insert_eq. Qed.

Lemma log_stats_train stats e k :
  log_stats stats e !! ("train_" +:+ k) = stats !! k.
Proof.
  unfold log_stats. rewrite lookup_insert_ne by discriminate.
  apply (lookup_kmap (String.append "train_")).
Qed.

Lemma log_stats_dom stats e :
  dom (log_stats stats e) = {["epoch"]} ∪ set_map (String.append "train_") (dom stats).
Proof.
  unfold log_stats. rewrite dom_insert_L.
  rewrite (dom_kmap_L (String.append "train_")). reflexivity.
Qed.

(** C8 does not hold for every run: a single process with no output
    directory completes epochs 0 and 1 and appends no line. *)
Lemma log_line_per_epoch_counterexample :
  let o := main (env_example 0) (cfg_example "st_mem_vit_base" "" VNone 0 2) in
  out_res o = Ok tt /\
  trained_epochs (out_trace o) = [0; 1]%Z /\
  log_lines (out_trace o) = [].
Proof. vm_compute. repeat split; reflexivity. Qed.

Lemma log_lines_epoch_events_unset E cfg dist train epochs lw e :
  log_lines (epoch_events E cfg dist train epochs None lw e) = [].
Proof. unfold epoch_events. destruct (truthy dist); reflexivity. Qed.

(** C8, under the guard of line 209.  Once the steps before the loop have
    returned: on the main process with an output directory [d], the lines
    appended in the whole run are, in order, one per epoch of
    [range(start_epoch, epochs)], each to log.txt in [d]; a process whose
    [output_dir] is [None] appends no line.  The record of epoch [e] has
    exactly the keys ['epoch'], mapped to [e], and ['train_' + k] for each
    statistic [k] of the epoch, mapped to its value. *)
Theorem log_record_shape (E : env) (cfg cfg1 : config) (tr1 : list event)
    (output_dir log_writer : option string) (a b : Z) :
  setup E cfg = Outcome cfg1 tr1 (Ok (output_dir, log_writer)) ->
  cfg !! "start_epoch" = Some (VInt a) ->
  reads cfg "train" "epochs" (VInt b) ->
  log_lines (out_trace (main E cfg)) =
    match output_dir with
    | Some d =>
        map (fun e => (os_path_join d "log.txt", log_stats (train_one_epoch E e) e))
            (seqZ a (b - a))
    | None => []
    end /\
  forall e,
    dom (log_stats (train_one_epoch E e) e) =
      {["epoch"]} ∪ set_map (String.append "train_") (dom (train_one_epoch E e)) /\
    log_stats (train_one_epoch E e) e !! "epoch" = Some (VInt e) /\
    forall k, log_stats (train_one_epoch E e) e !! ("train_" +:+ k) =
              train_one_epoch E e !! k.
Proof.
  intros Hsetup Ha Hb.
  destruct (main_run E cfg cfg1 tr1 output_dir log_writer a b Hsetup Ha Hb)
    as (dist & train & Hmain).
  destruct (setup_Ok_inv _ _ _ _ _ Hsetup) as (_ & _ & HL & Hbefore).
  apply before_loop_observations in Hbefore as (_ & _ & Hlog & _).
  split.
  - cbv zeta in Hmain. rewrite Hmain. cbn [out_trace].
    unfold log_lines in *. rewrite !omap_app, Hlog, omap_concat_map.
    rewrite (proj1 (proj2 (save_encoder_observations _ _ _))), app_nil_r. cbn [app].
    destruct HL as [[= -> ->]|(d & [= -> ->] & Hproc & Hd)].
    + erewrite map_ext by (intros e; apply log_lines_epoch_events_unset).
      clear. induction (py_range a b) as [|e es IH]; [reflexivity | exact IH].
    + erewrite map_ext
        by (intros e; apply (log_lines_epoch_events E cfg1 dist train); assumption).
      apply concat_map_singleton.
  - intros e. split; [apply log_stats_dom|]. split; [apply log_stats_epoch|].
    intros k. apply log_stats_train.
Qed.

Lemma log_record_shape_witness :
  map (fun l => snd l !! "epoch")
      (log_lines (out_trace (main (env_example 0)
                                  (cfg_example "st_mem_vit_base" "out" VNone 0 2)))) =
  [Some (VInt 0); Some (VInt 1)].
Proof.
  pose (o := setup (env_example 0) (cfg_example "st_mem_vit_base" "out" VNone 0 2)).
  destruct (log_record_shape (env_example 0)
              (cfg_example "st_mem_vit_base" "out" VNone 0 2)
              (out_cfg o) (out_trace o) (Some "out/run") (Some "out/run") 0 2)
    as (H & _).
  - vm_compute. reflexivity.
  - vm_compute. reflexivity.
  - vm_compute. reflexivity.
  - rewrite H. vm_compute. reflexivity.
Defined.

(** ** The unsupported model *)

Lemma before_model_Ok_inv E cfg c t L :
  before_model E cfg = Outcome c t (Ok L) ->
  c = cfg /\
  exists ddp device seed dataset dist kwargs,
    t = [InitDistributedMode ddp; TorchDevice device; ManualSeed seed;
         BuildDataset dataset; GetDataloader dist kwargs] ++
        match fst L with
        | Some d => [Makedirs d; NewSummaryWriter d]
        | None => []
        end.
Proof.
  unfold before_model. intros H.
  apply bind_Ok_inv in H as (u & c1 & t1 & t2 & Hinit & Hdir & ->).
  apply init_run_Ok_inv in Hinit as (-> & ddp & device & seed & dataset & dist & kwargs & ->).
  apply make_output_dir_Ok_inv in Hdir as (-> & Hdir).
  split; [reflexivity|]. exists ddp, device, seed, dataset, dist, kwargs.
  destruct Hdir as [[-> ->]|(d & -> & -> & _)]; reflexivity.
Qed.

Lemma py_kwargs_raises given m e : py_kwargs given m = Raise e -> e = TypeError.
Proof.
  unfold py_kwargs. destruct m; try (intros [= <-]; reflexivity).
  destruct (existsb _ _); [intros [= <-]; reflexivity | discriminate].
Qed.

(** What the model definition raises for a [model_name] that is no
    supported identifier. *)
Lemma define_model_unsupported E cfg name :
  cfg !! "model_name" = Some name ->
  ~ supported E name ->
  exists e,
    define_model E cfg = Outcome cfg [] (Raise e) /\
    match py_in_models E name with
    | Ok None => e = ValueError_unsupported_model name
    | Ok (Some _) => e = TypeError \/ e = KeyError "model"
    | Raise _ => e = TypeError
    end.
Proof.
  intros Hname Hno. unfold define_model.
  rewrite (run_bind_Ok _ _ _ _ _ _ (getitem_Some _ _ _ Hname)).
  destruct (py_in_models E name) as [[s|]|e] eqn:Hin.
  - rewrite (run_bind_Ok _ _ _ _ _ _ (lift_run _ _)).
    assert (Hcall : callable E s = false).
    { destruct (callable E s) eqn:Hc; [|reflexivity]. exfalso. apply Hno.
      destruct name; try discriminate Hin. simpl in Hin.
      destruct (decide (s0 ∈ models E)) as [Hm|]; [|discriminate Hin].
      injection Hin as ->. exists s. auto. }
    destruct (cfg !! "model") as [m|] eqn:Hm.
    + rewrite (run_bind_Ok _ _ _ _ _ _ (getitem_Some _ _ _ Hm)).
      destruct (py_kwargs [] m) as [kwargs|e] eqn:Hkw.
      * rewrite (run_bind_Ok _ _ _ _ _ _ (lift_run _ _)). rewrite Hcall.
        exists TypeError. split; [reflexivity | left; reflexivity].
      * rewrite (run_bind_Raise _ _ _ _ _ _ (lift_run _ _)).
        exists e. split; [reflexivity|]. left. exact (py_kwargs_raises _ _ _ Hkw).
    + rewrite (run_bind_Raise _ _ _ _ _ _ (getitem_None _ _ Hm)).
      exists (KeyError "model"). split; [reflexivity | right; reflexivity].
  - rewrite (run_bind_Ok _ _ _ _ _ _ (lift_run _ _)). eexists. split; reflexivity.
  - rewrite (run_bind_Raise _ _ _ _ _ _ (lift_run _ _)). exists e. split; [reflexivity|].
    destruct name; simpl in Hin; try discriminate Hin; injection Hin as <-; reflexivity.
Qed.

(** C4 does not hold as the specification puts it (no allocation before
    the error, and always a ValueError).  With a model name that is not
    supported, [main] raises the ValueError after it has built the dataset and the data loader
    and, on the main process with an output directory, after it has created
    the directory and the log writer: allocations do come before the error.
    And the error is not always the ValueError: a [model_name] that is a
    list raises TypeError at the membership test, and ['__name__'], a name
    of the namespace that is no model, raises TypeError at the call. *)
Lemma fail_fast_counterexample :
  (let o := main (env_example 0) (cfg_example "nope" "out" VNone 0 3) in
   py_in_models (env_example 0) (VStr "nope") = Ok None /\
   out_res o = Raise (ValueError_unsupported_model (VStr "nope")) /\
   exists ddp device seed dataset dist kwargs,
     out_trace o =
     [InitDistributedMode ddp; TorchDevice device; ManualSeed seed;
      BuildDataset dataset; GetDataloader dist kwargs;
      Makedirs "out/run"; NewSummaryWriter "out/run"]) /\
  out_res (main (env_example 0)
             (<["model_name" := VList [VStr "nope"]]> (cfg_example "nope" "out" VNone 0 3)))
  = Raise TypeError /\
  out_res (main env_namespace (cfg_example "__name__" "out" VNone 0 3)) = Raise TypeError.
Proof.
  split; [|split; vm_compute; reflexivity].
  vm_compute. split; [reflexivity|]. split; [reflexivity|]. repeat eexists.
Qed.

(** C4, as the code orders it.  When the steps before the model
    definition (lines 97-130) return and [config['model_name']] is not a supported model
    identifier, [main] raises with the configuration as it was:
    ValueError('Unsupported model name') for a hashable value that is not a
    name of [models], TypeError for an unhashable one, and TypeError (or the
    KeyError of a missing [config['model']]) for a name of [models] that is
    not callable.  By then the distributed mode is initialised, the seed
    set, the dataset and the data loader built and, where the process has an
    output directory, the directory and the log writer created; the model,
    the DDP wrapper, the optimizer and the loss scaler are not, no
    checkpoint is loaded and no epoch is run. *)
Theorem unsupported_model_raises (E : env) (cfg cfg1 : config) (tr1 : list event)
    (L : option string * option string) (name : pyval) :
  before_model E cfg = Outcome cfg1 tr1 (Ok L) ->
  cfg !! "model_name" = Some name ->
  ~ supported E name ->
  (exists e,
     main E cfg = Outcome cfg tr1 (Raise e) /\
     match py_in_models E name with
     | Ok None => e = ValueError_unsupported_model name
     | Ok (Some _) => e = TypeError \/ e = KeyError "model"
     | Raise _ => e = TypeError
     end) /\
  (exists ddp device seed dataset dist kwargs,
     tr1 = [InitDistributedMode ddp; TorchDevice device; ManualSeed seed;
            BuildDataset dataset; GetDataloader dist kwargs] ++
           match fst L with
           | Some d => [Makedirs d; NewSummaryWriter d]
           | None => []
           end) /\
  Forall (fun e => from_model_on e = false) (out_trace (main E cfg)).
Proof.
  intros Hbefore Hname Hno.
  destruct (before_model_Ok_inv _ _ _ _ _ Hbefore)
    as (-> & ddp & device & seed & dataset & dist & kwargs & Htr).
  destruct (define_model_unsupported E cfg name Hname Hno) as (e & Hdef & He).
  assert (Hmain : main E cfg = Outcome cfg tr1 (Raise e)).
  { unfold main. apply run_bind_Raise. unfold setup.
    rewrite (run_bind_Ok _ _ _ _ _ _ Hbefore).
    rewrite (run_bind_Raise _ _ _ _ _ _ Hdef).
    cbn [out_cfg out_trace out_res]. rewrite app_nil_r. reflexivity. }
  split; [exists e; split; [exact Hmain | exact He]|]. split; [eauto 10|].
  rewrite Hmain. cbn [out_trace]. rewrite Htr.
  destruct (fst L); repeat constructor.
Qed.

Lemma unsupported_model_raises_witness :
  out_res (main (env_example 1) (cfg_example "nope" "out" VNone 0 3)) =
  Raise (ValueError_unsupported_model (VStr "nope")) /\
  out_res (main env_namespace (cfg_example "__name__" "out" VNone 0 3)) = Raise TypeError.
Proof.
  split.
  - pose (o := before_model (env_example 1) (cfg_example "nope" "out" VNone 0 3)).
    destruct (unsupported_model_raises (env_example 1)
                (cfg_example "nope" "out" VNone 0 3)
                (out_cfg o) (out_trace o) (None, None) (VStr "nope"))
      as ((e & H & He) & _).
    + vm_compute. reflexivity.
    + vm_compute. reflexivity.
    + intros (s & [= <-] & Hin & _). cbn [models env_example] in Hin.
      apply elem_of_singleton in Hin. discriminate Hin.
    + rewrite H. cbn [out_res]. f_equal. exact He.
  - pose (o := before_model env_namespace (cfg_example "__name__" "out" VNone 0 3)).
    destruct (unsupported_model_raises env_namespace
                (cfg_example "__name__" "out" VNone 0 3)
                (out_cfg o) (out_trace o) (Some "out/run", Some "out/run") (VStr "__name__"))
      as ((e & H & He) & _).
    + vm_compute. reflexivity.
    + vm_compute. reflexivity.
    + intros (s & [= <-] & _ & Hc). discriminate Hc.
    + rewrite H. cbn [out_res].
      assert (Hin : py_in_models env_namespace (VStr "__name__") = Ok (Some "__name__"))
        by (vm_compute; reflexivity).
      rewrite Hin in He. destruct He as [->| ->]; [reflexivity|].
      exfalso. assert (Hm : out_res (main env_namespace (cfg_example "__name__" "out" VNone 0 3))
                            = Raise TypeError) by (vm_compute; reflexivity).
      rewrite H in Hm. discriminate Hm.
Defined.

(** ** [parse]: the falsy-skip merge *)

Lemma merge_absent (l : list (string * pyval)) (loaded : config) k :
  k ∉ l.*1 ->
  foldl (fun (config : config) '(k, v) => if truthy v then <[k := v]> config else config)
        loaded l !! k = loaded !! k.
Proof.
  revert loaded. induction l as [|[k' v'] l IH]; intros loaded Hk; [reflexivity|].
  cbn [foldl]. rewrite fmap_cons, not_elem_of_cons in Hk. destruct Hk as [Hne Hk].
  rewrite IH by exact Hk. cbn in Hne.
  destruct (truthy v'); [|reflexivity].
  apply lookup_insert_ne. congruence.
Qed.

Lemma merge_present (l : list (string * pyval)) (loaded : config) k v :
  NoDup l.*1 -> (k, v) ∈ l ->
  foldl (fun (config : config) '(k, v) => if truthy v then <[k := v]> config else config)
        loaded l !! k = if truthy v then Some v else loaded !! k.
Proof.
  revert loaded. induction l as [|[k' v'] l IH]; intros loaded Hnd Hin.
  { apply elem_of_nil in Hin. contradiction. }
  rewrite fmap_cons, NoDup_cons in Hnd. destruct Hnd as [Hk' Hnd]. cbn in Hk'.
  cbn [foldl]. apply elem_of_cons in Hin as [[= -> ->]|Hin].
  - rewrite merge_absent by exact Hk'.
    destruct (truthy v'); [apply lookup_insert_eq | reflexivity].
  - rewrite IH by assumption.
    assert (k' <> k).
    { intros ->. apply Hk'. apply list_elem_of_fmap. exists (k, v). auto. }
    destruct (truthy v), (truthy v'); try reflexivity.
    apply lookup_insert_ne. assumption.
Qed.

Lemma vars_NoDup args : NoDup (vars args).*1.
Proof. cbn. apply (bool_decide_unpack _). vm_compute. exact I. Qed.

(** C5. In [parse] the value of an argument replaces the value from the
    configuration file exactly when it is truthy; a falsy one (the empty
    string, 0) leaves the file's value, or its absence, in effect, and keys
    that are no arguments are never touched.  With [start_epoch: 5] in the
    file, the override 0 gives 5 and the override 10 gives 10. *)
Theorem parse_falsy_skip :
  (forall args loaded k v,
      (k, v) ∈ vars args ->
      parse args loaded !! k = if truthy v then Some v else loaded !! k) /\
  (forall args loaded k,
      k ∉ (vars args).*1 -> parse args loaded !! k = loaded !! k) /\
  (forall config_path output_dir exp_name resume loaded,
      loaded !! "start_epoch" = Some (VInt 5) ->
      parse (Args.Make config_path output_dir exp_name resume 0) loaded !! "start_epoch"
        = Some (VInt 5) /\
      parse (Args.Make config_path output_dir exp_name resume 10) loaded !! "start_epoch"
        = Some (VInt 10)).
Proof.
  split; [|split].
  - intros args loaded k v Hin. apply merge_present; [apply vars_NoDup | exact Hin].
  - intros args loaded k Hk. apply merge_absent. exact Hk.
  - intros config_path output_dir exp_name resume loaded H5. split.
    + rewrite <- H5.
      apply (merge_present (vars (Args.Make config_path output_dir exp_name resume 0))
               loaded "start_epoch" (VInt 0)); [apply vars_NoDup | set_solver].
    + apply (merge_present (vars (Args.Make config_path output_dir exp_name resume 10))
               loaded "start_epoch" (VInt 10)); [apply vars_NoDup | set_solver].
Qed.

Lemma parse_falsy_skip_witness :
  parse (Args.Make "config.yaml" "" "" "" 0) {[ "start_epoch" := VInt 5 ]} !! "start_epoch"
    = Some (VInt 5) /\
  parse (Args.Make "config.yaml" "" "" "" 10) {[ "start_epoch" := VInt 5 ]} !! "start_epoch"
    = Some (VInt 10).
Proof.
  apply (proj2 (proj2 parse_falsy_skip)). reflexivity.
Defined.

(** ** Flush before log, epoch by epoch *)

Lemma before_loop_log_writes tr : before_loop tr -> log_writes tr = [].
Proof.
  induction 1 as [|e tr He _ IH]; [reflexivity|].
  unfold log_writes in *. cbn [omap list_omap]. rewrite IH.
  destruct e; try discriminate He; reflexivity.
Qed.

Lemma log_writes_epoch_events E cfg dist train epochs d e :
  if_set (Some d) = Some d ->
  is_main_process E = true ->
  log_writes (epoch_events E cfg dist train epochs (Some d) (Some d) e) =
  [FlushWriter d;
   AppendLine (os_path_join d "log.txt") (log_stats (train_one_epoch E e) e)].
Proof.
  intros Hd Hmain. unfold epoch_events. rewrite Hd, Hmain.
  destruct (truthy dist), ((e `mod` 20 =? 0)%Z || py_eq_int (e + 1) epochs);
    reflexivity.
Qed.

(** In a paired trace every prefix has as many flushes as appends, or one
    flush more: the flush whose line is due. *)
Lemma paired_balance p r pending :
  flush_log_paired pending (p ++ r) = true ->
  exists pending',
    flush_log_paired pending' r = true /\
    (flushes p + Nat.b2n pending = appends p + Nat.b2n pending')%nat.
Proof.
  revert pending. induction p as [|e p IH]; intros pending H.
  - exists pending. split; [exact H | reflexivity].
  - cbn [app] in H.
    destruct e; cbn [flush_log_paired] in H;
      apply andb_prop in H as [Hp H]; destruct pending; try discriminate Hp;
      destruct (IH _ H) as (b' & Hr & Hb); exists b'; (split; [exact Hr|]);
      cbn [flushes appends Nat.b2n] in *; lia.
Qed.

Lemma paired_prefix tr p :
  flush_log_paired false tr = true -> p `prefix_of` tr ->
  (appends p <= flushes p <= S (appends p))%nat.
Proof.
  intros H [r ->]. destruct (paired_balance p r false H) as ([] & _ & Hb);
    cbn [Nat.b2n] in Hb; lia.
Qed.

Lemma paired_level tr :
  flush_log_paired false tr = true -> flushes tr = appends tr.
Proof.
  intros H. rewrite <- (app_nil_r tr) in H.
  destruct (paired_balance tr [] false H) as ([] & Hr & Hb); [discriminate Hr|].
  cbn [Nat.b2n] in Hb. lia.
Qed.

(** C9 does not hold in its conclusion.  The flush comes before the write,
    so an execution that stops between the two leaves the monitoring stream ahead
    of the log: in a run of two epochs, the calls up to the first flush
    hold one flush and no line yet. *)
Lemma stream_ahead_counterexample :
  let tr := out_trace (main (env_example 0) (cfg_example "st_mem_vit_base" "out" VNone 0 2)) in
  exists p, p `prefix_of` tr /\ last p = Some (FlushWriter "out/run") /\
            flushes p = 1%nat /\ appends p = 0%nat.
Proof.
  intros tr. exists (take 14 tr). split; [apply prefix_take|].
  vm_compute. auto.
Qed.

(** C9, as the order of the calls has it.  In every run of [main],
    whatever the configuration and however the run ends, each line appended to log.txt is immediately
    preceded by one flush of the monitoring stream, and each flush is
    immediately followed by the append of a line.  So at every point of the
    run the flushes made are as many as the lines written, or one more (the
    flush whose line is due): the log is never ahead of the monitoring
    stream, and once [main] is over the two are level.  On the main process
    with an output directory [d], once the steps before the loop have
    returned, the flushes and appends of the whole run are, epoch by epoch,
    one flush and then the line of that epoch. *)
Theorem flush_before_log (E : env) (cfg : config) :
  flush_log_paired false (out_trace (main E cfg)) = true /\
  (forall p, p `prefix_of` out_trace (main E cfg) ->
     (appends p <= flushes p <= S (appends p))%nat) /\
  flushes (out_trace (main E cfg)) = appends (out_trace (main E cfg)) /\
  forall cfg1 tr1 d lw a b,
    setup E cfg = Outcome cfg1 tr1 (Ok (Some d, lw)) ->
    cfg !! "start_epoch" = Some (VInt a) ->
    reads cfg "train" "epochs" (VInt b) ->
    log_writes (out_trace (main E cfg)) =
    concat (map (fun e => [FlushWriter d;
                           AppendLine (os_path_join d "log.txt")
                                      (log_stats (train_one_epoch E e) e)])
                (seqZ a (b - a))).
Proof.
  split; [apply paired_main|].
  split; [intros p; apply paired_prefix, paired_main|].
  split; [apply paired_level, paired_main|].
  intros cfg1 tr1 d lw a b Hsetup Ha Hb.
  destruct (main_run E cfg cfg1 tr1 (Some d) lw a b Hsetup Ha Hb)
    as (dist & train & Hmain).
  destruct (setup_Ok_inv _ _ _ _ _ Hsetup) as (_ & _ & HL & Hbefore).
  destruct HL as [[=]|(d' & [= -> ->] & Hproc & Hd)].
  apply before_loop_log_writes in Hbefore.
  cbv zeta in Hmain. rewrite Hmain. cbn [out_trace].
  unfold log_writes in *. rewrite !omap_app, Hbefore, omap_concat_map. cbn [app].
  replace (omap _ (out_trace (save_encoder _ _ _))) with (@nil event)
    by (unfold save_encoder; destruct (if_set (Some d')), (loop_variable _ _);
        reflexivity).
  rewrite app_nil_r. f_equal. apply map_ext. intros e.
  apply (log_writes_epoch_events E cfg1 dist train (VInt b) d' e Hd Hproc).
Qed.

Lemma flush_before_log_witness :
  let tr := out_trace (main (env_example 0) (cfg_example "st_mem_vit_base" "out" VNone 0 2)) in
  map (fun e => match e with FlushWriter _ => "flush" | _ => "line" end) (log_writes tr) =
  ["flush"; "line"; "flush"; "line"] /\
  (appends (take 14 tr) <= flushes (take 14 tr) <= S (appends (take 14 tr)))%nat /\
  flushes tr = 2%nat /\ appends tr = 2%nat.
Proof.
  intros tr.
  pose (o := setup (env_example 0) (cfg_example "st_mem_vit_base" "out" VNone 0 2)).
  destruct (flush_before_log (env_example 0)
              (cfg_example "st_mem_vit_base" "out" VNone 0 2)) as (_ & Hp & Hl & H).
  split; [|split; [|split]].
  - unfold tr.
    rewrite (H (out_cfg o) (out_trace o) "out/run" (Some "out/run") 0%Z 2%Z).
    + vm_compute. reflexivity.
    + vm_compute. reflexivity.
    + vm_compute. reflexivity.
    + vm_compute. reflexivity.
  - apply Hp, prefix_take.
  - vm_compute. reflexivity.
  - fold tr in Hl. rewrite <- Hl. vm_compute. reflexivity.
Defined.

(** * Further properties of [main] and [parse] *)

(** ** The steps before the loop, one by one *)

Lemma bind_trace_prefix {A B} (m : M A) (f : A -> M B) cfg :
  out_trace (m cfg) `prefix_of` out_trace ((m ≫= f) cfg).
Proof.
  rewrite run_bind. destruct (out_res (m cfg)); simpl.
  - eexists. reflexivity.
  - reflexivity.
Qed.

Lemma init_run_Ok_full E cfg c t u :
  init_run E cfg = Outcome c t (Ok u) ->
  exists ddp device s seed dataset dist dl kwargs,
    cfg !! "ddp" = Some ddp /\ cfg !! "device" = Some device /\
    cfg !! "seed" = Some s /\ py_add s (VInt (get_rank E)) = Ok seed /\
    cfg !! "dataset" = Some dataset /\ reads cfg "ddp" "distributed" dist /\
    cfg !! "dataloader" = Some dl /\
    t = [InitDistributedMode ddp; TorchDevice device; ManualSeed seed;
         BuildDataset dataset; GetDataloader dist kwargs].
Proof.
  unfold init_run. intros H. inv_run.
  repeat eexists; eassumption.
Qed.

Lemma define_model_Ok_inv E cfg c t u :
  define_model E cfg = Outcome c t (Ok u) ->
  exists name m kwargs,
    cfg !! "model_name" = Some (VStr name) /\ name ∈ models E /\
    callable E name = true /\
    cfg !! "model" = Some m /\ py_kwargs [] m = Ok kwargs /\
    t = [BuildModel name kwargs; ModelToDevice].
Proof.
  unfold define_model. intros H.
  apply bind_Ok_inv in H as (model_name & c1 & t1 & t2 & Hname & H & ->).
  apply getitem_Ok_inv in Hname as (-> & -> & Hname).
  apply bind_Ok_inv in H as (found & c1 & t1 & t2' & Hfound & H & ->).
  apply lift_Ok_inv in Hfound as (-> & -> & Hfound).
  destruct found as [name|]; [|discriminate H].
  apply bind_Ok_inv in H as (m & c1 & t1 & t2 & Hm & H & ->).
  apply getitem_Ok_inv in Hm as (-> & -> & Hm).
  apply bind_Ok_inv in H as (kwargs & c1 & t1 & t2'' & Hkw & H & ->).
  apply lift_Ok_inv in Hkw as (-> & -> & Hkw).
  destruct (callable E name) eqn:Hcall; [|discriminate H].
  inv_run.
  destruct model_name; try discriminate Hfound. simpl in Hfound.
  destruct (decide (s ∈ models E)) as [Hin|]; [|discriminate Hfound].
  injection Hfound as <-.
  exists s, m, kwargs. auto 10.
Qed.

Lemma derive_lr_Ok_inv E cfg c t eff :
  derive_lr E cfg = Outcome c t (Ok eff) ->
  lr_written E cfg c /\ t = [] /\
  exists bs accum lr,
    reads cfg "dataloader" "batch_size" bs /\
    reads cfg "train" "accum_iter" accum /\
    reads cfg "train" "lr" lr.
Proof.
  intros H. split.
  { pose proof (derive_lr_changes E cfg) as Hc. rewrite H in Hc. exact Hc. }
  unfold derive_lr in H.
  apply bind_Ok_inv in H as (bs & c1 & t1 & t2 & Hbs & H & ->).
  apply getitem2_Ok_inv in Hbs as (-> & -> & Hbs).
  apply bind_Ok_inv in H as (accum & c1 & t1 & t2' & Hacc & H & ->).
  apply getitem2_Ok_inv in Hacc as (-> & -> & Hacc).
  apply bind_Ok_inv in H as (x & c1 & t1 & t2 & Hx & H & ->).
  apply lift_Ok_inv in Hx as (-> & -> & Hx).
  apply bind_Ok_inv in H as (e & c1 & t1 & t2' & He & H & ->).
  apply lift_Ok_inv in He as (-> & -> & He).
  apply bind_Ok_inv in H as (lr & c1 & t1 & t2 & Hlr & H & ->).
  apply getitem2_Ok_inv in Hlr as (-> & -> & Hlr).
  apply bind_Ok_inv in H as (u & c1 & t1 & t2' & Hif & H & ->).
  apply ret_Ok_inv in H as (-> & -> & _).
  split; [|eauto 10].
  destruct (is_none lr); [|apply ret_Ok_inv in Hif as (_ & -> & _); reflexivity].
  apply bind_Ok_inv in Hif as (blr & c2 & t1' & t2 & Hblr & Hif & ->).
  apply getitem2_Ok_inv in Hblr as (-> & -> & Hblr).
  apply bind_Ok_inv in Hif as (y & c2 & t1' & t2' & Hy & Hif & ->).
  apply lift_Ok_inv in Hy as (-> & -> & Hy).
  apply bind_Ok_inv in Hif as (z & c2 & t1' & t2 & Hz & Hif & ->).
  apply lift_Ok_inv in Hz as (-> & -> & Hz).
  unfold setitem2 in Hif.
  destruct (cfg !! "train") as [[]|]; try discriminate Hif.
  injection Hif as _ <-. reflexivity.
Qed.

Lemma py_repeat_not_num a n v : py_repeat a n = Ok v -> as_num v = None.
Proof.
  unfold py_repeat. destruct (_ || _); [discriminate|].
  destruct a; try discriminate;
    (destruct (n <? 1)%Z; [intros [= <-]; reflexivity|]);
    (destruct (_ <? _)%Z; [discriminate|intros [= <-]; reflexivity]).
Qed.

Lemma py_mul_num_inv a b v :
  py_mul a b = Ok v -> is_Some (as_num v) -> is_Some (as_num a) /\ is_Some (as_num b).
Proof.
  unfold py_mul. destruct (as_num a) as [[x|x]|], (as_num b) as [[y|y]|]; intros H Hv;
    try discriminate H; eauto;
    apply py_repeat_not_num in H; rewrite H in Hv; destruct Hv; discriminate.
Qed.

Lemma py_truediv_num_inv a b v :
  py_truediv a b = Ok v -> is_Some (as_num a) /\ is_Some (as_num b).
Proof.
  unfold py_truediv. destruct (as_num a), (as_num b); intros H; try discriminate H; eauto.
Qed.

Lemma report_lr_Ok_inv eff cfg c t u :
  report_lr eff cfg = Outcome c t (Ok u) ->
  c = cfg /\ t = [] /\
  exists lr, reads cfg "train" "lr" lr /\ is_Some (as_num lr).
Proof.
  unfold report_lr. intros H. inv_run.
  split; [reflexivity|]. split; [reflexivity|].
  match goal with
  | Hr : reads cfg "train" "lr" ?lr, Hm : py_mul ?lr _ = Ok ?y, Hd : py_truediv ?y _ = Ok _ |- _ =>
      exists lr; split; [exact Hr|];
      apply py_truediv_num_inv in Hd as [Hy _];
      exact (proj1 (py_mul_num_inv _ _ _ Hm Hy))
  end.
Qed.

Lemma prepare_training_Ok_full E cfg c t u :
  prepare_training E cfg = Outcome c t (Ok u) ->
  c = cfg /\
  exists dist train epochs tA tB,
    reads cfg "ddp" "distributed" dist /\ cfg !! "train" = Some train /\
    reads cfg "train" "epochs" epochs /\
    t = tA ++ GetOptimizer train :: NewScaler :: tB.
Proof.
  intros H. split.
  { eapply fixed_Ok; [apply fixed_prepare_training | exact H]. }
  unfold prepare_training in H.
  apply bind_Ok_inv in H as (dist & c1 & t1 & t2 & Hdist & H & ->).
  apply getitem2_Ok_inv in Hdist as (-> & -> & Hdist).
  apply bind_Ok_inv in H as (u1 & c1 & tA & t2' & Hddp & H & ->).
  assert (c1 = cfg) as ->.
  { eapply fixed_Ok; [|exact Hddp]. unfold fixed. fixed_auto. }
  apply bind_Ok_inv in H as (train & c1 & t3 & t4 & Htrain & H & ->).
  apply getitem_Ok_inv in Htrain as (-> & -> & Htrain).
  apply bind_Ok_inv in H as (u2 & c1 & t3 & t4' & Hopt & H & ->).
  apply emit_Ok_inv in Hopt as (-> & ->).
  apply bind_Ok_inv in H as (u3 & c1 & t3 & t4 & Hsc & H & ->).
  apply emit_Ok_inv in Hsc as (-> & ->).
  apply bind_Ok_inv in H as (u4 & c1 & tB & t4'' & Hload & H & ->).
  assert (c1 = cfg) as ->.
  { eapply fixed_Ok; [apply fixed_load_model | exact Hload]. }
  apply bind_Ok_inv in H as (epochs & c1 & t5 & t6 & Hep & H & ->).
  apply getitem2_Ok_inv in Hep as (-> & -> & Hep).
  apply ret_Ok_inv in H as (_ & -> & _).
  exists dist, train, epochs, tA, tB. rewrite app_nil_r.
  split; [exact Hdist|]. split; [exact Htrain|]. split; [exact Hep|]. reflexivity.
Qed.

(** A returning [setup], step by step: only the derivation of the learning
    rate takes the configuration [cfg] to another one. *)
Lemma setup_parts E cfg cfg1 tr1 L :
  setup E cfg = Outcome cfg1 tr1 (Ok L) ->
  exists t0 t1 t2 eff t3 t4,
    before_model E cfg = Outcome cfg t0 (Ok L) /\
    define_model E cfg = Outcome cfg t1 (Ok tt) /\
    derive_lr E cfg = Outcome cfg1 t2 (Ok eff) /\
    report_lr eff cfg1 = Outcome cfg1 t3 (Ok tt) /\
    prepare_training E cfg1 = Outcome cfg1 t4 (Ok tt) /\
    tr1 = t0 ++ t1 ++ t2 ++ t3 ++ t4.
Proof.
  unfold setup. intros H.
  apply bind_Ok_inv in H as (L0 & c0 & t0 & r0 & H0 & H & ->).
  assert (c0 = cfg) as -> by (eapply fixed_Ok; [apply fixed_before_model | exact H0]).
  apply bind_Ok_inv in H as ([] & c1 & t1 & r1 & H1 & H & ->).
  assert (c1 = cfg) as -> by (eapply fixed_Ok; [apply fixed_define_model | exact H1]).
  apply bind_Ok_inv in H as (eff & c2 & t2 & r2 & H2 & H & ->).
  apply bind_Ok_inv in H as ([] & c3 & t3 & r3 & H3 & H & ->).
  assert (c3 = c2) as -> by (eapply fixed_Ok; [apply fixed_report_lr | exact H3]).
  apply bind_Ok_inv in H as ([] & c4 & t4 & r4 & H4 & H & ->).
  assert (c4 = c2) as -> by (eapply fixed_Ok; [apply fixed_prepare_training | exact H4]).
  apply ret_Ok_inv in H as (-> & -> & ->).
  exists t0, t1, t2, eff, t3, t4. rewrite app_nil_r. auto 10.
Qed.

Lemma main_Ok_inv E cfg :
  out_res (main E cfg) = Ok tt ->
  exists cfg1 tr1 L t,
    setup E cfg = Outcome cfg1 tr1 (Ok L) /\
    run_epochs E L cfg1 = Outcome cfg1 t (Ok tt).
Proof.
  intros H. pose proof (outcome_eta (main E cfg)) as Hm. rewrite H in Hm.
  unfold main in Hm at 1.
  apply bind_Ok_inv in Hm as (L & c1 & t1 & t2 & Hs & Hr & _).
  exists c1, t1, L, t2. split; [exact Hs|].
  rewrite Hr. f_equal.
  eapply fixed_Ok; [apply fixed_run_epochs | exact Hr].
Qed.

Lemma make_output_dir_main_key E cfg c t L :
  is_main_process E = true ->
  make_output_dir E cfg = Outcome c t (Ok L) ->
  is_Some (cfg !! "output_dir").
Proof.
  unfold make_output_dir. intros Hmain H. rewrite Hmain in H.
  apply bind_Ok_inv in H as (cond & c1 & t1 & t2 & Hcond & _).
  inv_run. eauto.
Qed.

(** X1. A run of [main] that reaches its end was given a configuration
    with every key [main] subscripts on the way: the nine top-level keys of
    [required_keys], [output_dir] too on the main process, and below them
    [dataloader.batch_size], [train.accum_iter], [train.lr] (the key must
    be there, if only with [None]) and [train.epochs]; and [model_name]
    names a member of [models]. *)
Theorem returning_run_has_keys (E : env) (cfg : config) :
  out_res (main E cfg) = Ok tt ->
  Forall (fun k => is_Some (cfg !! k)) required_keys /\
  (is_main_process E = true -> is_Some (cfg !! "output_dir")) /\
  (exists v, reads cfg "dataloader" "batch_size" v) /\
  (exists v, reads cfg "train" "accum_iter" v) /\
  (exists v, reads cfg "train" "lr" v) /\
  (exists v, reads cfg "train" "epochs" v) /\
  (exists name, cfg !! "model_name" = Some (VStr name) /\ name ∈ models E).
Proof.
  intros H. apply main_Ok_inv in H as (cfg1 & tr1 & L & t & Hsetup & Hrun).
  destruct (setup_parts _ _ _ _ _ Hsetup)
    as (t0 & t1 & t2 & eff & t3 & t4 & H0 & H1 & H2 & H3 & H4 & _).
  unfold before_model in H0.
  apply bind_Ok_inv in H0 as (u & c & ti & td & Hinit & Hdir & _).
  assert (c = cfg) as -> by (eapply fixed_Ok; [apply fixed_init_run | exact Hinit]).
  apply init_run_Ok_full in Hinit
    as (ddp & device & s & seed & dataset & dist & dl & kwargs &
        Hddp & Hdev & Hseed & _ & Hds & Hdist & Hdl & _).
  apply define_model_Ok_inv in H1 as (name & m & kw & Hname & Hin & _ & Hm & _).
  apply derive_lr_Ok_inv in H2 as (Hw & _ & bs & accum & lr & Hbs & Hacc & Hlr).
  apply prepare_training_Ok_full in H4
    as (_ & dist' & train & epochs & tA & tB & _ & _ & Hep & _).
  assert (Hep' : exists v, reads cfg "train" "epochs" v).
  { apply (lr_written_train_keys E cfg cfg1 "epochs" Hw); [discriminate | eauto]. }
  assert (Hstart : is_Some (cfg !! "start_epoch")).
  { destruct L as [od lw]. unfold run_epochs in Hrun.
    apply bind_Ok_inv in Hrun as (a & c & ta & tb & Ha & _).
    apply getitem_Ok_inv in Ha as (_ & _ & Ha).
    apply (lr_written_is_Some E cfg cfg1 "start_epoch" Hw); [discriminate | eauto]. }
  assert (Htrain : is_Some (cfg !! "train")).
  { apply reads_inv in Hacc as (d & Hd & _). eauto. }
  split; [repeat constructor; eauto|].
  split; [intros Hmain; eapply make_output_dir_main_key; eassumption|].
  split; [exists bs; exact Hbs|].
  split; [exists accum; exact Hacc|]. split; [exists lr; exact Hlr|].
  split; [exact Hep'|]. exists name. auto.
Qed.

Lemma returning_run_has_keys_witness :
  is_Some (cfg_example "st_mem_vit_base" "out" VNone 0 2 !! "start_epoch").
Proof.
  destruct (returning_run_has_keys (env_example 0)
              (cfg_example "st_mem_vit_base" "out" VNone 0 2)) as (H & _).
  - vm_compute. reflexivity.
  - apply Forall_forall with (x := "start_epoch") in H; [exact H|].
    unfold required_keys.
    repeat (first [apply list_elem_of_here | apply list_elem_of_further]).
Defined.

(** ** [parse] and [main] together *)

Lemma vars_start_epoch args :
  ("start_epoch", VInt (Args.start_epoch args)) ∈ vars args.
Proof.
  unfold vars. repeat (first [apply list_elem_of_here | apply list_elem_of_further]).
Qed.

(** X2. The default of [--start_epoch] is 0, which [parse] skips: when
    the configuration file has no [start_epoch] either, the merged
    configuration has none, and [main] never reaches its end.  It runs all
    the steps before the loop (dataset, model, optimizer, checkpoint load)
    and, when these return, raises KeyError('start_epoch') at the [range]
    of the epoch loop. *)
Theorem default_start_epoch_is_no_start_epoch (E : env) (args : Args.t) (loaded : config) :
  loaded !! "start_epoch" = None ->
  Args.start_epoch args = 0%Z ->
  parse args loaded !! "start_epoch" = None /\
  out_res (program E args loaded) <> Ok tt /\
  forall cfg1 tr1 L,
    setup E (parse args loaded) = Outcome cfg1 tr1 (Ok L) ->
    program E args loaded = Outcome cfg1 tr1 (Raise (KeyError "start_epoch")).
Proof.
  intros Hfile Harg.
  assert (Hnone : parse args loaded !! "start_epoch" = None).
  { unfold parse.
    rewrite (merge_present (vars args) loaded "start_epoch" (VInt (Args.start_epoch args))
               (vars_NoDup args) (vars_start_epoch args)).
    rewrite Harg. exact Hfile. }
  assert (Hraise : forall cfg1 tr1 L,
             setup E (parse args loaded) = Outcome cfg1 tr1 (Ok L) ->
             program E args loaded = Outcome cfg1 tr1 (Raise (KeyError "start_epoch"))).
  { intros cfg1 tr1 [od lw] Hsetup.
    destruct (setup_Ok_inv _ _ _ _ _ Hsetup) as (Hw & _).
    assert (H1 : cfg1 !! "start_epoch" = None).
    { apply (lr_written_None E _ cfg1 "start_epoch" Hw); [discriminate | exact Hnone]. }
    unfold program, main. rewrite (run_bind_Ok _ _ _ _ _ _ Hsetup).
    unfold run_epochs.
    rewrite (run_bind_Raise _ _ _ _ _ _ (getitem_None "start_epoch" cfg1 H1)).
    cbn [out_cfg out_trace out_res]. rewrite app_nil_r. reflexivity. }
  split; [exact Hnone|]. split; [|exact Hraise].
  intros Hok.
  destruct (main_Ok_inv _ _ Hok) as (cfg1 & tr1 & L & t & Hsetup & _).
  rewrite (Hraise cfg1 tr1 L Hsetup) in Hok.
  discriminate Hok.
Qed.

Lemma default_start_epoch_is_no_start_epoch_witness :
  out_res (program (env_example 0) (Args.Make "config.yaml" "out" "" "" 0)
             (delete "start_epoch" (cfg_example "st_mem_vit_base" "" VNone 0 2)))
  = Raise (KeyError "start_epoch").
Proof.
  set (args := Args.Make "config.yaml" "out" "" "" 0).
  set (loaded := delete "start_epoch" (cfg_example "st_mem_vit_base" "" VNone 0 2)).
  pose (o := setup (env_example 0) (parse args loaded)).
  destruct (default_start_epoch_is_no_start_epoch (env_example 0) args loaded)
    as (_ & _ & H).
  - vm_compute. reflexivity.
  - reflexivity.
  - rewrite (H (out_cfg o) (out_trace o) (Some "out/run", Some "out/run")).
    + reflexivity.
    + vm_compute. reflexivity.
Defined.


(** ** The effective batch size that is zero *)

Lemma lr_of_zero blr :
  is_Some (as_num blr) -> exists f, lr_of blr (VInt 0) = Ok (VFloat f).
Proof.
  intros [[z|f] Hb]; unfold lr_of, py_mul; rewrite Hb; cbn [as_num num_mul result_map of_num].
  - rewrite Z.mul_0_r. eexists. vm_compute. reflexivity.
  - eexists. reflexivity.
Qed.

Lemma float_of_int_256 : float_of_int 256 = Ok (S754_finite false 4503599627370496 (-44)).
Proof. vm_compute. reflexivity. Qed.

Lemma py_mul_float_256 f :
  py_mul (VFloat f) (VInt 256)
  = Ok (VFloat (float_mul f (S754_finite false 4503599627370496 (-44)))).
Proof.
  unfold py_mul. cbn [as_num num_mul float_op num_float].
  rewrite float_of_int_256. reflexivity.
Qed.

Lemma py_truediv_float_zero f : py_truediv (VFloat f) (VInt 0) = Raise ZeroDivisionError.
Proof. reflexivity. Qed.

Lemma report_lr_zero cfg f :
  reads cfg "train" "lr" (VFloat f) ->
  report_lr (VInt 0) cfg = Outcome cfg [] (Raise ZeroDivisionError).
Proof.
  intros Hlr. unfold report_lr.
  rewrite (run_bind_Ok _ _ _ _ _ _ (reads_run _ _ _ _ Hlr)).
  rewrite py_mul_float_256, (run_bind_Ok _ _ _ _ _ _ (lift_run _ _)).
  rewrite py_truediv_float_zero, (run_bind_Raise _ _ _ _ _ _ (lift_run _ _)). reflexivity.
Qed.

(** X3. A batch size, an accumulation factor or a world size of 0 stops
    the run at the first [print] of the learning rate (line 154).  With the
    learning rate unset and a base learning rate that is a number, once the
    model is defined: [main] raises ZeroDivisionError, having made no call
    after the model was moved to the device (no optimizer, no loss scaler,
    no epoch), and having already written a learning rate to the
    configuration. *)
Theorem zero_batch_raises_at_report (E : env) (cfg c0 c1 : config)
    (t0 t1 : list event) (L : option string * option string)
    (bs accum : Z) (blr : pyval) :
  before_model E cfg = Outcome c0 t0 (Ok L) ->
  define_model E cfg = Outcome c1 t1 (Ok tt) ->
  lr_unset cfg (VInt bs) (VInt accum) blr ->
  is_Some (as_num blr) ->
  (bs * accum * get_world_size E = 0)%Z ->
  exists cfg' f,
    main E cfg = Outcome cfg' (t0 ++ t1) (Raise ZeroDivisionError) /\
    reads cfg' "train" "lr" (VFloat f).
Proof.
  intros H0 H1 Hu Hblr Hzero.
  assert (c0 = cfg) as -> by (eapply fixed_Ok; [apply fixed_before_model | exact H0]).
  assert (c1 = cfg) as -> by (eapply fixed_Ok; [apply fixed_define_model | exact H1]).
  destruct (lr_of_zero blr Hblr) as [f Hf].
  assert (Hs : scaled_lr blr (VInt bs) (VInt accum) (VInt (get_world_size E)) = Ok (VFloat f)).
  { unfold scaled_lr. rewrite eff_batch_int, Hzero. exact Hf. }
  destruct (derive_lr_unset_returns E cfg _ _ _ _ Hu Hs) as (tr & eff & Htr & Heff & Hd).
  rewrite eff_batch_int, Hzero in Heff. injection Heff as <-.
  assert (Hq : reads (write_lr (train_aliases E) (VFloat f) tr cfg) "train" "lr" (VFloat f))
    by (apply write_lr_reads; reflexivity).
  exists (write_lr (train_aliases E) (VFloat f) tr cfg), f. split; [|exact Hq].
  unfold main. apply run_bind_Raise. unfold setup.
  rewrite (run_bind_Ok _ _ _ _ _ _ H0).
  rewrite (run_bind_Ok _ _ _ _ _ _ H1).
  rewrite (run_bind_Ok _ _ _ _ _ _ Hd).
  rewrite (run_bind_Raise _ _ _ _ _ _ (report_lr_zero _ f Hq)).
  cbn [out_cfg out_trace out_res]. rewrite !app_nil_r. reflexivity.
Qed.

Lemma zero_batch_raises_at_report_witness :
  out_res (main (env_example 0)
                (<["dataloader" := VDict {[ "batch_size" := VInt 0 ]}]>
                   (cfg_example "st_mem_vit_base" "" VNone 0 2)))
  = Raise ZeroDivisionError.
Proof.
  set (E := env_example 0).
  set (cfg := <["dataloader" := VDict {[ "batch_size" := VInt 0 ]}]>
                (cfg_example "st_mem_vit_base" "" VNone 0 2)).
  destruct (zero_batch_raises_at_report E cfg
              (out_cfg (before_model E cfg)) (out_cfg (define_model E cfg))
              (out_trace (before_model E cfg)) (out_trace (define_model E cfg))
              (None, None) 0%Z 2%Z (VFloat (float_lit 1 1000)))
    as (cfg' & q & H & _).
  - vm_compute. reflexivity.
  - vm_compute. reflexivity.
  - repeat split; vm_compute; reflexivity.
  - eexists; reflexivity.
  - reflexivity.
  - rewrite H. reflexivity.
Defined.

(** ** The whole run, call by call *)

Lemma main_run_with E cfg cfg1 tr1 od lw a b dist train :
  setup E cfg = Outcome cfg1 tr1 (Ok (od, lw)) ->
  cfg !! "start_epoch" = Some (VInt a) ->
  reads cfg "train" "epochs" (VInt b) ->
  reads cfg1 "ddp" "distributed" dist ->
  cfg1 !! "train" = Some train ->
  main E cfg =
  Outcome cfg1
    (tr1 ++
     concat (map (epoch_events E cfg1 dist train (VInt b) od lw) (py_range a b)) ++
     out_trace (save_encoder od (loop_variable (py_range a b) None) cfg1))
    (out_res (save_encoder od (loop_variable (py_range a b) None) cfg1)).
Proof.
  intros Hsetup Ha Hb Hdist Htrain.
  destruct (setup_Ok_inv _ _ _ _ _ Hsetup) as (Hw & _).
  assert (Ha1 : cfg1 !! "start_epoch" = Some (VInt a)).
  { apply (lr_written_other E cfg cfg1 "start_epoch" (VInt a) Hw);
      [discriminate | reflexivity | exact Ha]. }
  assert (Hb1 : reads cfg1 "train" "epochs" (VInt b)).
  { apply (lr_written_train E cfg cfg1 "epochs" (VInt b) Hw);
      [discriminate | reflexivity | exact Hb]. }
  unfold main. rewrite (run_bind_Ok _ _ _ _ _ _ Hsetup).
  rewrite (run_epochs_run E cfg1 od lw a b dist train Ha1 Hb1 Hdist Htrain).
  reflexivity.
Qed.

(** X4. The calls of a run that gets past the steps before the loop are
    the calls of those steps, then for each epoch of
    [range(start_epoch, epochs)] in turn the calls of [epoch_events]:
    [set_epoch] when [config['ddp']['distributed']] is truthy,
    [train_one_epoch], the checkpoint when it
    is due, and on the main process the flush and the log line, in this
    order; then the fetch of the encoder and, with an output directory and
    a last epoch, the save of the encoder.  The configuration is the one
    [setup] left. *)
Theorem run_call_by_call (E : env) (cfg cfg1 : config) (tr1 : list event)
    (output_dir log_writer : option string) (a b : Z) (dist train : pyval) :
  setup E cfg = Outcome cfg1 tr1 (Ok (output_dir, log_writer)) ->
  cfg !! "start_epoch" = Some (VInt a) ->
  reads cfg "train" "epochs" (VInt b) ->
  reads cfg1 "ddp" "distributed" dist ->
  cfg1 !! "train" = Some train ->
  out_cfg (main E cfg) = cfg1 /\
  out_trace (main E cfg) =
    tr1 ++
    concat (map (epoch_events E cfg1 dist train (VInt b) output_dir log_writer)
                (seqZ a (b - a))) ++
    GetEncoder ::
    match if_set output_dir, last (seqZ a (b - a)) with
    | Some d, Some e => [SaveModel (os_path_join d "encoder_fft.pth") e false cfg1]
    | _, _ => []
    end.
Proof.
  intros Hsetup Ha Hb Hdist Htrain.
  rewrite (main_run_with E cfg cfg1 tr1 output_dir log_writer a b dist train
             Hsetup Ha Hb Hdist Htrain).
  cbn [out_cfg out_trace]. split; [reflexivity|].
  unfold py_range, loop_variable, save_encoder.
  destruct (if_set output_dir), (last (seqZ a (b - a))); reflexivity.
Qed.

Lemma run_call_by_call_witness :
  length (out_trace (main (env_example 0)
                          (cfg_example "st_mem_vit_base" "out" VNone 0 2))) = 21.
Proof.
  set (E := env_example 0).
  set (cfg := cfg_example "st_mem_vit_base" "out" VNone 0 2).
  destruct (run_call_by_call E cfg (out_cfg (setup E cfg)) (out_trace (setup E cfg))
              (Some "out/run") (Some "out/run") 0 2 (VBool false)
              (cfg_train (VFloat lr_0015) 2)) as (_ & H).
  - vm_compute. reflexivity.
  - vm_compute. reflexivity.
  - vm_compute. reflexivity.
  - vm_compute. reflexivity.
  - vm_compute. reflexivity.
  - rewrite H. vm_compute. reflexivity.
Defined.

(** ** The sampler, the encoder, the optimizer *)

Lemma before_loop_more tr :
  before_loop tr -> set_epochs tr = [] /\ epoch_configs tr = [].
Proof.
  induction 1 as [|e tr He _ (IH1 & IH2)]; [auto|].
  unfold set_epochs, epoch_configs in *.
  cbn [omap list_omap]. rewrite IH1, IH2.
  destruct e; try discriminate He; auto.
Qed.

Lemma set_epochs_epoch_events E cfg dist train epochs od lw e :
  set_epochs (epoch_events E cfg dist train epochs od lw e) =
  if truthy dist then [e] else [].
Proof.
  unfold epoch_events.
  destruct (truthy dist), (if_set od),
    ((e `mod` 20 =? 0)%Z || py_eq_int (e + 1) epochs), (is_main_process E), lw;
    reflexivity.
Qed.

Lemma epoch_configs_epoch_events E cfg dist train epochs od lw e :
  epoch_configs (epoch_events E cfg dist train epochs od lw e) = [train].
Proof.
  unfold epoch_events.
  destruct (truthy dist), (if_set od),
    ((e `mod` 20 =? 0)%Z || py_eq_int (e + 1) epochs), (is_main_process E), lw;
    reflexivity.
Qed.

Lemma encoder_saves_of_epoch_events E cfg dist train epochs od lw e :
  encoder_saves (epoch_events E cfg dist train epochs od lw e) = [].
Proof.
  unfold epoch_events.
  destruct (truthy dist), (if_set od),
    ((e `mod` 20 =? 0)%Z || py_eq_int (e + 1) epochs), (is_main_process E), lw;
    reflexivity.
Qed.

Lemma concat_map_const_nil {A} (es : list Z) :
  concat (map (fun _ : Z => @nil A) es) = [].
Proof. induction es as [|e es IH]; [reflexivity | exact IH]. Qed.

Lemma save_encoder_quiet od ep cfg :
  set_epochs (out_trace (save_encoder od ep cfg)) = [] /\
  epoch_configs (out_trace (save_encoder od ep cfg)) = [].
Proof. unfold save_encoder. destruct (if_set od), ep; auto. Qed.

(** X5. The sampler of the data loader is told the epoch exactly when
    [config['ddp']['distributed']], as the steps before the loop leave it,
    is truthy: then once per epoch of [range(start_epoch, epochs)], in
    order; otherwise never. *)
Theorem sampler_told_each_epoch (E : env) (cfg cfg1 : config) (tr1 : list event)
    (L : option string * option string) (a b : Z) (dist : pyval) :
  setup E cfg = Outcome cfg1 tr1 (Ok L) ->
  cfg !! "start_epoch" = Some (VInt a) ->
  reads cfg "train" "epochs" (VInt b) ->
  reads cfg1 "ddp" "distributed" dist ->
  set_epochs (out_trace (main E cfg)) = if truthy dist then seqZ a (b - a) else [].
Proof.
  intros Hsetup Ha Hb Hdist. destruct L as [od lw].
  destruct (setup_Ok_inv _ _ _ _ _ Hsetup)
    as (Hw & (dist' & train & epochs & _ & Htrain & _) & _ & Hbefore).
  rewrite (main_run_with E cfg cfg1 tr1 od lw a b dist train Hsetup Ha Hb Hdist Htrain).
  cbn [out_trace]. apply before_loop_more in Hbefore as (Hse & _).
  unfold set_epochs in *. rewrite !omap_app, Hse, omap_concat_map.
  rewrite (proj1 (save_encoder_quiet _ _ _)), app_nil_r. cbn [app].
  erewrite map_ext by (intros e; apply set_epochs_epoch_events).
  unfold py_range. destruct (truthy dist).
  - rewrite (concat_map_singleton (fun e => e)), map_id. reflexivity.
  - apply concat_map_const_nil.
Qed.

Lemma sampler_told_each_epoch_witness :
  set_epochs (out_trace (main (env_example 0)
                              (<["ddp" := VDict {[ "distributed" := VBool true;
                                                   "gpu" := VInt 0 ]}]>
                                 (cfg_example "st_mem_vit_base" "" VNone 3 6)))) =
  [3; 4; 5]%Z.
Proof.
  set (E := env_example 0).
  set (cfg := <["ddp" := _]> _).
  rewrite (sampler_told_each_epoch E cfg (out_cfg (setup E cfg)) (out_trace (setup E cfg))
             (None, None) 3 6 (VBool true)).
  - reflexivity.
  - vm_compute. reflexivity.
  - vm_compute. reflexivity.
  - vm_compute. reflexivity.
  - vm_compute. reflexivity.
Defined.

(** X6. After a loop that ran (start epoch below the number of epochs) the
    run returns.  With an output directory [d] the encoder is saved once,
    as encoder_fft.pth in [d], tagged with the last epoch [epochs - 1], and
    this save is the last call of the run; without one no encoder is saved.
    Without an output directory the run returns also when the loop never
    ran, having only fetched the encoder after the steps before the loop. *)
Theorem encoder_saved_last (E : env) (cfg cfg1 : config) (tr1 : list event)
    (output_dir log_writer : option string) (a b : Z) :
  setup E cfg = Outcome cfg1 tr1 (Ok (output_dir, log_writer)) ->
  cfg !! "start_epoch" = Some (VInt a) ->
  reads cfg "train" "epochs" (VInt b) ->
  ((a < b)%Z ->
   out_res (main E cfg) = Ok tt /\
   match output_dir with
   | Some d =>
       encoder_saves (out_trace (main E cfg)) =
         [(os_path_join d "encoder_fft.pth", (b - 1)%Z)] /\
       last (out_trace (main E cfg)) =
         Some (SaveModel (os_path_join d "encoder_fft.pth") (b - 1) false cfg1)
   | None => encoder_saves (out_trace (main E cfg)) = []
   end) /\
  ((b <= a)%Z -> output_dir = None ->
   main E cfg = Outcome cfg1 (tr1 ++ [GetEncoder]) (Ok tt)).
Proof.
  intros Hsetup Ha Hb.
  destruct (main_run E cfg cfg1 tr1 output_dir log_writer a b Hsetup Ha Hb)
    as (dist & train & Hmain).
  destruct (setup_Ok_inv _ _ _ _ _ Hsetup) as (_ & _ & HL & Hbefore).
  apply before_loop_observations in Hbefore as (_ & Henc & _ & _).
  cbv zeta in Hmain. split.
  - intros Hlt. rewrite loop_variable_range in Hmain by exact Hlt.
    rewrite save_encoder_bound in Hmain. cbn [out_trace out_res] in Hmain.
    rewrite Hmain. cbn [out_trace out_res]. split; [reflexivity|].
    assert (Hloop : encoder_saves
                      (concat (map (epoch_events E cfg1 dist train (VInt b)
                                      output_dir log_writer) (py_range a b))) = []).
    { unfold encoder_saves. rewrite omap_concat_map.
      erewrite map_ext by (intros e; apply encoder_saves_of_epoch_events).
      apply concat_map_const_nil. }
    destruct HL as [[= -> ->]|(d & [= -> ->] & _ & Hd)].
    + unfold encoder_saves in *. rewrite !omap_app, Henc, Hloop. reflexivity.
    + rewrite Hd. split.
      * unfold encoder_saves in *. rewrite !omap_app, Henc, Hloop. reflexivity.
      * rewrite !app_assoc.
        change (?l ++ [GetEncoder; ?s]) with (l ++ [GetEncoder] ++ [s]).
        rewrite app_assoc. apply last_snoc.
  - intros Hle ->. rewrite py_range_empty in Hmain by exact Hle.
    rewrite Hmain. reflexivity.
Qed.

Lemma encoder_saved_last_witness :
  encoder_saves (out_trace (main (env_example 0)
                                 (cfg_example "st_mem_vit_base" "out" VNone 0 3))) =
  [("out/run/encoder_fft.pth", 2%Z)].
Proof.
  set (E := env_example 0).
  set (cfg := cfg_example "st_mem_vit_base" "out" VNone 0 3).
  destruct (encoder_saved_last E cfg (out_cfg (setup E cfg)) (out_trace (setup E cfg))
              (Some "out/run") (Some "out/run") 0 3) as (H & _).
  - vm_compute. reflexivity.
  - vm_compute. reflexivity.
  - vm_compute. reflexivity.
  - destruct H as (_ & H & _); [lia|]. rewrite H. vm_compute. reflexivity.
Defined.

(** X7. When the steps before the loop return, the learning rate in the
    configuration is a number, never [None]: the optimizer is built from
    a [config['train']] whose ['lr'] is that number, and every call of
    [train_one_epoch] is handed the same dictionary. *)
Theorem optimizer_sees_numeric_lr (E : env) (cfg cfg1 : config) (tr1 : list event)
    (L : option string * option string) (a b : Z) :
  setup E cfg = Outcome cfg1 tr1 (Ok L) ->
  cfg !! "start_epoch" = Some (VInt a) ->
  reads cfg "train" "epochs" (VInt b) ->
  exists train lr,
    cfg1 !! "train" = Some (VDict train) /\
    train !! "lr" = Some lr /\ is_Some (as_num lr) /\
    GetOptimizer (VDict train) ∈ tr1 /\
    epoch_configs (out_trace (main E cfg)) =
      map (fun _ => VDict train) (seqZ a (b - a)).
Proof.
  intros Hsetup Ha Hb. destruct L as [od lw].
  destruct (setup_parts _ _ _ _ _ Hsetup)
    as (t0 & t1 & t2 & eff & t3 & t4 & _ & _ & _ & H3 & H4 & Htr1).
  apply report_lr_Ok_inv in H3 as (_ & _ & lr & Hlr & Hnum).
  apply prepare_training_Ok_full in H4
    as (_ & dist & tv & epochs & tA & tB & Hdist & Htrain & _ & ->).
  apply reads_inv in Hlr as (train & Htr & Hlr).
  rewrite Htrain in Htr. injection Htr as ->.
  exists train, lr. split; [exact Htrain|]. split; [exact Hlr|]. split; [exact Hnum|].
  split.
  { rewrite Htr1, !elem_of_app. do 4 right. right. apply list_elem_of_here. }
  destruct (setup_Ok_inv _ _ _ _ _ Hsetup) as (_ & _ & _ & Hbefore).
  rewrite (main_run_with E cfg cfg1 tr1 od lw a b dist (VDict train)
             Hsetup Ha Hb Hdist Htrain).
  cbn [out_trace]. apply before_loop_more in Hbefore as (_ & Hec).
  unfold epoch_configs in *. rewrite !omap_app, Hec, omap_concat_map.
  rewrite (proj2 (save_encoder_quiet _ _ _)), app_nil_r. cbn [app].
  erewrite map_ext by (intros e; apply epoch_configs_epoch_events).
  apply concat_map_singleton.
Qed.

Lemma optimizer_sees_numeric_lr_witness :
  epoch_configs (out_trace (main (env_example 0)
                                 (cfg_example "st_mem_vit_base" "" VNone 0 2))) =
  [cfg_train (VFloat lr_0015) 2; cfg_train (VFloat lr_0015) 2].
Proof.
  set (E := env_example 0).
  set (cfg := cfg_example "st_mem_vit_base" "" VNone 0 2).
  destruct (optimizer_sees_numeric_lr E cfg (out_cfg (setup E cfg))
              (out_trace (setup E cfg)) (None, None) 0 2)
    as (train & lr & _ & _ & _ & _ & H).
  - vm_compute. reflexivity.
  - vm_compute. reflexivity.
  - vm_compute. reflexivity.
  - vm_compute. reflexivity.
Defined.

(** ** The names of the artifacts *)

Lemma string_length_app s t :
  String.length (s +:+ t) = String.length s + String.length t.
Proof. induction s as [|c s IH]; simpl; [reflexivity | rewrite IH; reflexivity]. Qed.

Lemma string_app_cancel_r s1 s2 t : s1 +:+ t = s2 +:+ t -> s1 = s2.
Proof.
  revert s2. induction s1 as [|c s1 IH]; intros [|c' s2] H.
  - reflexivity.
  - apply (f_equal String.length) in H.
    rewrite !string_length_app in H. simpl in H. lia.
  - apply (f_equal String.length) in H.
    rewrite !string_length_app in H. simpl in H. lia.
  - change (String c (s1 +:+ t) = String c' (s2 +:+ t)) in H.
    injection H as -> H. f_equal. apply IH. exact H.
Qed.

Lemma checkpoint_name_inj e e' : checkpoint_name e = checkpoint_name e' -> e = e'.
Proof.
  unfold checkpoint_name, py_str_int. intros H.
  apply (inj (String.append "checkpoint-")) in H.
  apply string_app_cancel_r in H. apply (inj pretty) in H. exact H.
Qed.

(** two relative names under one directory *)
Lemma os_path_join_inj d x y :
  String.prefix "/" x = false -> String.prefix "/" y = false ->
  os_path_join d x = os_path_join d y -> x = y.
Proof.
  unfold os_path_join. intros -> ->.
  destruct (String.eqb d "" || endswith_sep d); intros H.
  - apply (inj (String.append d)) in H. exact H.
  - apply (inj (String.append d)) in H. apply (inj (String.append "/")) in H. exact H.
Qed.

Lemma checkpoint_name_relative e : String.prefix "/" (checkpoint_name e) = false.
Proof. reflexivity. Qed.

Lemma checkpoints_main E cfg cfg1 tr1 d lw a b :
  setup E cfg = Outcome cfg1 tr1 (Ok (Some d, lw)) ->
  cfg !! "start_epoch" = Some (VInt a) ->
  reads cfg "train" "epochs" (VInt b) ->
  checkpoints (out_trace (main E cfg)) =
  map (fun e => (os_path_join d (checkpoint_name e), e))
      (filter (fun e => e `mod` 20 = 0 \/ e + 1 = b)%Z (seqZ a (b - a))).
Proof.
  intros Hsetup Ha Hb.
  destruct (main_run E cfg cfg1 tr1 (Some d) lw a b Hsetup Ha Hb)
    as (dist & train & Hmain).
  destruct (setup_Ok_inv _ _ _ _ _ Hsetup) as (_ & _ & HL & Hbefore).
  destruct HL as [[=]|(d' & [= -> ->] & _ & Hd)].
  apply before_loop_observations in Hbefore as (Hck & _).
  cbv zeta in Hmain. rewrite Hmain. cbn [out_trace].
  unfold checkpoints in *. rewrite !omap_app, Hck, omap_concat_map.
  rewrite (proj1 (save_encoder_observations _ _ _)), app_nil_r. cbn [app].
  unfold py_range.
  erewrite map_ext
    by (intros e; apply (checkpoints_epoch_events E cfg1 dist train); exact Hd).
  apply (concat_map_if _ (fun e => e `mod` 20 = 0 \/ e + 1 = b)%Z
           (fun e => (os_path_join d' (checkpoint_name e), e))).
  intros e. cbn [py_eq_int as_num].
  rewrite orb_true_iff, !Z.eqb_eq. reflexivity.
Qed.

(** X8. From whatever epoch a run starts, the checkpoints it saves are
    those of the epochs [e] of [range(start_epoch, epochs)] with
    [e mod 20 = 0] or [e + 1 = epochs]; their paths are pairwise distinct,
    so no checkpoint of a run overwrites another, and none is the path of
    the log or of the encoder. *)
Theorem checkpoints_do_not_collide (E : env) (cfg cfg1 : config) (tr1 : list event)
    (d : string) (lw : option string) (a b : Z) :
  setup E cfg = Outcome cfg1 tr1 (Ok (Some d, lw)) ->
  cfg !! "start_epoch" = Some (VInt a) ->
  reads cfg "train" "epochs" (VInt b) ->
  (checkpoints (out_trace (main E cfg))).*2 =
    filter (fun e => e `mod` 20 = 0 \/ e + 1 = b)%Z (seqZ a (b - a)) /\
  NoDup (checkpoints (out_trace (main E cfg))).*1 /\
  Forall (fun p => p <> os_path_join d "log.txt" /\
                   p <> os_path_join d "encoder_fft.pth")
         (checkpoints (out_trace (main E cfg))).*1.
Proof.
  intros Hsetup Ha Hb.
  rewrite (checkpoints_main E cfg cfg1 tr1 d lw a b Hsetup Ha Hb).
  rewrite <- !list_fmap_compose. split; [|split].
  - apply list_fmap_id.
  - apply NoDup_fmap_2.
    + intros e e' H. unfold compose in H. cbn [fst] in H.
      apply os_path_join_inj in H; try apply checkpoint_name_relative.
      apply checkpoint_name_inj. exact H.
    + apply NoDup_filter, NoDup_seqZ.
  - apply Forall_fmap, Forall_forall. intros e _.
    unfold compose. cbn [fst]. split; intros H.
    + apply os_path_join_inj in H; [discriminate H | reflexivity | reflexivity].
    + apply os_path_join_inj in H; [discriminate H | reflexivity | reflexivity].
Qed.

Lemma checkpoints_do_not_collide_witness :
  (checkpoints (out_trace (main (env_example 0)
                                (cfg_example "st_mem_vit_base" "out" VNone 18 23)))).*2 =
  [20; 22]%Z.
Proof.
  set (E := env_example 0).
  set (cfg := cfg_example "st_mem_vit_base" "out" VNone 18 23).
  destruct (checkpoints_do_not_collide E cfg (out_cfg (setup E cfg))
              (out_trace (setup E cfg)) "out/run" (Some "out/run") 18 23)
    as (H & _).
  - vm_compute. reflexivity.
  - vm_compute. reflexivity.
  - vm_compute. reflexivity.
  - rewrite H. vm_compute. reflexivity.
Defined.

(** ** [parse] again *)

Lemma vars_key_value args k :
  k ∈ (vars args).*1 -> exists v, (k, v) ∈ vars args.
Proof.
  intros H. apply list_elem_of_fmap in H as ([k' v] & -> & H). eauto.
Qed.

(** X9. [parse] never removes a key of the configuration file, and merging
    the same arguments a second time changes nothing. *)
Theorem parse_keeps_keys_and_is_idempotent (args : Args.t) (loaded : config) :
  (forall k, is_Some (loaded !! k) -> is_Some (parse args loaded !! k)) /\
  parse args (parse args loaded) = parse args loaded.
Proof.
  split.
  - intros k Hk. destruct (decide (k ∈ (vars args).*1)) as [Hin|Hout].
    + apply vars_key_value in Hin as (v & Hv). unfold parse.
      rewrite (merge_present _ loaded k v (vars_NoDup args) Hv).
      destruct (truthy v); eauto.
    + unfold parse. rewrite (merge_absent _ loaded k Hout). exact Hk.
  - apply map_eq. intros k.
    destruct (decide (k ∈ (vars args).*1)) as [Hin|Hout].
    + apply vars_key_value in Hin as (v & Hv). unfold parse.
      rewrite !(merge_present _ _ k v (vars_NoDup args) Hv).
      destruct (truthy v); reflexivity.
    + unfold parse. rewrite !(merge_absent _ _ k Hout). reflexivity.
Qed.

(** ** The seed *)

(** X10. When the first steps (lines 97-121) return on a configuration
    whose seed is the integer [s], torch and numpy were seeded with
    [s + rank], in any run of [main] however it ends afterwards: processes
    of different ranks are seeded differently. *)
Theorem seed_is_offset_by_rank (E : env) (cfg c : config) (t : list event) (s : Z) :
  init_run E cfg = Outcome c t (Ok tt) ->
  cfg !! "seed" = Some (VInt s) ->
  t `prefix_of` out_trace (main E cfg) /\
  ManualSeed (VInt (s + get_rank E)) ∈ out_trace (main E cfg) /\
  forall seed, ManualSeed seed ∈ t -> seed = VInt (s + get_rank E).
Proof.
  intros Hinit Hseed.
  assert (Hpre : t `prefix_of` out_trace (main E cfg)).
  { unfold main, setup, before_model.
    etrans; [|apply bind_trace_prefix]. etrans; [|apply bind_trace_prefix].
    etrans; [|apply bind_trace_prefix]. rewrite Hinit. reflexivity. }
  apply init_run_Ok_full in Hinit
    as (ddp & device & s' & seed & dataset & dist & dl & kwargs &
        _ & _ & Hs & Hadd & _ & _ & _ & ->).
  rewrite Hseed in Hs. injection Hs as <-. cbn in Hadd. injection Hadd as <-.
  split; [exact Hpre|]. split.
  - destruct Hpre as [rest ->]. apply elem_of_app. left.
    do 2 apply list_elem_of_further. apply list_elem_of_here.
  - intros seed Hin.
    repeat (apply elem_of_cons in Hin as [Hin|Hin]; [try discriminate Hin|]).
    + injection Hin as ->. reflexivity.
    + apply elem_of_nil in Hin. contradiction.
Qed.

Lemma seed_is_offset_by_rank_witness :
  ManualSeed (VInt 2) ∈
  out_trace (main (env_example 2) (cfg_example "st_mem_vit_base" "out" VNone 0 1)).
Proof.
  set (E := env_example 2).
  set (cfg := cfg_example "st_mem_vit_base" "out" VNone 0 1).
  destruct (seed_is_offset_by_rank E cfg (out_cfg (init_run E cfg))
              (out_trace (init_run E cfg)) 0) as (_ & H & _).
  - vm_compute. reflexivity.
  - vm_compute. reflexivity.
  - exact H.
Defined.

(** ** No output directory at all *)

Lemma vars_output_dir args :
  ("output_dir", VStr (Args.output_dir args)) ∈ vars args.
Proof.
  unfold vars. repeat (first [apply list_elem_of_here | apply list_elem_of_further]).
Qed.

Lemma make_output_dir_no_key E cfg :
  is_main_process E = true ->
  cfg !! "output_dir" = None ->
  make_output_dir E cfg = Outcome cfg [] (Raise (KeyError "output_dir")).
Proof.
  intros Hmain Hnone. unfold make_output_dir. rewrite Hmain.
  apply run_bind_Raise.
  apply (run_bind_Raise _ _ _ _ _ _ (getitem_None "output_dir" cfg Hnone)).
Qed.

(** X11. The default of [--output_dir] is the empty string, which [parse]
    skips: when the configuration file has no [output_dir] either, the
    merged configuration has none.  The main process then raises
    KeyError('output_dir') right after the data loader is built, before the
    model is defined, while a process that is not the main one never reads
    the key and goes on without an output directory. *)
Theorem default_output_dir_fails_on_main_only (E : env) (args : Args.t)
    (loaded c : config) (t : list event) :
  loaded !! "output_dir" = None ->
  Args.output_dir args = "" ->
  init_run E (parse args loaded) = Outcome c t (Ok tt) ->
  parse args loaded !! "output_dir" = None /\
  (is_main_process E = true ->
   program E args loaded =
   Outcome (parse args loaded) t (Raise (KeyError "output_dir"))) /\
  (is_main_process E = false ->
   before_model E (parse args loaded) =
   Outcome (parse args loaded) t (Ok (None, None))).
Proof.
  intros Hfile Harg Hinit.
  assert (Hnone : parse args loaded !! "output_dir" = None).
  { unfold parse.
    rewrite (merge_present (vars args) loaded "output_dir" (VStr (Args.output_dir args))
               (vars_NoDup args) (vars_output_dir args)).
    rewrite Harg. exact Hfile. }
  assert (c = parse args loaded) as ->
    by (eapply fixed_Ok; [apply fixed_init_run | exact Hinit]).
  split; [exact Hnone|]. split; intros Hmain.
  - unfold program, main. apply run_bind_Raise.
    unfold setup. apply run_bind_Raise. unfold before_model.
    rewrite (run_bind_Ok _ _ _ _ _ _ Hinit).
    rewrite (make_output_dir_no_key E _ Hmain Hnone).
    cbn [out_cfg out_trace out_res]. rewrite app_nil_r. reflexivity.
  - unfold before_model. rewrite (run_bind_Ok _ _ _ _ _ _ Hinit).
    rewrite (make_output_dir_not_main E _ Hmain).
    cbn [out_cfg out_trace out_res]. rewrite app_nil_r. reflexivity.
Qed.

Lemma default_output_dir_fails_on_main_only_witness :
  out_res (program (env_example 0) (Args.Make "config.yaml" "" "" "" 0)
             (delete "output_dir" (cfg_example "st_mem_vit_base" "" VNone 0 2)))
  = Raise (KeyError "output_dir").
Proof.
  set (E := env_example 0).
  set (args := Args.Make "config.yaml" "" "" "" 0).
  set (loaded := delete "output_dir" (cfg_example "st_mem_vit_base" "" VNone 0 2)).
  destruct (default_output_dir_fails_on_main_only E args loaded
              (out_cfg (init_run E (parse args loaded)))
              (out_trace (init_run E (parse args loaded)))) as (_ & H & _).
  - vm_compute. reflexivity.
  - reflexivity.
  - vm_compute. reflexivity.
  - rewrite H; reflexivity.
Defined.

Lemma parse_keeps_keys_and_is_idempotent_witness :
  is_Some (parse (Args.Make "config.yaml" "" "" "" 0)
                 (cfg_example "st_mem_vit_base" "out" VNone 5 8) !! "start_epoch").
Proof.
  apply (proj1 (parse_keeps_keys_and_is_idempotent _ _)).
  vm_compute. eexists. reflexivity.
Defined.
